(** * Oracle Code Assist handler ([src/api/providers/oca-handler.ts])

    A shallow embedding of [OcaHandler]: the credential check, the protocol
    selection, the chat-style request's tool choice, the conversation
    formatter of the Responses API, the two stream interpreters of
    [createMessage] and the text extraction of [completePrompt], followed
    by the properties of the specification that concern them. *)

From Stdlib Require Import List String Ascii ZArith Bool Lia.
From Stdlib Require Import DecimalString.
Import ListNotations.
Open Scope string_scope.
Open Scope list_scope.

(* ================================================================== *)
(** ** JavaScript values

    The Responses stream hands [processResponsesEvent] values of type
    [any]: decoded JSON.  Property reads on them never fail in the source
    (every read is either optional-chained or guarded by an earlier test),
    so a read of a missing property is [undefined].  Numbers are the
    integers (indices and token counts are all the handler reads). *)

Module Js.

#[local] Set Warnings "-register-all".

Inductive value : Type :=
| undefined
| null
| boolean (b : bool)
| number (n : Z)
| str (s : string)
| array (items : list value)
| object (fields : list (string * value)).

(** [ToBoolean]. *)
Definition truthy (v : value) : bool :=
  match v with
  | undefined | null => false
  | boolean b => b
  | number n => negb (n =? 0)%Z
  | str s => negb (s =? "")
  | array _ | object _ => true
  end.

Fixpoint lookup (k : string) (fields : list (string * value)) : value :=
  match fields with
  | [] => undefined
  | (k', v) :: rest => if k' =? k then v else lookup k rest
  end.

(** [v?.k] (and [v.k] where the source has established that [v] is not
    nullish). *)
Definition get (k : string) (v : value) : value :=
  match v with
  | object fields => lookup k fields
  | _ => undefined
  end.

(** [v?.[0]]. *)
Definition at0 (v : value) : value :=
  match v with
  | array items => hd undefined items
  | str (String c _) => str (String c EmptyString)
  | object fields => lookup "0" fields
  | _ => undefined
  end.

(** [a || b], [a && b], [a ?? b]. *)
Definition oror (a b : value) : value := if truthy a then a else b.
Definition andand (a b : value) : value := if truthy a then b else a.
Definition coalesce (a b : value) : value :=
  match a with
  | undefined | null => b
  | _ => a
  end.

(** [v === "lit"]. *)
Definition eqStr (lit : string) (v : value) : bool :=
  match v with
  | str s => s =? lit
  | _ => false
  end.

(** [typeof v === "string"]. *)
Definition isString (v : value) : bool :=
  match v with
  | str _ => true
  | _ => false
  end.

(** [typeof v === "string" && v.length > 0]. *)
Definition isNonEmptyString (v : value) : bool :=
  match v with
  | str s => negb (s =? "")
  | _ => false
  end.

(** [Array.isArray(v)]. *)
Definition isArray (v : value) : bool :=
  match v with
  | array _ => true
  | _ => false
  end.

Definition ofOption (o : option string) : value :=
  match o with
  | Some s => str s
  | None => undefined
  end.

(** [`${v}`].  A number is printed as the digits of the integer, which
    is what JavaScript prints below 10^21 (from there on it prints an
    exponent); statements about the text of a number stay below. *)
Fixpoint toString (v : value) : string :=
  match v with
  | undefined => "undefined"
  | null => "null"
  | boolean b => if b then "true" else "false"
  | number n => NilZero.string_of_int (Z.to_int n)
  | str s => s
  | array items =>
      (fix join (l : list value) : string :=
         match l with
         | [] => ""
         | x :: rest =>
             let here :=
               match x with
               | undefined | null => ""
               | _ => toString x
               end in
             match rest with
             | [] => here
             | _ => (here ++ "," ++ join rest)%string
             end
         end) items
  | object _ => "[object Object]"
  end.

End Js.

Notation "a '<|>' b" := (Js.oror a b) (at level 51, right associativity).
Notation "a '<??>' b" := (Js.coalesce a b) (at level 51, right associativity).

(* ================================================================== *)
(** ** Output chunks ([ApiStream])

    One constructor per [type] discriminator the handler yields.  Fields
    hold what the source puts there, which on the Responses path is a raw
    value of the event. *)

Inductive ApiStreamChunk : Type :=
| text_chunk (text : Js.value)
| reasoning_chunk (text : Js.value)
| tool_call_partial (index id name arguments : Js.value)
| tool_call (id name arguments : Js.value)
| tool_call_end (id : Js.value)
| usage_chunk (inputTokens outputTokens : Js.value).

Definition isUsage (c : ApiStreamChunk) : bool :=
  match c with
  | usage_chunk _ _ => true
  | _ => false
  end.

Definition isToolCallEnd (c : ApiStreamChunk) : bool :=
  match c with
  | tool_call_end _ => true
  | _ => false
  end.

(** The chunk is the [tool_call_end] of the call [id]. *)
Definition isEndOf (id : string) (c : ApiStreamChunk) : bool :=
  match c with
  | tool_call_end v => Js.eqStr id v
  | _ => false
  end.

(** The chunk is a [tool_call_partial] of the call [id]. *)
Definition isPartialOf (id : string) (c : ApiStreamChunk) : bool :=
  match c with
  | tool_call_partial _ v _ _ => Js.eqStr id v
  | _ => false
  end.


Definition count (p : ApiStreamChunk -> bool) (out : list ApiStreamChunk) : nat :=
  List.length (filter p out).

(* ================================================================== *)
(** ** The handler's instance state *)

Record Handler : Type := mkHandler {
  lastResponseId : Js.value;
  lastResponseOutput : Js.value;
  pendingToolCallId : Js.value;
  pendingToolCallName : Js.value
}.

(** The four assignments at the head of the Responses branch of
    [createMessage]. *)
Definition resetHandler (h : Handler) : Handler :=
  mkHandler Js.undefined Js.undefined Js.undefined Js.undefined.

Definition newHandler : Handler :=
  mkHandler Js.undefined Js.undefined Js.undefined Js.undefined.

(* ================================================================== *)
(** ** [processResponsesEvent] *)

Definition isTextDelta (event : Js.value) : bool :=
  Js.eqStr "response.text.delta" (Js.get "type" event)
  || Js.eqStr "response.output_text.delta" (Js.get "type" event).

Definition isReasoningDelta (event : Js.value) : bool :=
  Js.eqStr "response.reasoning.delta" (Js.get "type" event)
  || Js.eqStr "response.reasoning_text.delta" (Js.get "type" event)
  || Js.eqStr "response.reasoning_summary.delta" (Js.get "type" event)
  || Js.eqStr "response.reasoning_summary_text.delta" (Js.get "type" event).

Definition isRefusalDelta (event : Js.value) : bool :=
  Js.eqStr "response.refusal.delta" (Js.get "type" event).

Definition isToolCallArgumentsDelta (event : Js.value) : bool :=
  Js.eqStr "response.tool_call_arguments.delta" (Js.get "type" event)
  || Js.eqStr "response.function_call_arguments.delta" (Js.get "type" event).

Definition isToolCallArgumentsDone (event : Js.value) : bool :=
  Js.eqStr "response.tool_call_arguments.done" (Js.get "type" event)
  || Js.eqStr "response.function_call_arguments.done" (Js.get "type" event).

Definition isOutputItem (event : Js.value) : bool :=
  Js.eqStr "response.output_item.added" (Js.get "type" event)
  || Js.eqStr "response.output_item.done" (Js.get "type" event).

Definition isResponseDone (event : Js.value) : bool :=
  Js.eqStr "response.done" (Js.get "type" event)
  || Js.eqStr "response.completed" (Js.get "type" event).

(** [item.type === "function_call" || item.type === "tool_call"]. *)
Definition isCallItem (item : Js.value) : bool :=
  Js.eqStr "function_call" (Js.get "type" item)
  || Js.eqStr "tool_call" (Js.get "type" item).

(** The two captures at the head of [processResponsesEvent]. *)
Definition captureResponse (h : Handler) (event : Js.value) : Handler :=
  let response := Js.get "response" event in
  let h1 :=
    if Js.truthy (Js.get "output" response) && Js.isArray (Js.get "output" response)
    then mkHandler (lastResponseId h) (Js.get "output" response)
                   (pendingToolCallId h) (pendingToolCallName h)
    else h in
  if Js.truthy (Js.get "id" response)
  then mkHandler (Js.get "id" response) (lastResponseOutput h1)
                 (pendingToolCallId h1) (pendingToolCallName h1)
  else h1.

(** Identity resolution of an arguments delta: the event's own fields
    first, the handler's pending identity last. *)
Definition resolveCallId (h : Handler) (event : Js.value) : Js.value :=
  Js.get "call_id" event <|> Js.get "tool_call_id" event <|> Js.get "id" event
    <|> pendingToolCallId h <|> Js.undefined.

Definition resolveName (h : Handler) (event : Js.value) : Js.value :=
  Js.get "name" event <|> Js.get "function_name" event
    <|> pendingToolCallName h <|> Js.undefined.

Definition toolCallArgumentsDelta (h : Handler) (event : Js.value) : list ApiStreamChunk :=
  let callId := resolveCallId h event in
  let name := resolveName h event in
  let args := Js.get "delta" event <|> Js.get "arguments" event in
  if Js.isNonEmptyString name && Js.isNonEmptyString callId
  then [tool_call_partial (Js.get "index" event <??> Js.number 0) callId name args]
  else [].

(** [item.call_id || item.tool_call_id || item.id]. *)
Definition itemCallId (item : Js.value) : Js.value :=
  Js.get "call_id" item <|> Js.get "tool_call_id" item <|> Js.get "id" item.

(** [item.name || item.function?.name || item.function_name]. *)
Definition itemName (item : Js.value) : Js.value :=
  Js.get "name" item <|> Js.get "name" (Js.get "function" item)
    <|> Js.get "function_name" item.

(** The identity capture of an output item. *)
Definition captureIdentity (h : Handler) (item : Js.value) : Handler :=
  if isCallItem item
  then
    let callId := itemCallId item in
    let name := itemName item in
    if Js.isNonEmptyString callId
    then mkHandler (lastResponseId h) (lastResponseOutput h) callId
                   (if Js.isString name then name else Js.undefined)
    else h
  else h.

(** The texts of a [message] item's content parts. *)
Fixpoint messageTexts (parts : list Js.value) : list ApiStreamChunk :=
  match parts with
  | [] => []
  | content :: rest =>
      (if (Js.eqStr "text" (Js.get "type" content)
           || Js.eqStr "output_text" (Js.get "type" content))
          && Js.truthy (Js.get "text" content)
       then [text_chunk (Js.get "text" content)]
       else [])
      ++ messageTexts rest
  end.

(** What an output item yields. *)
Definition outputItemChunks (event item : Js.value) : list ApiStreamChunk :=
  if Js.eqStr "text" (Js.get "type" item) && Js.truthy (Js.get "text" item)
  then [text_chunk (Js.get "text" item)]
  else if Js.eqStr "reasoning" (Js.get "type" item) && Js.truthy (Js.get "text" item)
  then [reasoning_chunk (Js.get "text" item)]
  else if Js.eqStr "message" (Js.get "type" item) && Js.isArray (Js.get "content" item)
  then
    match Js.get "content" item with
    | Js.array parts => messageTexts parts
    | _ => []
    end
  else if isCallItem item && Js.eqStr "response.output_item.done" (Js.get "type" event)
  then
    let callId := itemCallId item in
    if Js.truthy callId
    then
      let args := Js.get "arguments" item
                    <|> Js.get "arguments" (Js.get "function" item)
                    <|> Js.get "function_arguments" item in
      [tool_call callId
                 (Js.get "name" item <|> Js.get "name" (Js.get "function" item)
                    <|> Js.get "function_name" item <|> Js.str "")
                 (if Js.isString args then args else Js.str "{}")]
    else []
  else [].

Definition usageChunk (usage : Js.value) : ApiStreamChunk :=
  usage_chunk
    (Js.get "input_tokens" usage <??> Js.get "prompt_tokens" usage <??> Js.number 0)
    (Js.get "output_tokens" usage <??> Js.get "completion_tokens" usage <??> Js.number 0).

(** The generator body: the chunks it yields for one event, in order, and
    the handler state it leaves.  (Its [modelInfo] argument is not read.) *)
Definition processResponsesEvent (h0 : Handler) (event : Js.value)
  : list ApiStreamChunk * Handler :=
  let h := captureResponse h0 event in
  if isTextDelta event then
    (if Js.truthy (Js.get "delta" event) then [text_chunk (Js.get "delta" event)] else [], h)
  else if isReasoningDelta event then
    (if Js.truthy (Js.get "delta" event) then [reasoning_chunk (Js.get "delta" event)] else [], h)
  else if isRefusalDelta event then
    (if Js.truthy (Js.get "delta" event)
     then [text_chunk (Js.str ("[Refusal] " ++ Js.toString (Js.get "delta" event))%string)]
     else [], h)
  else if isToolCallArgumentsDelta event then
    (toolCallArgumentsDelta h event, h)
  else if isToolCallArgumentsDone event then
    ([], h)
  else if isOutputItem event then
    let item := Js.get "item" event in
    if Js.truthy item
    then (outputItemChunks event item, captureIdentity h item)
    else ([], h)
  else if isResponseDone event then
    let usage := Js.get "usage" (Js.get "response" event) in
    (if Js.truthy usage then [usageChunk usage] else [], h)
  else if Js.truthy (Js.get "content" (Js.get "delta" (Js.at0 (Js.get "choices" event)))) then
    ([text_chunk (Js.get "content" (Js.get "delta" (Js.at0 (Js.get "choices" event))))], h)
  else if Js.truthy (Js.get "usage" event) then
    ([usageChunk (Js.get "usage" event)], h)
  else ([], h).

(** The nested [for await] loops of the Responses branch: every event of
    the stream goes through [processResponsesEvent], whose chunks are
    re-yielded in order. *)
Fixpoint responsesLoop (h : Handler) (events : list Js.value)
  : list ApiStreamChunk * Handler :=
  match events with
  | [] => ([], h)
  | event :: rest =>
      let (out, h1) := processResponsesEvent h event in
      let (outs, h2) := responsesLoop h1 rest in
      (out ++ outs, h2)
  end.

(* ================================================================== *)
(** ** The chat-style stream

    Chunks of [client.chat.completions.create] as the SDK types them
    ([ChatCompletionChunk]); the two reasoning properties, which the SDK
    does not declare and the source reads through [any], stay raw values
    ([None]: the property is not [in] the delta). *)

Record ToolCallFunction : Type := mkToolCallFunction {
  fn_name : option string;
  fn_arguments : option string
}.

Record ToolCallDelta : Type := mkToolCallDelta {
  tc_index : Z;
  tc_id : option string;
  tc_function : option ToolCallFunction
}.

Record Delta : Type := mkDelta {
  delta_content : option string;
  delta_tool_calls : option (list ToolCallDelta);
  delta_reasoning_content : option Js.value;
  delta_reasoning : option Js.value
}.

Record Choice : Type := mkChoice {
  choice_delta : option Delta;
  finish_reason : option string
}.

Record CompletionUsage : Type := mkCompletionUsage {
  prompt_tokens : Z;
  completion_tokens : Z
}.

Record ChatChunk : Type := mkChatChunk {
  choices : list Choice;
  chunk_usage : option CompletionUsage
}.

(** [activeToolCallIds]: a [Set<string>], iterated in insertion order. *)
Definition setAdd (id : string) (active : list string) : list string :=
  if existsb (String.eqb id) active then active else active ++ [id].

Definition toolCallPartial (toolCall : ToolCallDelta) : ApiStreamChunk :=
  tool_call_partial
    (Js.number (tc_index toolCall))
    (Js.ofOption (tc_id toolCall))
    (match tc_function toolCall with
     | Some f => Js.ofOption (fn_name f)
     | None => Js.undefined
     end)
    (match tc_function toolCall with
     | Some f => Js.ofOption (fn_arguments f)
     | None => Js.undefined
     end).

(** [for (const toolCall of delta.tool_calls)]. *)
Fixpoint toolCallsLoop (active : list string) (toolCalls : list ToolCallDelta)
  : list ApiStreamChunk * list string :=
  match toolCalls with
  | [] => ([], active)
  | toolCall :: rest =>
      let active1 :=
        if Js.truthy (Js.ofOption (tc_id toolCall))
        then match tc_id toolCall with
             | Some id => setAdd id active
             | None => active
             end
        else active in
      let (out, active2) := toolCallsLoop active1 rest in
      (toolCallPartial toolCall :: out, active2)
  end.

Definition reasoningText (delta : option Delta) : Js.value :=
  match delta with
  | None => Js.undefined
  | Some d =>
      match delta_reasoning_content d with
      | Some (Js.str s) => Js.str s
      | _ =>
          match delta_reasoning d with
          | Some (Js.str s) => Js.str s
          | _ => Js.undefined
          end
      end
  end.

Definition endAll (active : list string) : list ApiStreamChunk :=
  map (fun id => tool_call_end (Js.str id)) active.

Definition chunkDelta (chunk : ChatChunk) : option Delta :=
  match hd_error (choices chunk) with
  | Some choice => choice_delta choice
  | None => None
  end.

Definition chunkFinishReason (chunk : ChatChunk) : option string :=
  match hd_error (choices chunk) with
  | Some choice => finish_reason choice
  | None => None
  end.

Definition isToolCallsFinish (finishReason : option string) : bool :=
  match finishReason with
  | Some r => r =? "tool_calls"
  | None => false
  end.

Definition nonEmpty {A : Type} (l : list A) : bool :=
  match l with
  | [] => false
  | _ :: _ => true
  end.

(** The loop body after [verifyFinishReason]: the chunks yielded for one
    raw chunk, in order, and [activeToolCallIds] afterwards. *)
Definition chatChunk (active : list string) (chunk : ChatChunk)
  : list ApiStreamChunk * list string :=
  let delta := chunkDelta chunk in
  let finishReason := chunkFinishReason chunk in
  let textOut :=
    match delta with
    | Some d =>
        if Js.truthy (Js.ofOption (delta_content d))
        then [text_chunk (Js.ofOption (delta_content d))]
        else []
    | None => []
    end in
  let '(toolOut, active1) :=
    match delta with
    | Some d =>
        match delta_tool_calls d with
        | Some toolCalls => toolCallsLoop active toolCalls
        | None => ([], active)
        end
    | None => ([], active)
    end in
  let reasoningOut :=
    if Js.truthy (reasoningText delta)
    then [reasoning_chunk (reasoningText delta)]
    else [] in
  let flush := isToolCallsFinish finishReason && nonEmpty active1 in
  let endOut := if flush then endAll active1 else [] in
  let active2 := if flush then [] else active1 in
  let usageOut :=
    match chunk_usage chunk with
    | Some u =>
        [usage_chunk (Js.number (prompt_tokens u) <|> Js.number 0)
                     (Js.number (completion_tokens u) <|> Js.number 0)]
    | None => []
    end in
  (textOut ++ toolOut ++ reasoningOut ++ endOut ++ usageOut, active2).

(** What a call throws. *)
Inductive Failure : Type :=
| error (message : string)
| finishReasonFailure
| providerFailure (providerName : string)
| typeError.

Inductive Outcome : Type :=
| Completed
| Threw (failure : Failure).

Section ChatLoop.

(** [./kilocode/verifyFinishReason]: [false] when it throws on the
    choice. *)
Variable verifyFinishReason : option Choice -> bool.

(** [for await (const chunk of stream)] and the flush that follows it. *)
Fixpoint chatLoop (active : list string) (stream : list ChatChunk)
  : list ApiStreamChunk * Outcome :=
  match stream with
  | [] => (if nonEmpty active then endAll active else [], Completed)
  | chunk :: rest =>
      if verifyFinishReason (hd_error (choices chunk))
      then
        let (out, active1) := chatChunk active chunk in
        let (outs, result) := chatLoop active1 rest in
        (out ++ outs, result)
      else ([], Threw finishReasonFailure)
  end.

End ChatLoop.

(* ================================================================== *)
(** ** The conversation and [formatFullConversation] *)

Inductive ImageSource : Type :=
| base64Source (media_type data : string)
| urlSource (url : string).

Inductive ResultBlock : Type :=
| resultText (text : string)
| resultOther.

Inductive ToolResultContent : Type :=
| resultString (content : string)
| resultBlocks (content : list ResultBlock)
| resultAbsent.

Inductive Block : Type :=
| textBlock (text : string)
| imageBlock (source : ImageSource)
| toolResultBlock (tool_use_id : string) (content : ToolResultContent)
| toolUseBlock (id name : string) (input : Js.value)
| otherBlock.

Inductive MessageContent : Type :=
| stringContent (content : string)
| blockContent (content : list Block)
| otherContent.

(** A message whose [type] is ["reasoning"] is taken before its role is
    looked at; [otherMessage] has neither that type nor one of the two
    roles. *)
Inductive Message : Type :=
| reasoningMessage (m : Js.value)
| userMessage (content : MessageContent)
| assistantMessage (content : MessageContent)
| otherMessage.

Inductive Role : Type := user | assistant.

Inductive ContentPart : Type :=
| input_text (text : string)
| input_image (image_url : string)
| output_text (text : string).

Inductive InputItem : Type :=
| reasoning_item (m : Js.value)
| role_item (role : Role) (content : list ContentPart)
| function_call_output (call_id output : string)
| function_call (call_id name arguments : string).

Definition imageUrl (source : ImageSource) : string :=
  match source with
  | base64Source media_type data =>
      ("data:" ++ media_type ++ ";base64," ++ data)%string
  | urlSource url => url
  end.

(** [c.type === "text" ? c.text : ""], joined. *)
Fixpoint joinResult (blocks : list ResultBlock) : string :=
  match blocks with
  | [] => ""
  | resultText t :: rest => (t ++ joinResult rest)%string
  | resultOther :: rest => joinResult rest
  end.

Definition resultOutput (content : ToolResultContent) : string :=
  match content with
  | resultString s => s
  | resultBlocks blocks => if joinResult blocks =? "" then "" else joinResult blocks
  | resultAbsent => ""
  end.

Section Formatter.

(** [../../utils/tool-id] and [JSON.stringify]. *)
Variable sanitizeOpenAiCallId : string -> string.
Variable JSON_stringify : Js.value -> string.

(** The block loop of a user message, with its two accumulators. *)
Fixpoint userBlocks (blocks : list Block)
    (content : list ContentPart) (toolResults : list InputItem)
  : list ContentPart * list InputItem :=
  match blocks with
  | [] => (content, toolResults)
  | textBlock t :: rest =>
      userBlocks rest (content ++ [input_text t]) toolResults
  | imageBlock source :: rest =>
      userBlocks rest (content ++ [input_image (imageUrl source)]) toolResults
  | toolResultBlock tool_use_id c :: rest =>
      userBlocks rest content
        (toolResults
           ++ [function_call_output (sanitizeOpenAiCallId tool_use_id) (resultOutput c)])
  | _ :: rest => userBlocks rest content toolResults
  end.

(** The block loop of an assistant message. *)
Fixpoint assistantBlocks (blocks : list Block)
    (content : list ContentPart) (toolCalls : list InputItem)
  : list ContentPart * list InputItem :=
  match blocks with
  | [] => (content, toolCalls)
  | textBlock t :: rest =>
      assistantBlocks rest (content ++ [output_text t]) toolCalls
  | toolUseBlock id name input :: rest =>
      assistantBlocks rest content
        (toolCalls
           ++ [function_call (sanitizeOpenAiCallId id) name (JSON_stringify input)])
  | _ :: rest => assistantBlocks rest content toolCalls
  end.

(** The two pushes that end a message's branch. *)
Definition pushMessage (role : Role) (content : list ContentPart)
    (tools : list InputItem) : list InputItem :=
  (if nonEmpty content then [role_item role content] else [])
    ++ (if nonEmpty tools then tools else []).

(** What one message appends to [input]. *)
Definition formatMessage (m : Message) : list InputItem :=
  match m with
  | reasoningMessage r => [reasoning_item r]
  | userMessage c =>
      let '(content, toolResults) :=
        match c with
        | stringContent s => ([input_text s], [])
        | blockContent blocks => userBlocks blocks [] []
        | otherContent => ([], [])
        end in
      pushMessage user content toolResults
  | assistantMessage c =>
      let '(content, toolCalls) :=
        match c with
        | stringContent s => ([output_text s], [])
        | blockContent blocks => assistantBlocks blocks [] []
        | otherContent => ([], [])
        end in
      pushMessage assistant content toolCalls
  | otherMessage => []
  end.

(** [formatFullConversation] (its [systemPrompt] argument is not read). *)
Fixpoint formatFullConversation (messages : list Message) : list InputItem :=
  match messages with
  | [] => []
  | m :: rest => formatMessage m ++ formatFullConversation rest
  end.

End Formatter.

(* ================================================================== *)
(** ** Model information, call metadata and requests *)

(** The fields of [getModel().info] the handler branches on. *)
Record ModelInfo : Type := mkModelInfo {
  apiType : option string;
  supportedApiTypes : option (list string);
  supportsNativeTools : option bool;
  maxTokens : option Z
}.

Inductive ToolChoice : Type :=
| choiceNone
| choiceAuto
| choiceRequired
| choiceFunction (name : string).

(** [ApiHandlerCreateMessageMetadata]; a tool definition is an opaque
    value here. *)
Record Metadata : Type := mkMetadata {
  tools : option (list Js.value);
  tool_choice : option ToolChoice;
  toolProtocol : option string;
  parallelToolCalls : option bool
}.

Record Options : Type := mkOptions {
  apiModelId : option string
}.

Definition prefersResponses (modelInfo : ModelInfo) : bool :=
  match apiType modelInfo with
  | Some t => t =? "responses"
  | None => false
  end
  || match supportedApiTypes modelInfo with
     | Some types => existsb (String.eqb "RESPONSES") types
     | None => false
     end.

Definition requestedToolChoice (metadata : option Metadata) : option ToolChoice :=
  match metadata with
  | Some m => tool_choice m
  | None => None
  end.

Definition isChoiceNone (c : option ToolChoice) : bool :=
  match c with
  | Some choiceNone => true
  | _ => false
  end.

Definition isChoiceAuto (c : option ToolChoice) : bool :=
  match c with
  | Some choiceAuto => true
  | _ => false
  end.

Definition isSome {A : Type} (o : option A) : bool :=
  match o with
  | Some _ => true
  | None => false
  end.

Definition useNativeTools (modelInfo : ModelInfo) (metadata : option Metadata) : bool :=
  match supportsNativeTools modelInfo with
  | Some b => b
  | None => false
  end
  && match metadata with
     | Some m =>
         match tools m with
         | Some ts => nonEmpty ts
         | None => false
         end
         && negb match toolProtocol m with
                 | Some p => p =? "xml"
                 | None => false
                 end
     | None => false
     end
  && negb (isChoiceNone (requestedToolChoice metadata)).

Definition finalToolChoice (modelInfo : ModelInfo) (metadata : option Metadata)
  : option ToolChoice :=
  if useNativeTools modelInfo metadata
     && (negb (isSome (requestedToolChoice metadata))
         || isChoiceAuto (requestedToolChoice metadata))
  then Some choiceRequired
  else requestedToolChoice metadata.

(** The [messages] of a chat request: the system prompt with the
    conversation (whose conversion, [convertToOpenAiMessages], is not part
    of the handler), or the single user message of [completePrompt]. *)
Inductive ChatMessages : Type :=
| conversation (systemPrompt : string) (messages : list Message)
| singleUser (prompt : string).

(** The chat request, but for its temperature. *)
Record ChatRequest : Type := mkChatRequest {
  chat_model : string;
  chat_messages : ChatMessages;
  chat_max_tokens : option Z;
  chat_stream : bool;
  chat_tools : option (list Js.value);
  chat_tool_choice : option ToolChoice;
  chat_parallel_tool_calls : option bool
}.

(** The Responses request body, but for its reasoning, temperature,
    token-limit and tools entries. *)
Record ResponsesRequestBody : Type := mkResponsesRequestBody {
  body_model : string;
  body_input : list InputItem;
  body_stream : bool;
  body_store : bool;
  body_instructions : option string;
  body_tool_choice : option ToolChoice;
  body_parallel_tool_calls : option bool
}.

Definition orFalse (b : option bool) : bool :=
  match b with
  | Some x => x
  | None => false
  end.

Definition truthyZ (n : option Z) : bool :=
  match n with
  | Some z => negb (z =? 0)%Z
  | None => false
  end.

Definition modelIdOf (options : Options) : string :=
  match apiModelId options with
  | Some id => if id =? "" then "auto" else id
  | None => "auto"
  end.

(* ================================================================== *)
(** ** Credentials and the provider *)

Record Token : Type := mkToken {
  access_token : option string
}.

Record Client : Type := mkClient {
  apiKey : string
}.

Definition signInMessage : string :=
  "Please sign in with Oracle SSO at Settings > Providers > Oracle Code Assist.".

(** [getClientWithBase], given what [OcaTokenManager.getValid()] resolved
    to. *)
Definition getClientWithBase (token : option Token) : Client + Failure :=
  match token with
  | Some t =>
      match access_token t with
      | Some key => if key =? "" then inr (error signInMessage) else inl (mkClient key)
      | None => inr (error signInMessage)
      end
  | None => inr (error signInMessage)
  end.

(** A request sent to the provider, with the key of the client that sent
    it. *)
Inductive NetworkCall : Type :=
| chatCompletionsCreate (client : Client) (request : ChatRequest)
| responsesCreate (client : Client) (body : ResponsesRequestBody).

Definition keyOf (call : NetworkCall) : string :=
  match call with
  | chatCompletionsCreate client _ | responsesCreate client _ => apiKey client
  end.

(** The non-streaming answers read by [completePrompt]. *)
Record CompletionChoice : Type := mkCompletionChoice {
  message_content : option string
}.

Record ChatCompletion : Type := mkChatCompletion {
  completion_choices : list CompletionChoice
}.

Record OutputContent : Type := mkOutputContent {
  oc_type : string;
  oc_text : option string
}.

Record OutputItem : Type := mkOutputItem {
  oi_type : string;
  oi_content : option (list OutputContent)
}.

Record Response : Type := mkResponse {
  response_output : option (list OutputItem);
  response_text : option string
}.

(** Everything outside the handler that a call depends on.  A provider
    answer of [None] is a rejected request (the SDK call throws); a stream
    is the finite sequence of chunks or events it delivers before it
    ends. *)
Record World : Type := mkWorld {
  getValid : option Token;
  options : Options;
  modelInfo : ModelInfo;
  verifyFinishReason : option Choice -> bool;
  convertToolsForOpenAI : list Js.value -> list Js.value;
  sanitizeOpenAiCallId : string -> string;
  JSON_stringify : Js.value -> string;
  chatStream : ChatRequest -> option (list ChatChunk);
  responsesStream : ResponsesRequestBody -> option (list Js.value);
  chatCompletion : ChatRequest -> option ChatCompletion;
  responsesResponse : ResponsesRequestBody -> option Response
}.

(* ================================================================== *)
(** ** [createMessage] *)

Definition isNullish (v : Js.value) : bool :=
  match v with
  | Js.undefined | Js.null => true
  | _ => false
  end.

(** [tool.type === "function"], the test of [filter]. *)
Definition isFunctionTool (tool : Js.value) : bool :=
  Js.eqStr "function" (Js.get "type" tool).

(** The tool makes a read of [buildResponsesRequestBody] throw: [tool.type]
    in [filter] when the tool is nullish, [tool.function.name] in [map]
    when the [function] of a function tool is. *)
Definition unreadable (tool : Js.value) : bool :=
  isNullish tool || (isFunctionTool tool && isNullish (Js.get "function" tool)).

(** [buildResponsesRequestBody] can read every tool of the metadata, so
    that it returns a body. *)
Definition toolsReadable (metadata : option Metadata) : bool :=
  match metadata with
  | Some m =>
      match tools m with
      | Some ts => negb (existsb unreadable ts)
      | None => true
      end
  | None => true
  end.

Definition buildResponsesRequestBody (w : World) (formattedInput : list InputItem)
    (systemPrompt : string) (metadata : option Metadata) : ResponsesRequestBody :=
  mkResponsesRequestBody
    (modelIdOf (options w))
    formattedInput
    true
    false
    (Some systemPrompt)
    (requestedToolChoice metadata)
    (match metadata with
     | Some m =>
         match toolProtocol m with
         | Some p => if p =? "native" then Some (orFalse (parallelToolCalls m)) else None
         | None => None
         end
     | None => None
     end).

Definition chatRequest (w : World) (systemPrompt : string) (messages : list Message)
    (metadata : option Metadata) : ChatRequest :=
  let native := useNativeTools (modelInfo w) metadata in
  mkChatRequest
    (modelIdOf (options w))
    (conversation systemPrompt messages)
    (if truthyZ (maxTokens (modelInfo w)) then maxTokens (modelInfo w) else None)
    true
    (if native
     then match metadata with
          | Some m =>
              match tools m with
              | Some ts => Some (convertToolsForOpenAI w ts)
              | None => None
              end
          | None => None
          end
     else None)
    (finalToolChoice (modelInfo w) metadata)
    (if native
     then Some match metadata with
               | Some m => orFalse (parallelToolCalls m)
               | None => false
               end
     else None).

(** A run of the generator to its end: the requests it sent, the chunks
    it yielded, how it ended and the handler state it left. *)
Record Run : Type := mkRun {
  calls : list NetworkCall;
  events : list ApiStreamChunk;
  outcome : Outcome;
  handlerAfter : Handler
}.

(** [createMessage].  On the Responses branch the body is built before
    the [try]: a tool the builder cannot read ends the call with a
    [TypeError], after the reset of the handler and before any request. *)
Definition createMessage (w : World) (h : Handler) (systemPrompt : string)
    (messages : list Message) (metadata : option Metadata) : Run :=
  match getClientWithBase (getValid w) with
  | inr failure => mkRun [] [] (Threw failure) h
  | inl client =>
      if prefersResponses (modelInfo w)
      then
        let h1 := resetHandler h in
        let formattedInput :=
          formatFullConversation (sanitizeOpenAiCallId w) (JSON_stringify w) messages in
        if toolsReadable metadata
        then
          let requestBody :=
            buildResponsesRequestBody w formattedInput systemPrompt metadata in
          match responsesStream w requestBody with
          | None =>
              mkRun [responsesCreate client requestBody] []
                    (Threw (providerFailure "Oracle Code Assist (Responses API)")) h1
          | Some stream =>
              let (out, h2) := responsesLoop h1 stream in
              mkRun [responsesCreate client requestBody] out Completed h2
          end
        else mkRun [] [] (Threw typeError) h1
      else
        let request := chatRequest w systemPrompt messages metadata in
        match chatStream w request with
        | None =>
            mkRun [chatCompletionsCreate client request] []
                  (Threw (providerFailure "Oracle Code Assist")) h
        | Some stream =>
            let (out, result) := chatLoop (verifyFinishReason w) [] stream in
            mkRun [chatCompletionsCreate client request] out result h
        end
  end.

(* ================================================================== *)
(** ** [completePrompt] *)

Definition truthyS (s : option string) : bool := Js.truthy (Js.ofOption s).

(** The inner loop over the contents of a message item: the text it
    returns, if it returns. *)
Fixpoint firstOutputText (contents : list OutputContent) : option string :=
  match contents with
  | [] => None
  | content :: rest =>
      if (oc_type content =? "output_text") && truthyS (oc_text content)
      then oc_text content
      else firstOutputText rest
  end.

(** The outer loop over [response.output]. *)
Fixpoint scanOutput (output : list OutputItem) : option string :=
  match output with
  | [] => None
  | outputItem :: rest =>
      match oi_content outputItem with
      | Some contents =>
          if oi_type outputItem =? "message"
          then match firstOutputText contents with
               | Some t => Some t
               | None => scanOutput rest
               end
          else scanOutput rest
      | None => scanOutput rest
      end
  end.

Definition responseFallback (response : Response) : string :=
  match response_text response with
  | Some t => t
  | None => ""
  end.

Definition extractResponseText (response : Response) : string :=
  match response_output response with
  | Some output =>
      match scanOutput output with
      | Some t => t
      | None => responseFallback response
      end
  | None => responseFallback response
  end.

Definition extractChatText (resp : ChatCompletion) : string :=
  match hd_error (completion_choices resp) with
  | Some choice =>
      match message_content choice with
      | Some t => t
      | None => ""
      end
  | None => ""
  end.

(** The protocol test of [completePrompt]. *)
Definition completesWithChat (info : ModelInfo) : bool :=
  match apiType info with
  | Some t => t =? "CHAT_COMPLETIONS"
  | None => false
  end.

Definition completionChatRequest (w : World) (prompt : string) : ChatRequest :=
  mkChatRequest (modelIdOf (options w)) (singleUser prompt) None false None None None.

Definition completionResponsesBody (w : World) (prompt : string) : ResponsesRequestBody :=
  mkResponsesRequestBody (modelIdOf (options w)) [role_item user [input_text prompt]]
                         false false None None None.

Record Completion : Type := mkCompletion {
  completion_calls : list NetworkCall;
  completion_result : string + Failure
}.

Definition completePrompt (w : World) (prompt : string) : Completion :=
  match getClientWithBase (getValid w) with
  | inr failure => mkCompletion [] (inr failure)
  | inl client =>
      if completesWithChat (modelInfo w)
      then
        let request := completionChatRequest w prompt in
        mkCompletion [chatCompletionsCreate client request]
          match chatCompletion w request with
          | Some resp => inl (extractChatText resp)
          | None => inr (providerFailure "Oracle Code Assist")
          end
      else
        let requestBody := completionResponsesBody w prompt in
        mkCompletion [responsesCreate client requestBody]
          match responsesResponse w requestBody with
          | Some response => inl (extractResponseText response)
          | None => inr (providerFailure "Oracle Code Assist")
          end
  end.

(* ================================================================== *)
(** ** Two calls sharing one handler

    Each [await] and each [yield] of the generator is a point where another
    call on the same instance may run.  A schedule lists, for two calls,
    the order in which each one enters the Responses branch ([enter]) and
    is handed the next event of its own stream ([deliver]); between two
    such points the code of one call runs alone. *)

Inductive Caller : Type := first | second.

Inductive Step : Type :=
| enter
| deliver (event : Js.value).

Fixpoint interleave (h : Handler) (schedule : list (Caller * Step))
  : list ApiStreamChunk * list ApiStreamChunk * Handler :=
  match schedule with
  | [] => ([], [], h)
  | (who, enter) :: rest => interleave (resetHandler h) rest
  | (who, deliver event) :: rest =>
      let (out, h1) := processResponsesEvent h event in
      let '(outFirst, outSecond, h2) := interleave h1 rest in
      match who with
      | first => (out ++ outFirst, outSecond, h2)
      | second => (outFirst, out ++ outSecond, h2)
      end
  end.

(* ================================================================== *)
(** ** The previous revision of the interpreter

    The file also holds the revision of the handler that preceded the one
    above.  Its Responses interpreter keeps the identities in a table on
    the handler, [toolCallIdentityById], that no call clears, and ends a
    call when the stream signals that its arguments are done. *)

Module Previous.

(** Keys of a [Map] are compared by value for primitives; two objects of
    different events are never the same key. *)
Definition sameKey (a b : Js.value) : bool :=
  match a, b with
  | Js.str x, Js.str y => x =? y
  | Js.number x, Js.number y => (x =? y)%Z
  | Js.boolean x, Js.boolean y => Bool.eqb x y
  | _, _ => false
  end.

Record Identity : Type := mkIdentity {
  identity_id : Js.value;
  identity_name : Js.value
}.

(** The table, latest entry first. *)
Definition Table : Type := list (Js.value * Identity).

Fixpoint tableGet (key : Js.value) (table : Table) : option Identity :=
  match table with
  | [] => None
  | (k, identity) :: rest => if sameKey k key then Some identity else tableGet key rest
  end.

Definition tableSet (key : Js.value) (identity : Identity) (table : Table) : Table :=
  (key, identity) :: table.

Definition isText (event : Js.value) : bool :=
  Js.eqStr "response.text.delta" (Js.get "type" event)
  || Js.eqStr "response.output_text.delta" (Js.get "type" event)
  || Js.eqStr "response.output_text" (Js.get "type" event)
  || Js.eqStr "response.text" (Js.get "type" event).

Definition processResponsesEvent (table : Table) (event : Js.value)
  : list ApiStreamChunk * Table :=
  if isText event then
    let text := Js.get "delta" event <|> Js.get "text" event
                  <|> Js.get "text" (Js.at0 (Js.get "content" event)) in
    (if Js.truthy text then [text_chunk text] else [], table)
  else if isReasoningDelta event then
    let text := Js.get "delta" event <|> Js.get "text" event in
    (if Js.truthy text then [reasoning_chunk text] else [], table)
  else if isOutputItem event then
    let item := Js.get "item" event in
    if Js.eqStr "function_call" (Js.get "type" item)
    then
      let named := Js.truthy (Js.get "call_id" item) && Js.truthy (Js.get "name" item) in
      let table1 :=
        if named
        then tableSet (Js.get "call_id" item)
                      (mkIdentity (Js.get "call_id" item) (Js.get "name" item)) table
        else table in
      if Js.eqStr "response.output_item.done" (Js.get "type" event)
      then
        let args := if Js.isString (Js.get "arguments" item)
                    then Js.get "arguments" item
                    else Js.undefined in
        (if named && Js.truthy args
         then [tool_call (Js.get "call_id" item) (Js.get "name" item) args]
         else [], table1)
      else ([], table1)
    else ([], table)
  else if isToolCallArgumentsDelta event then
    let callId := Js.get "call_id" event in
    let cachedIdentity := if Js.truthy callId then tableGet callId table else None in
    let resolvedId :=
      Js.get "call_id" event
        <|> match cachedIdentity with
            | Some identity => identity_id identity
            | None => Js.undefined
            end in
    let resolvedName :=
      Js.get "name" event
        <|> match cachedIdentity with
            | Some identity => identity_name identity
            | None => Js.undefined
            end in
    (if negb (Js.truthy resolvedId) || negb (Js.truthy resolvedName)
     then []
     else [tool_call_partial (Js.number 0) resolvedId resolvedName (Js.get "delta" event)],
     table)
  else if isToolCallArgumentsDone event then
    (if Js.truthy (Js.get "call_id" event)
     then [tool_call_end (Js.get "call_id" event)]
     else [], table)
  else if isResponseDone event then
    let usage := Js.get "usage" (Js.get "response" event) in
    (if Js.truthy usage then [usageChunk usage] else [], table)
  else ([], table).

(** The Responses loop of [createMessage]; the table it starts from is the
    one the handler holds. *)
Fixpoint responsesLoop (table : Table) (events : list Js.value)
  : list ApiStreamChunk * Table :=
  match events with
  | [] => ([], table)
  | event :: rest =>
      let (out, table1) := processResponsesEvent table event in
      let (outs, table2) := responsesLoop table1 rest in
      (out ++ outs, table2)
  end.

End Previous.

(* ================================================================== *)
(** ** The model, the reasoning settings and the full Responses body *)

(** The options the handler reads besides [apiModelId]. *)
Record Settings : Type := mkSettings {
  modelMaxTokens : option Z;
  option_reasoningEffort : option string;
  enableResponsesReasoningSummary : option bool;
  includeMaxTokens : option bool
}.

(** The constructor's default: the summary is on unless it was set. *)
Definition constructed (settings : Settings) : Settings :=
  mkSettings (modelMaxTokens settings) (option_reasoningEffort settings)
             (match enableResponsesReasoningSummary settings with
              | None => Some true
              | Some b => Some b
              end)
             (includeMaxTokens settings).

(** A [ModelInfo] as the cache holds it and as [getModel] returns it, but
    for its prices.  The last three keys are keys [getModel] does not set:
    they come from [NATIVE_TOOL_DEFAULTS]. *)
Record CachedInfo : Type := mkCachedInfo {
  info_maxTokens : option Z;
  info_contextWindow : option Z;
  info_supportsImages : option bool;
  info_supportsPromptCache : option bool;
  info_description : option string;
  info_banner : option string;
  info_supportedApiTypes : option (list string);
  info_apiType : option string;
  info_supportsReasoningEffort : Js.value;
  info_reasoningEffort : option string;
  info_supportsNativeTools : option bool;
  info_supportsTemperature : option bool;
  info_promptCacheRetention : option string
}.

(** [a ?? b] on optional values. *)
Definition orElse {A : Type} (a b : option A) : option A :=
  match a with
  | Some x => Some x
  | None => b
  end.

Fixpoint cacheLookup (id : string) (models : list (string * CachedInfo))
  : option CachedInfo :=
  match models with
  | [] => None
  | (k, info) :: rest => if k =? id then Some info else cacheLookup id rest
  end.

(** [getModel], given what [getModelsFromCache("oca")] returns and the
    constant [NATIVE_TOOL_DEFAULTS]. *)
Definition getModel (options : Options) (settings : Settings)
    (cached : option (list (string * CachedInfo))) (NATIVE_TOOL_DEFAULTS : CachedInfo)
  : string * CachedInfo :=
  let id := modelIdOf options in
  let selected :=
    if negb (id =? "auto")
    then match cached with
         | Some models => cacheLookup id models
         | None => None
         end
    else None in
  let from {A : Type} (field : CachedInfo -> option A) : option A :=
    match selected with
    | Some info => field info
    | None => None
    end in
  (id,
   mkCachedInfo
     (orElse (modelMaxTokens settings) (orElse (from info_maxTokens) (Some 4096%Z)))
     (orElse (from info_contextWindow) (Some 128000%Z))
     (orElse (from info_supportsImages) (Some true))
     (orElse (from info_supportsPromptCache) (Some false))
     (from info_description)
     (from info_banner)
     (from info_supportedApiTypes)
     (from info_apiType)
     (match selected with
      | Some info => info_supportsReasoningEffort info
      | None => Js.undefined
      end)
     (from info_reasoningEffort)
     (info_supportsNativeTools NATIVE_TOOL_DEFAULTS)
     (info_supportsTemperature NATIVE_TOOL_DEFAULTS)
     (info_promptCacheRetention NATIVE_TOOL_DEFAULTS)).

(** What the branches of [createMessage] and [completePrompt] read of it. *)
Definition branchInfo (info : CachedInfo) : ModelInfo :=
  mkModelInfo (info_apiType info) (info_supportedApiTypes info)
              (info_supportsNativeTools info) (info_maxTokens info).

Definition getReasoningEffort (settings : Settings) (info : CachedInfo) : option string :=
  match orElse (option_reasoningEffort settings) (info_reasoningEffort info) with
  | Some selected =>
      if negb (selected =? "") && negb (selected =? "disable")
      then Some selected
      else None
  | None => None
  end.

Definition getPromptCacheRetention (info : CachedInfo) : option string :=
  if negb (orFalse (info_supportsPromptCache info)) then None
  else match info_promptCacheRetention info with
       | Some r => if r =? "24h" then Some "24h" else None
       | None => None
       end.

Record Reasoning : Type := mkReasoning {
  effort : option string;
  summary : option string
}.

Record ResponsesTool : Type := mkResponsesTool {
  tool_name : Js.value;
  tool_description : Js.value;
  tool_parameters : Js.value;
  tool_strict : bool
}.

(** The entries of the Responses body left out of [ResponsesRequestBody],
    but for the temperature. *)
Record ResponsesRequestRest : Type := mkResponsesRequestRest {
  body_include : option (list string);
  body_reasoning : option Reasoning;
  body_max_output_tokens : option Z;
  body_prompt_cache_retention : option string;
  body_tools : option (list ResponsesTool)
}.

Section ResponsesTools.

(** [../../utils/mcp-name], [./kilocode/openai-strict-schema] and the base
    provider's schema conversion. *)
Variable isMcpTool : Js.value -> bool.
Variable normalizeObjectAdditionalPropertiesFalse : Js.value -> Js.value.
Variable convertToolSchemaForOpenAI : Js.value -> Js.value.

(** The callback of [map]. *)
Definition responsesTool (tool : Js.value) : ResponsesTool :=
  let name := Js.get "name" (Js.get "function" tool) in
  let isMcp := isMcpTool name in
  mkResponsesTool
    name
    (Js.get "description" (Js.get "function" tool))
    (if isMcp
     then normalizeObjectAdditionalPropertiesFalse (Js.get "parameters" (Js.get "function" tool))
     else convertToolSchemaForOpenAI (Js.get "parameters" (Js.get "function" tool)))
    (negb isMcp).

(** [metadata.tools.filter(...).map(...)]; [None] when a read fails: a tool
    that is nullish, or a function tool whose [function] is. *)
Fixpoint responsesTools (tools : list Js.value) : option (list ResponsesTool) :=
  match tools with
  | [] => Some []
  | tool :: rest =>
      if isNullish tool then None
      else
        match responsesTools rest with
        | None => None
        | Some converted =>
            if Js.eqStr "function" (Js.get "type" tool)
            then if isNullish (Js.get "function" tool) then None
                 else Some (responsesTool tool :: converted)
            else Some converted
        end
  end.

(** The entries [buildResponsesRequestBody] adds to the ones of
    [ResponsesRequestBody]. *)
Definition buildResponsesRequestRest (settings : Settings) (info : CachedInfo)
    (reasoningEffort : option string) (metadata : option Metadata)
  : option ResponsesRequestRest :=
  let converted :=
    match metadata with
    | Some m =>
        match tools m with
        | Some ts =>
            match responsesTools ts with
            | Some l => Some (Some l)
            | None => None
            end
        | None => Some None
        end
    | None => Some None
    end in
  match converted with
  | None => None
  | Some bodyTools =>
      Some (mkResponsesRequestRest
              (if truthyS reasoningEffort then Some ["reasoning.encrypted_content"] else None)
              (if truthyS reasoningEffort
               then Some (mkReasoning
                            reasoningEffort
                            (if orFalse (enableResponsesReasoningSummary settings)
                             then Some "auto" else None))
               else None)
              (if truthyZ (info_maxTokens info) && orFalse (includeMaxTokens settings)
               then info_maxTokens info else None)
              None
              bodyTools)
  end.

End ResponsesTools.

(** The same entries of the body [completePrompt] builds. *)
Definition completionRequestRest (settings : Settings) (info : CachedInfo)
  : ResponsesRequestRest :=
  let reasoningEffort := getReasoningEffort settings info in
  mkResponsesRequestRest
    (if truthyS reasoningEffort then Some ["reasoning.encrypted_content"] else None)
    (if truthyS reasoningEffort
     then Some (mkReasoning
                  reasoningEffort
                  (if orFalse (enableResponsesReasoningSummary settings)
                   then Some "auto" else None))
     else None)
    (if truthyZ (info_maxTokens info) then info_maxTokens info else None)
    (getPromptCacheRetention info)
    None.

(* ================================================================== *)
(** ** [decorateErrorWithOpcRequestId] *)

(** A caught error, as far as the decorator reads it: its [headers.get],
    when that is a function. *)
Record CaughtError : Type := mkCaughtError {
  headers_get : option (string -> Js.value)
}.

Fixpoint hasKey (k : string) (fields : list (string * Js.value)) : bool :=
  match fields with
  | [] => false
  | (k', _) :: rest => (k' =? k) || hasKey k rest
  end.

(** [object.k = v] on an object that has the key. *)
Fixpoint assign (k : string) (v : Js.value) (fields : list (string * Js.value))
  : list (string * Js.value) :=
  match fields with
  | [] => [(k, v)]
  | (k', v') :: rest =>
      if k' =? k then (k, v) :: rest else (k', v') :: assign k v rest
  end.

Definition opcRequestIdOf (error : CaughtError) : Js.value :=
  match headers_get error with
  | Some get => get "opc-request-id"
  | None => Js.null
  end.

Definition decorateErrorWithOpcRequestId (error : CaughtError) (processedError : Js.value)
  : Js.value :=
  match processedError with
  | Js.object fields =>
      if Js.truthy (opcRequestIdOf error) && hasKey "message" fields
      then Js.object
             (assign "message"
                (Js.str (Js.toString (Js.lookup "message" fields)
                           ++ " opc-request-id: "
                           ++ Js.toString (opcRequestIdOf error))%string)
                fields)
      else processedError
  | _ => processedError
  end.

(* ================================================================== *)
(** ** Vocabulary of the statements *)

(** *** Chunks and their content *)

Definition isText (c : ApiStreamChunk) : bool :=
  match c with
  | text_chunk _ => true
  | _ => false
  end.








(** [delta?.content] of a chat chunk. *)
Definition chunkContent (chunk : ChatChunk) : option string :=
  match chunkDelta chunk with
  | Some d => delta_content d
  | None => None
  end.

(** *** Identity of an arguments delta *)

(** Both tests of the delta branch pass: a [tool_call_partial] is due. *)
Definition resolvable (h : Handler) (event : Js.value) : bool :=
  Js.isNonEmptyString (resolveName h event)
  && Js.isNonEmptyString (resolveCallId h event).

(** None of the identity properties read from a delta event is set. *)
Definition anonymous (event : Js.value) : bool :=
  negb (Js.truthy (Js.get "call_id" event))
  && negb (Js.truthy (Js.get "tool_call_id" event))
  && negb (Js.truthy (Js.get "id" event))
  && negb (Js.truthy (Js.get "name" event))
  && negb (Js.truthy (Js.get "function_name" event)).

(** *** Tool calls of the chat stream *)

Definition isPartial (c : ApiStreamChunk) : bool :=
  match c with
  | tool_call_partial _ _ _ _ => true
  | _ => false
  end.

(** [activeToolCallIds.has(id)]. *)
Definition inSet (id : string) (active : list string) : bool :=
  existsb (String.eqb id) active.

(** [activeToolCallIds] once the fragments of the chunk are through. *)
Definition activeAfter (active : list string) (chunk : ChatChunk) : list string :=
  match chunkDelta chunk with
  | Some d =>
      match delta_tool_calls d with
      | Some toolCalls => snd (toolCallsLoop active toolCalls)
      | None => active
      end
  | None => active
  end.

(** The chunk makes the loop body end every active call. *)
Definition flushes (active : list string) (chunk : ChatChunk) : bool :=
  isToolCallsFinish (chunkFinishReason chunk) && nonEmpty (activeAfter active chunk).

(** The fragment carries the id. *)
Definition carries (id : string) (toolCall : ToolCallDelta) : bool :=
  match tc_id toolCall with
  | Some i => i =? id
  | None => false
  end.

(** The chunk has a tool-call fragment that carries the id. *)
Definition mentionsChunk (id : string) (chunk : ChatChunk) : bool :=
  match chunkDelta chunk with
  | Some d =>
      match delta_tool_calls d with
      | Some toolCalls => existsb (carries id) toolCalls
      | None => false
      end
  | None => false
  end.

Definition mentions (id : string) (stream : list ChatChunk) : bool :=
  existsb (mentionsChunk id) stream.

(** Some chunk finishes with ["tool_calls"] and a later chunk carries the
    id again. *)
Fixpoint reusedAfterFinish (id : string) (stream : list ChatChunk) : bool :=
  match stream with
  | [] => false
  | chunk :: rest =>
      (isToolCallsFinish (chunkFinishReason chunk) && mentions id rest)
      || reusedAfterFinish id rest
  end.

(** Every [tool_call_partial] of the call has its [tool_call_end] later on. *)
Fixpoint endedAfter (id : string) (out : list ApiStreamChunk) : bool :=
  match out with
  | [] => true
  | c :: rest =>
      (if isPartialOf id c then existsb (isEndOf id) rest else true)
      && endedAfter id rest
  end.

(** *** Usage *)

Definition usageOf (chunk : ChatChunk) : list ApiStreamChunk :=
  match chunk_usage chunk with
  | Some u =>
      [usage_chunk (Js.number (prompt_tokens u) <|> Js.number 0)
                   (Js.number (completion_tokens u) <|> Js.number 0)]
  | None => []
  end.

Definition noUsage (out : list ApiStreamChunk) : bool :=
  forallb (fun c => negb (isUsage c)) out.

(** Once a [usage] chunk is out, only chunks that are [allowed] follow. *)
Fixpoint onlyAfterUsage (allowed : ApiStreamChunk -> bool) (out : list ApiStreamChunk)
  : bool :=
  match out with
  | [] => true
  | c :: rest => if isUsage c then forallb allowed rest else onlyAfterUsage allowed rest
  end.

(** No chunk but the last one has usage. *)
Definition usageOnLastOnly (stream : list ChatChunk) : bool :=
  forallb (fun chunk => negb (isSome (chunk_usage chunk))) (removelast stream).

(** The event is of one of the types [processResponsesEvent] tests
    for. *)
Definition isKnownEvent (event : Js.value) : bool :=
  isTextDelta event || isReasoningDelta event || isRefusalDelta event
  || isToolCallArgumentsDelta event || isToolCallArgumentsDone event
  || isOutputItem event || isResponseDone event.

(** The usage an event reports: the [response.usage] of a done event, or
    the top-level [usage] of an event of no known type that has no
    chat-style content. *)
Definition reportedUsage (event : Js.value) : Js.value :=
  if isResponseDone event then Js.get "usage" (Js.get "response" event)
  else if isKnownEvent event then Js.undefined
  else if Js.truthy (Js.get "content" (Js.get "delta" (Js.at0 (Js.get "choices" event))))
  then Js.undefined
  else Js.get "usage" event.

(** The event carries usage. *)
Definition carriesUsage (event : Js.value) : bool :=
  Js.truthy (reportedUsage event).

Definition usageOnLastEventOnly (stream : list Js.value) : bool :=
  forallb (fun event => negb (carriesUsage event)) (removelast stream).

(** *** Pieces of a conversation *)

Definition isRoleItem (item : InputItem) : bool :=
  match item with
  | role_item _ _ => true
  | _ => false
  end.

(** The pieces of a conversation in the order of the source, and the
    pieces of the input items in the order of the output: a content part
    with its role, or a top-level item. *)
Inductive Piece : Type :=
| contentPiece (role : Role) (part : ContentPart)
| itemPiece (item : InputItem).

Definition isContentPiece (p : Piece) : bool :=
  match p with
  | contentPiece _ _ => true
  | itemPiece _ => false
  end.

Definition itemPieces (item : InputItem) : list Piece :=
  match item with
  | role_item role parts => map (contentPiece role) parts
  | _ => [itemPiece item]
  end.

(** The pieces with the content pieces moved to the front, the order
    among content pieces and among items kept. *)
Definition contentFirst (ps : list Piece) : list Piece :=
  filter isContentPiece ps ++ filter (fun p => negb (isContentPiece p)) ps.

Section Pieces.

Variable sanitizeOpenAiCallId : string -> string.
Variable JSON_stringify : Js.value -> string.

(** What a block of a user message is formatted to. *)
Definition userPiece (block : Block) : list Piece :=
  match block with
  | textBlock t => [contentPiece user (input_text t)]
  | imageBlock source => [contentPiece user (input_image (imageUrl source))]
  | toolResultBlock tool_use_id c =>
      [itemPiece (function_call_output (sanitizeOpenAiCallId tool_use_id) (resultOutput c))]
  | _ => []
  end.

(** What a block of an assistant message is formatted to. *)
Definition assistantPiece (block : Block) : list Piece :=
  match block with
  | textBlock t => [contentPiece assistant (output_text t)]
  | toolUseBlock id name input =>
      [itemPiece (function_call (sanitizeOpenAiCallId id) name (JSON_stringify input))]
  | _ => []
  end.

(** The formatted blocks of a message, in the order of its blocks. *)
Definition sourcePieces (m : Message) : list Piece :=
  match m with
  | reasoningMessage r => [itemPiece (reasoning_item r)]
  | userMessage (stringContent s) => [contentPiece user (input_text s)]
  | userMessage (blockContent blocks) => flat_map userPiece blocks
  | assistantMessage (stringContent s) => [contentPiece assistant (output_text s)]
  | assistantMessage (blockContent blocks) => flat_map assistantPiece blocks
  | _ => []
  end.

End Pieces.

(** *** Credentials, protocol and texts of a completion *)

(** [token?.access_token] is set. *)
Definition signedIn (token : option Token) : bool :=
  match token with
  | Some t => truthyS (access_token t)
  | None => false
  end.

(** The protocol a call of [createMessage] resp. [completePrompt] uses,
    read off the request it sends. *)
Definition usesChat (sent : list NetworkCall) : bool :=
  match sent with
  | chatCompletionsCreate _ _ :: _ => true
  | _ => false
  end.

(** Every text of a non-streaming response that [completePrompt] would
    accept, in order. *)
Definition contentTexts (content : OutputContent) : list string :=
  if (oc_type content =? "output_text") && truthyS (oc_text content)
  then match oc_text content with
       | Some t => [t]
       | None => []
       end
  else [].

Definition itemTexts (outputItem : OutputItem) : list string :=
  match oi_content outputItem with
  | Some contents =>
      if oi_type outputItem =? "message" then flat_map contentTexts contents else []
  | None => []
  end.

Definition allOutputTexts (response : Response) : list string :=
  match response_output response with
  | Some output => flat_map itemTexts output
  | None => []
  end.

(** *** Raw events and worlds of the examples *)

Definition outputItemAdded (callId name : string) : Js.value :=
  Js.object [("type", Js.str "response.output_item.added");
             ("item", Js.object [("type", Js.str "function_call");
                                 ("call_id", Js.str callId);
                                 ("name", Js.str name)])].

Definition argumentsDelta (fields : list (string * Js.value)) : Js.value :=
  Js.object (("type", Js.str "response.tool_call_arguments.delta") :: fields).

Definition textDelta (delta : Js.value) : Js.value :=
  Js.object [("type", Js.str "response.output_text.delta"); ("delta", delta)].

(** A world whose provider answers every request with the same scripted
    streams and responses, for the examples. *)
Definition scripted (token : option Token) (info : ModelInfo)
    (chat : list ChatChunk) (responses : list Js.value)
    (completion : ChatCompletion) (response : Response) : World :=
  mkWorld token (mkOptions None) info (fun _ => true) (fun ts => ts)
          (fun id => id) (fun _ => "{}")
          (fun _ => Some chat) (fun _ => Some responses)
          (fun _ => Some completion) (fun _ => Some response).

Definition chatModel : ModelInfo := mkModelInfo None None (Some true) (Some 4096%Z).

Definition responsesModel : ModelInfo :=
  mkModelInfo (Some "responses") None (Some true) (Some 4096%Z).

Definition someToken : option Token := Some (mkToken (Some "secret")).

Definition noCompletion : ChatCompletion := mkChatCompletion [].

Definition noResponse : Response := mkResponse None None.

(** *** The rest of the handler *)

(** The loop body run over a stream: what it yields and the calls left
    active, the check of the finish reason and the final flush apart. *)
Fixpoint chatFold (active : list string) (stream : list ChatChunk)
  : list ApiStreamChunk * list string :=
  match stream with
  | [] => ([], active)
  | chunk :: rest =>
      let (out, active1) := chatChunk active chunk in
      let (outs, active2) := chatFold active1 rest in
      (out ++ outs, active2)
  end.

(** The flush after the loop. *)
Definition finalFlush (active : list string) : list ApiStreamChunk :=
  if nonEmpty active then endAll active else [].

(** The chunk passes [verifyFinishReason]. *)
Definition passes (verify : option Choice -> bool) (chunk : ChatChunk) : bool :=
  verify (hd_error (choices chunk)).

(** What a raw chunk yields besides [tool_call_end] chunks: its text, its
    fragments, its reasoning and its usage. *)
Definition chunkYields (chunk : ChatChunk) : list ApiStreamChunk :=
  (match chunkContent chunk with
   | Some s => if negb (s =? "") then [text_chunk (Js.str s)] else []
   | None => []
   end)
    ++ (match chunkDelta chunk with
        | Some d =>
            match delta_tool_calls d with
            | Some toolCalls => map toolCallPartial toolCalls
            | None => []
            end
        | None => []
        end)
    ++ (if Js.truthy (reasoningText (chunkDelta chunk))
        then [reasoning_chunk (reasoningText (chunkDelta chunk))]
        else [])
    ++ usageOf chunk.

(** Every [tool_call_end] is that of a call with a non-empty id that is
    among the [started] ones or has a fragment earlier in the output. *)
Fixpoint endsStarted (started : list string) (out : list ApiStreamChunk) : bool :=
  match out with
  | [] => true
  | tool_call_end (Js.str id) :: rest =>
      negb (id =? "") && inSet id started && endsStarted started rest
  | tool_call_end _ :: rest => false
  | tool_call_partial _ (Js.str id) _ _ :: rest => endsStarted (id :: started) rest
  | _ :: rest => endsStarted started rest
  end.

(** The tool chunks of the Responses interpreter are complete: a fragment
    names its call, a whole call has an id and its arguments as a string. *)
Definition toolChunkComplete (c : ApiStreamChunk) : bool :=
  match c with
  | tool_call_partial _ id name _ => Js.isNonEmptyString id && Js.isNonEmptyString name
  | tool_call id _ arguments => Js.truthy id && Js.isString arguments
  | _ => true
  end.

(** [event?.response?.id] and [event?.response?.output], when captured. *)
Definition responseIdOf (event : Js.value) : option Js.value :=
  if Js.truthy (Js.get "id" (Js.get "response" event))
  then Some (Js.get "id" (Js.get "response" event))
  else None.

Definition responseOutputOf (event : Js.value) : option Js.value :=
  if Js.truthy (Js.get "output" (Js.get "response" event))
     && Js.isArray (Js.get "output" (Js.get "response" event))
  then Some (Js.get "output" (Js.get "response" event))
  else None.

(** The latest value along a stream, or the one to start with. *)
Fixpoint latest (read : Js.value -> option Js.value) (start : Js.value)
    (stream : list Js.value) : Js.value :=
  match stream with
  | [] => start
  | event :: rest =>
      latest read (match read event with Some v => v | None => start end) rest
  end.

(** The identity an output item records, if it records one. *)
Definition recordedId (event : Js.value) : option Js.value :=
  if isOutputItem event && Js.truthy (Js.get "item" event)
     && isCallItem (Js.get "item" event)
     && Js.isNonEmptyString (itemCallId (Js.get "item" event))
  then Some (itemCallId (Js.get "item" event))
  else None.

(** The call id of a tool item. *)
Definition callIdOf (item : InputItem) : option string :=
  match item with
  | function_call call_id _ _ | function_call_output call_id _ => Some call_id
  | _ => None
  end.

(** The tool blocks of a conversation that the formatter keeps: the tool
    results of user messages and the tool uses of assistant messages. *)
Definition rawCallIds (m : Message) : list string :=
  match m with
  | userMessage (blockContent blocks) =>
      flat_map (fun block => match block with
                             | toolResultBlock tool_use_id _ => [tool_use_id]
                             | _ => []
                             end) blocks
  | assistantMessage (blockContent blocks) =>
      flat_map (fun block => match block with
                             | toolUseBlock id _ _ => [id]
                             | _ => []
                             end) blocks
  | _ => []
  end.

Definition callIds (items : list InputItem) : list string :=
  flat_map (fun item => match callIdOf item with
                        | Some id => [id]
                        | None => []
                        end) items.

(** *** The full Responses body *)

(** [buildResponsesRequestBody] returns, and [rest] are the entries it
    returns. *)
Definition buildResponsesRequestBodyRest_is
    (isMcpTool : Js.value -> bool) (normalize convert : Js.value -> Js.value)
    (settings : Settings) (info : CachedInfo) (reasoningEffort : option string)
    (metadata : option Metadata) (rest : ResponsesRequestRest) : Prop :=
  buildResponsesRequestRest isMcpTool normalize convert settings info reasoningEffort metadata
  = Some rest.

(** The option was set, to [false]. *)
Definition isSwitchedOff (b : option bool) : bool :=
  match b with
  | Some false => true
  | _ => false
  end.

(** *** The previous revision's table *)

(** The entry was recorded by an output-item event: filed under its own
    id, with a name. *)
Definition recordedEntry (entry : Js.value * Previous.Identity) : Prop :=
  Js.truthy (fst entry) = true
  /\ Previous.identity_id (snd entry) = fst entry
  /\ Js.truthy (Previous.identity_name (snd entry)) = true.

(** The event records a name under the call id [c]. *)
Definition recordsCall (c : string) (event : Js.value) : bool :=
  isOutputItem event
  && Js.eqStr "function_call" (Js.get "type" (Js.get "item" event))
  && Js.eqStr c (Js.get "call_id" (Js.get "item" event))
  && Js.truthy (Js.get "name" (Js.get "item" event)).

(* ================================================================== *)
(** * Properties *)

(** ** The pending identity *)

Lemma captureResponse_pending (h : Handler) (event : Js.value) :
  pendingToolCallId (captureResponse h event) = pendingToolCallId h
  /\ pendingToolCallName (captureResponse h event) = pendingToolCallName h.
Proof.
  unfold captureResponse.
  destruct (Js.truthy (Js.get "output" (Js.get "response" event))
            && Js.isArray (Js.get "output" (Js.get "response" event)));
    destruct (Js.truthy (Js.get "id" (Js.get "response" event))); simpl; auto.
Qed.

Lemma resolveCallId_capture (h : Handler) (event : Js.value) :
  resolveCallId (captureResponse h event) event = resolveCallId h event.
Proof.
  unfold resolveCallId. now rewrite (proj1 (captureResponse_pending h event)).
Qed.

Lemma resolveName_capture (h : Handler) (event : Js.value) :
  resolveName (captureResponse h event) event = resolveName h event.
Proof.
  unfold resolveName. now rewrite (proj2 (captureResponse_pending h event)).
Qed.

(** The event classes are told apart by one [type] string: an event of one
    class is of no other. *)
Lemma eqStr_inj (a b : string) (v : Js.value) :
  Js.eqStr a v = true -> Js.eqStr b v = true -> a = b.
Proof.
  destruct v; simpl; try discriminate.
  intros Ha Hb. apply String.eqb_eq in Ha, Hb. congruence.
Qed.

Ltac other_class H :=
  let E := fresh "E" in
  match goal with
  | |- ?b = false =>
      destruct b eqn:E; [exfalso | reflexivity];
      repeat (apply orb_true_iff in H; destruct H as [H | H]);
      repeat (apply orb_true_iff in E; destruct E as [E | E]);
      discriminate (eqStr_inj _ _ _ H E)
  end.

Lemma delta_classes (event : Js.value) :
  isToolCallArgumentsDelta event = true ->
  isTextDelta event = false /\ isReasoningDelta event = false
  /\ isRefusalDelta event = false.
Proof.
  unfold isToolCallArgumentsDelta, isTextDelta, isReasoningDelta, isRefusalDelta.
  intros H. repeat split; other_class H.
Qed.

Lemma processResponsesEvent_delta (h : Handler) (event : Js.value) :
  isToolCallArgumentsDelta event = true ->
  processResponsesEvent h event
  = (toolCallArgumentsDelta (captureResponse h event) event, captureResponse h event).
Proof.
  intros H. unfold processResponsesEvent.
  destruct (delta_classes event H) as (-> & -> & ->). now rewrite H.
Qed.

Lemma toolCallArgumentsDelta_unresolved (h : Handler) (event : Js.value) :
  resolvable h event = false -> toolCallArgumentsDelta h event = [].
Proof.
  unfold resolvable, toolCallArgumentsDelta. now intros ->.
Qed.

Lemma resolvable_capture (h : Handler) (event : Js.value) :
  resolvable (captureResponse h event) event = resolvable h event.
Proof.
  unfold resolvable. now rewrite resolveCallId_capture, resolveName_capture.
Qed.

Lemma outputItem_classes (event : Js.value) :
  isOutputItem event = true ->
  isTextDelta event = false /\ isReasoningDelta event = false
  /\ isRefusalDelta event = false /\ isToolCallArgumentsDelta event = false
  /\ isToolCallArgumentsDone event = false.
Proof.
  unfold isOutputItem, isToolCallArgumentsDelta, isToolCallArgumentsDone,
    isTextDelta, isReasoningDelta, isRefusalDelta.
  intros H. repeat split; other_class H.
Qed.

Lemma processResponsesEvent_outputItem (h : Handler) (event : Js.value) :
  isOutputItem event = true ->
  processResponsesEvent h event
  = if Js.truthy (Js.get "item" event)
    then (outputItemChunks event (Js.get "item" event),
          captureIdentity (captureResponse h event) (Js.get "item" event))
    else ([], captureResponse h event).
Proof.
  intros H. unfold processResponsesEvent.
  destruct (outputItem_classes event H) as (-> & -> & -> & -> & ->).
  now rewrite H.
Qed.




(* ------------------------------------------------------------------ *)
(** ** The chat request's tool choice *)

(** C7.  With native tools in use, a tool choice that is unset or ["auto"]
    becomes ["required"] in the request; a tool choice the caller set to
    anything but ["auto"] is the request's, with or without native tools. *)
Theorem tool_choice_resolution (w : World) (systemPrompt : string)
    (messages : list Message) (metadata : option Metadata) :
  (useNativeTools (modelInfo w) metadata = true ->
   requestedToolChoice metadata = None \/ requestedToolChoice metadata = Some choiceAuto ->
   chat_tool_choice (chatRequest w systemPrompt messages metadata) = Some choiceRequired)
  /\ (forall choice,
        requestedToolChoice metadata = Some choice ->
        choice <> choiceAuto ->
        chat_tool_choice (chatRequest w systemPrompt messages metadata) = Some choice).
Proof.
  unfold chatRequest, finalToolChoice. simpl. split.
  - intros -> [-> | ->]; reflexivity.
  - intros choice -> Hauto.
    destruct choice; try contradiction; simpl; rewrite ?andb_false_r; reflexivity.
Qed.

(* ------------------------------------------------------------------ *)
(** ** Credentials *)

Lemma getClientWithBase_signedOut (token : option Token) :
  signedIn token = false -> getClientWithBase token = inr (error signInMessage).
Proof.
  destruct token as [[[key |]] |]; simpl; try reflexivity.
  unfold truthyS. simpl. destruct (key =? ""); [reflexivity | discriminate].
Qed.

Lemma getClientWithBase_key (token : option Token) (client : Client) :
  getClientWithBase token = inl client -> apiKey client <> "".
Proof.
  destruct token as [[[key |]] |]; simpl; try discriminate.
  destruct (key =? "") eqn:E; [discriminate |].
  intros [= <-]. simpl. now apply String.eqb_neq.
Qed.

Lemma createMessage_calls_key (w : World) (h : Handler) (systemPrompt : string)
    (messages : list Message) (metadata : option Metadata) :
  Forall (fun call => keyOf call <> "") (calls (createMessage w h systemPrompt messages metadata)).
Proof.
  unfold createMessage.
  destruct (getClientWithBase (getValid w)) as [client | failure] eqn:E;
    [| constructor].
  apply getClientWithBase_key in E.
  destruct (prefersResponses (modelInfo w)).
  - destruct (toolsReadable metadata); [| constructor].
    destruct (responsesStream w _) as [stream |].
    + destruct (responsesLoop _ stream). simpl. repeat constructor. exact E.
    + simpl. repeat constructor. exact E.
  - destruct (chatStream w _) as [stream |].
    + destruct (chatLoop _ _ stream). simpl. repeat constructor. exact E.
    + simpl. repeat constructor. exact E.
Qed.

Lemma completePrompt_calls_key (w : World) (prompt : string) :
  Forall (fun call => keyOf call <> "") (completion_calls (completePrompt w prompt)).
Proof.
  unfold completePrompt.
  destruct (getClientWithBase (getValid w)) as [client | failure] eqn:E;
    [| constructor].
  apply getClientWithBase_key in E.
  destruct (completesWithChat (modelInfo w)); simpl; repeat constructor; exact E.
Qed.

(** C9.  Without an access token, [createMessage] and [completePrompt]
    throw the sign-in error having sent no request and yielded nothing; and
    whatever the token, a request that is sent carries a non-empty key. *)
Theorem signed_out_fails_first (w : World) :
  (signedIn (getValid w) = false ->
   (forall h systemPrompt messages metadata,
      createMessage w h systemPrompt messages metadata
      = mkRun [] [] (Threw (error signInMessage)) h)
   /\ (forall prompt,
         completePrompt w prompt = mkCompletion [] (inr (error signInMessage))))
  /\ (forall h systemPrompt messages metadata,
        Forall (fun call => keyOf call <> "")
               (calls (createMessage w h systemPrompt messages metadata)))
  /\ (forall prompt,
        Forall (fun call => keyOf call <> "") (completion_calls (completePrompt w prompt))).
Proof.
  split; [| split].
  - intros Hout. apply getClientWithBase_signedOut in Hout.
    split; intros; [unfold createMessage | unfold completePrompt];
      now rewrite Hout.
  - apply createMessage_calls_key.
  - apply completePrompt_calls_key.
Qed.

Lemma signed_out_fails_first_witness :
  let w := scripted (Some (mkToken (Some ""))) chatModel [] [] noCompletion noResponse in
  createMessage w newHandler "system" [] None
  = mkRun [] [] (Threw (error signInMessage)) newHandler
  /\ completePrompt w "hello" = mkCompletion [] (inr (error signInMessage)).
Proof.
  intros w.
  destruct (signed_out_fails_first w) as [Hout _].
  destruct (Hout eq_refl) as [Hcreate Hcomplete].
  split; [apply Hcreate | apply Hcomplete].
Defined.

(* ------------------------------------------------------------------ *)
(** ** From the loops to [createMessage] *)

Lemma responsesLoop_Forall (P : ApiStreamChunk -> Prop) (Q : Js.value -> Prop) :
  (forall h event, Q event -> Forall P (fst (processResponsesEvent h event))) ->
  forall stream h, Forall Q stream -> Forall P (fst (responsesLoop h stream)).
Proof.
  intros Hstep. induction stream as [| event rest IH]; intros h Hq; simpl.
  - constructor.
  - inversion Hq as [| ? ? Hevent Hrest]; subst.
    specialize (Hstep h event Hevent).
    destruct (processResponsesEvent h event) as [out h1].
    specialize (IH h1 Hrest).
    destruct (responsesLoop h1 rest) as [outs h2]. simpl in *.
    apply Forall_app. split; assumption.
Qed.


(** What [createMessage] yields: nothing, or what one of the two loops
    yields on the stream the provider answered with. *)
Lemma createMessage_events (w : World) (h : Handler) (systemPrompt : string)
    (messages : list Message) (metadata : option Metadata) :
  let run := createMessage w h systemPrompt messages metadata in
  events run = []
  \/ (prefersResponses (modelInfo w) = true
      /\ outcome run = Completed
      /\ exists body stream,
           responsesStream w body = Some stream
           /\ events run = fst (responsesLoop (resetHandler h) stream))
  \/ (prefersResponses (modelInfo w) = false
      /\ chatStream w (chatRequest w systemPrompt messages metadata) <> None
      /\ exists stream,
           chatStream w (chatRequest w systemPrompt messages metadata) = Some stream
           /\ (events run, outcome run) = chatLoop (verifyFinishReason w) [] stream).
Proof.
  unfold createMessage.
  destruct (getClientWithBase (getValid w)) as [client | failure]; [| now left].
  destruct (prefersResponses (modelInfo w)).
  - destruct (toolsReadable metadata); [| now left].
    destruct (responsesStream w _) as [stream |] eqn:E; [| now left].
    right; left. destruct (responsesLoop (resetHandler h) stream) eqn:L. simpl.
    repeat split. eexists _, stream. split; [exact E |]. now rewrite L.
  - destruct (chatStream w _) as [stream |] eqn:E; [| now left].
    right; right. destruct (chatLoop (verifyFinishReason w) [] stream) eqn:L. simpl.
    repeat split; [discriminate |]. exists stream. split; [reflexivity |]. now rewrite L.
Qed.


(* ------------------------------------------------------------------ *)
(** ** Text and reasoning chunks are never empty *)

Lemma toolCallsLoop_out (toolCalls : list ToolCallDelta) (active : list string) :
  fst (toolCallsLoop active toolCalls) = map toolCallPartial toolCalls.
Proof.
  revert active. induction toolCalls as [| toolCall rest IH]; intros active; simpl.
  - reflexivity.
  - specialize (IH (if Js.truthy (Js.ofOption (tc_id toolCall))
                    then match tc_id toolCall with
                         | Some id => setAdd id active
                         | None => active
                         end
                    else active)).
    destruct (toolCallsLoop _ rest). simpl in *. now rewrite IH.
Qed.



(** The yields of one chat chunk, in the order of the loop body. *)
Lemma chatChunk_out (active : list string) (chunk : ChatChunk) :
  exists ends,
    (ends = [] \/ ends = endAll (snd (match chunkDelta chunk with
                                       | Some d =>
                                           match delta_tool_calls d with
                                           | Some toolCalls => toolCallsLoop active toolCalls
                                           | None => ([], active)
                                           end
                                       | None => ([], active)
                                       end)))
    /\ fst (chatChunk active chunk)
       = (match chunkContent chunk with
          | Some s => if negb (s =? "") then [text_chunk (Js.str s)] else []
          | None => []
          end)
         ++ (match chunkDelta chunk with
             | Some d =>
                 match delta_tool_calls d with
                 | Some toolCalls => map toolCallPartial toolCalls
                 | None => []
                 end
             | None => []
             end)
         ++ (if Js.truthy (reasoningText (chunkDelta chunk))
             then [reasoning_chunk (reasoningText (chunkDelta chunk))]
             else [])
         ++ ends
         ++ (match chunk_usage chunk with
             | Some u =>
                 [usage_chunk (Js.number (prompt_tokens u) <|> Js.number 0)
                              (Js.number (completion_tokens u) <|> Js.number 0)]
             | None => []
             end).
Proof.
  unfold chatChunk, chunkContent.
  destruct (chunkDelta chunk) as [d |]; simpl.
  - destruct (delta_tool_calls d) as [toolCalls |].
    + pose proof (toolCallsLoop_out toolCalls active) as Hout.
      destruct (toolCallsLoop active toolCalls) as [toolOut active1]. simpl in *.
      subst toolOut.
      destruct (isToolCallsFinish (chunkFinishReason chunk) && nonEmpty active1);
        eexists; (split; [| destruct (delta_content d); reflexivity]); auto.
    + destruct (isToolCallsFinish (chunkFinishReason chunk) && nonEmpty active);
        eexists; (split; [| destruct (delta_content d); reflexivity]); auto.
  - destruct (isToolCallsFinish (chunkFinishReason chunk) && nonEmpty active);
      eexists; (split; [| reflexivity]); auto.
Qed.





Lemma filter_endAll (p : ApiStreamChunk -> bool) (active : list string) :
  (forall id, p (tool_call_end id) = false) -> filter p (endAll active) = [].
Proof.
  intros H. induction active; simpl; [reflexivity |]. now rewrite H.
Qed.


(* ------------------------------------------------------------------ *)
(** ** Fragments without an identity *)

Lemma filter_isPartial_partials (toolCalls : list ToolCallDelta) :
  filter isPartial (map toolCallPartial toolCalls) = map toolCallPartial toolCalls.
Proof.
  induction toolCalls as [| toolCall rest IH]; [reflexivity |].
  cbn [map filter]. unfold toolCallPartial at 1. cbn [isPartial]. now rewrite IH.
Qed.

(** C2, as it holds.  On the Responses path an arguments delta whose call
    id or name resolves neither from the event nor from the handler's
    pending identity yields nothing and leaves the pending identity as it
    was; in particular a delta with no identity property at all, met while
    nothing is pending.  On the chat path nothing is resolved and nothing
    is dropped: every entry of [delta.tool_calls] goes out as a
    [tool_call_partial], in order, with the id and the name it has, both
    [undefined] for an entry that has neither; an entry without id leaves
    the set of active calls as it was. *)
Theorem unresolved_delta_is_dropped :
  (forall h event,
     isToolCallArgumentsDelta event = true ->
     (resolvable h event = false ->
      fst (processResponsesEvent h event) = []
      /\ pendingToolCallId (snd (processResponsesEvent h event)) = pendingToolCallId h
      /\ pendingToolCallName (snd (processResponsesEvent h event)) = pendingToolCallName h)
     /\ (anonymous event = true ->
         Js.truthy (pendingToolCallId h) = false
         \/ Js.truthy (pendingToolCallName h) = false ->
         resolvable h event = false))
  /\ (forall active chunk d toolCalls,
        chunkDelta chunk = Some d ->
        delta_tool_calls d = Some toolCalls ->
        filter isPartial (fst (chatChunk active chunk)) = map toolCallPartial toolCalls)
  /\ (forall toolCall,
        tc_id toolCall = None ->
        (forall f, tc_function toolCall = Some f -> fn_name f = None) ->
        exists arguments,
          toolCallPartial toolCall
          = tool_call_partial (Js.number (tc_index toolCall)) Js.undefined Js.undefined
                              arguments)
  /\ (forall active toolCall rest,
        Js.truthy (Js.ofOption (tc_id toolCall)) = false ->
        snd (toolCallsLoop active (toolCall :: rest)) = snd (toolCallsLoop active rest)).
Proof.
  split; [| split; [| split]].
  - intros h event Hdelta. split.
    + intros Hno. rewrite (processResponsesEvent_delta h event Hdelta). simpl.
      rewrite toolCallArgumentsDelta_unresolved by now rewrite resolvable_capture.
      split; [reflexivity | apply captureResponse_pending].
    + unfold anonymous, resolvable, resolveCallId, resolveName, Js.oror.
      intros Hanon Hpending.
      repeat (apply andb_true_iff in Hanon; destruct Hanon as [Hanon ?]).
      repeat match goal with
             | H : negb ?b = true |- _ => apply negb_true_iff in H; rewrite H
             end.
      destruct Hpending as [-> | ->]; simpl.
      * apply andb_false_r.
      * reflexivity.
  - intros active chunk d toolCalls Hd Hcalls.
    destruct (chatChunk_out active chunk) as (ends & Hends & ->).
    rewrite Hd, Hcalls, !filter_app, filter_isPartial_partials.
    replace (filter isPartial ends) with (@nil ApiStreamChunk)
      by (destruct Hends as [-> | ->]; [reflexivity | now rewrite filter_endAll]).
    replace (filter isPartial match chunkContent chunk with
                              | Some s =>
                                  if negb (s =? "") then [text_chunk (Js.str s)] else []
                              | None => []
                              end) with (@nil ApiStreamChunk)
      by (destruct (chunkContent chunk) as [s |];
          [destruct (negb (s =? "")) |]; reflexivity).
    destruct (Js.truthy (reasoningText (Some d))), (chunk_usage chunk); cbn;
      now rewrite app_nil_r.
  - intros toolCall Hid Hname. unfold toolCallPartial. rewrite Hid.
    destruct (tc_function toolCall) as [f |]; [| eexists; reflexivity].
    rewrite (Hname f eq_refl). eexists. reflexivity.
  - intros active toolCall rest Hid. cbn [toolCallsLoop]. rewrite Hid.
    now destruct (toolCallsLoop active rest).
Qed.

Lemma unresolved_delta_is_dropped_witness :
  let event := argumentsDelta [("delta", Js.str "{}")] in
  fst (processResponsesEvent newHandler event) = []
  /\ pendingToolCallId (snd (processResponsesEvent newHandler event)) = Js.undefined
  /\ pendingToolCallName (snd (processResponsesEvent newHandler event)) = Js.undefined.
Proof.
  intros event.
  destruct unresolved_delta_is_dropped as (Hresponses & _).
  destruct (Hresponses newHandler event) as [Hdrop Hnone]; [reflexivity |].
  apply Hdrop, Hnone; [reflexivity | left; reflexivity].
Defined.

(** C2, as stated, fails on the chat path: a fragment that has no id and
    no name, sent while no call is active, is yielded, with its id and its
    name [undefined]. *)
Lemma unresolved_delta_counterexample :
  let fragment := mkToolCallDelta 0 None (Some (mkToolCallFunction None (Some "{}"))) in
  let chunk :=
    mkChatChunk [mkChoice (Some (mkDelta None (Some [fragment]) None None)) None] None in
  let w := scripted someToken chatModel [chunk] [] noCompletion noResponse in
  fst (chatChunk [] chunk)
  = [tool_call_partial (Js.number 0) Js.undefined Js.undefined (Js.str "{}")]
  /\ events (createMessage w newHandler "" [] None)
     = [tool_call_partial (Js.number 0) Js.undefined Js.undefined (Js.str "{}")]
  /\ events (createMessage w newHandler "" [] None) <> [].
Proof.
  intros fragment chunk w. repeat split. discriminate.
Qed.

(* ------------------------------------------------------------------ *)
(** ** Text and reasoning content *)









(* ------------------------------------------------------------------ *)
(** ** The order of the formatted conversation *)

Section FormatterOrder.

Variable sanitize : string -> string.
Variable stringify : Js.value -> string.

Lemma userBlocks_pieces (blocks : list Block) :
  forall content toolResults,
    Forall (fun item => isRoleItem item = false) toolResults ->
    let '(content', toolResults') := userBlocks sanitize blocks content toolResults in
    map (contentPiece user) content'
    = map (contentPiece user) content
        ++ filter isContentPiece (flat_map (userPiece sanitize) blocks)
    /\ map itemPiece toolResults'
       = map itemPiece toolResults
           ++ filter (fun p => negb (isContentPiece p)) (flat_map (userPiece sanitize) blocks)
    /\ Forall (fun item => isRoleItem item = false) toolResults'.
Proof.
  induction blocks as [| block rest IH]; intros content toolResults Hitems; simpl.
  - now rewrite !app_nil_r.
  - destruct block; simpl.
    + specialize (IH (content ++ [input_text text]) toolResults Hitems).
      destruct (userBlocks sanitize rest _ toolResults).
      destruct IH as (-> & -> & H). rewrite map_app, <- app_assoc. auto.
    + specialize (IH (content ++ [input_image (imageUrl source)]) toolResults Hitems).
      destruct (userBlocks sanitize rest _ toolResults).
      destruct IH as (-> & -> & H). rewrite map_app, <- app_assoc. auto.
    + assert (Hitems' :
        Forall (fun item => isRoleItem item = false)
               (toolResults
                  ++ [function_call_output (sanitize tool_use_id) (resultOutput content0)]))
        by (apply Forall_app; split; [assumption | repeat constructor]).
      specialize (IH content _ Hitems').
      destruct (userBlocks sanitize rest content _).
      destruct IH as (-> & -> & H). rewrite map_app, <- app_assoc. auto.
    + apply IH, Hitems.
    + apply IH, Hitems.
Qed.

Lemma assistantBlocks_pieces (blocks : list Block) :
  forall content toolCalls,
    Forall (fun item => isRoleItem item = false) toolCalls ->
    let '(content', toolCalls') :=
      assistantBlocks sanitize stringify blocks content toolCalls in
    map (contentPiece assistant) content'
    = map (contentPiece assistant) content
        ++ filter isContentPiece (flat_map (assistantPiece sanitize stringify) blocks)
    /\ map itemPiece toolCalls'
       = map itemPiece toolCalls
           ++ filter (fun p => negb (isContentPiece p))
                     (flat_map (assistantPiece sanitize stringify) blocks)
    /\ Forall (fun item => isRoleItem item = false) toolCalls'.
Proof.
  induction blocks as [| block rest IH]; intros content toolCalls Hitems; simpl.
  - now rewrite !app_nil_r.
  - destruct block; simpl.
    + specialize (IH (content ++ [output_text text]) toolCalls Hitems).
      destruct (assistantBlocks sanitize stringify rest _ toolCalls).
      destruct IH as (-> & -> & H). rewrite map_app, <- app_assoc. auto.
    + apply IH, Hitems.
    + apply IH, Hitems.
    + assert (Hitems' :
        Forall (fun item => isRoleItem item = false)
               (toolCalls ++ [function_call (sanitize id) name (stringify input)]))
        by (apply Forall_app; split; [assumption | repeat constructor]).
      specialize (IH content _ Hitems').
      destruct (assistantBlocks sanitize stringify rest content _).
      destruct IH as (-> & -> & H). rewrite map_app, <- app_assoc. auto.
    + apply IH, Hitems.
Qed.

Lemma itemPieces_items (items : list InputItem) :
  Forall (fun item => isRoleItem item = false) items ->
  flat_map itemPieces items = map itemPiece items.
Proof.
  induction 1 as [| item rest Hitem _ IH]; simpl; [reflexivity |].
  rewrite IH. destruct item; try discriminate; reflexivity.
Qed.

Lemma pushMessage_pieces (role : Role) (content : list ContentPart)
    (items : list InputItem) :
  Forall (fun item => isRoleItem item = false) items ->
  flat_map itemPieces (pushMessage role content items)
  = map (contentPiece role) content ++ map itemPiece items.
Proof.
  intros Hitems. unfold pushMessage. rewrite flat_map_app.
  replace (if nonEmpty items then items else []) with items
    by now destruct items.
  rewrite (itemPieces_items items Hitems).
  destruct content; simpl; now rewrite ?app_nil_r.
Qed.

(** The pushes of a message: at most one role item, and first. *)
Lemma pushMessage_shape (role : Role) (content : list ContentPart)
    (items : list InputItem) :
  Forall (fun item => isRoleItem item = false) items ->
  Forall (fun item => isRoleItem item = false) (tl (pushMessage role content items)).
Proof.
  intros Hitems. unfold pushMessage.
  replace (if nonEmpty items then items else []) with items
    by now destruct items.
  destruct content; simpl; [| assumption].
  destruct items; simpl; [constructor | now inversion Hitems].
Qed.

Lemma formatMessage_pieces (m : Message) :
  flat_map itemPieces (formatMessage sanitize stringify m) = contentFirst (sourcePieces sanitize stringify m)
  /\ Forall (fun item => isRoleItem item = false)
            (tl (formatMessage sanitize stringify m)).
Proof.
  unfold contentFirst.
  destruct m as [r | c | c |]; simpl; try (split; [reflexivity | constructor]).
  - destruct c as [s | blocks |]; simpl; try (split; [reflexivity | constructor]).
    pose proof (userBlocks_pieces blocks [] [] (Forall_nil _)) as H.
    destruct (userBlocks sanitize blocks [] []) as [content toolResults].
    destruct H as (Hc & Ht & Hitems).
    split; [| now apply pushMessage_shape].
    rewrite pushMessage_pieces by assumption. now rewrite Hc, Ht.
  - destruct c as [s | blocks |]; simpl; try (split; [reflexivity | constructor]).
    pose proof (assistantBlocks_pieces blocks [] [] (Forall_nil _)) as H.
    destruct (assistantBlocks sanitize stringify blocks [] []) as [content toolCalls].
    destruct H as (Hc & Ht & Hitems).
    split; [| now apply pushMessage_shape].
    rewrite pushMessage_pieces by assumption. now rewrite Hc, Ht.
Qed.

Lemma format_app (before after : list Message) :
  formatFullConversation sanitize stringify (before ++ after)
= formatFullConversation sanitize stringify before
    ++ formatFullConversation sanitize stringify after.
Proof.
  induction before as [| m rest IH]; simpl; [reflexivity |].
  now rewrite IH, app_assoc.
Qed.

Lemma format_pieces (messages : list Message) :
  flat_map itemPieces (formatFullConversation sanitize stringify messages)
  = flat_map (fun m => contentFirst (sourcePieces sanitize stringify m)) messages.
Proof.
  induction messages as [| m rest IH]; simpl; [reflexivity |].
  now rewrite flat_map_app, IH, (proj1 (formatMessage_pieces m)).
Qed.

End FormatterOrder.

(** C5, as it holds.  Tool calls and tool results are items of their own,
    never parts of a role item.  The items of a message follow those of
    the messages before it.  Within a message the blocks that bear the
    role are gathered, in their order, into one item that comes first, and
    the tool items follow in their order: the output has the pieces of
    each message content first.  So the order is that of the source when
    no tool block of a message precedes a text or image block of it. *)
Theorem formatted_order (sanitize : string -> string) (stringify : Js.value -> string) :
  (forall before after,
     formatFullConversation sanitize stringify (before ++ after)
     = formatFullConversation sanitize stringify before
         ++ formatFullConversation sanitize stringify after)
  /\ (forall messages,
        flat_map itemPieces (formatFullConversation sanitize stringify messages)
        = flat_map (fun m => contentFirst (sourcePieces sanitize stringify m)) messages)
  /\ (forall m,
        Forall (fun item => isRoleItem item = false)
               (tl (formatMessage sanitize stringify m)))
  /\ (forall messages,
        Forall (fun m => contentFirst (sourcePieces sanitize stringify m)
                         = sourcePieces sanitize stringify m) messages ->
        flat_map itemPieces (formatFullConversation sanitize stringify messages)
        = flat_map (sourcePieces sanitize stringify) messages).
Proof.
  split; [| split; [| split]].
  - apply format_app.
  - apply format_pieces.
  - intros m. apply formatMessage_pieces.
  - intros messages Hordered. rewrite format_pieces.
    induction Hordered as [| m rest Hm _ IH]; simpl; [reflexivity |].
    now rewrite Hm, IH.
Qed.

Lemma formatted_order_witness :
  let messages :=
    [userMessage (blockContent [textBlock "thanks";
                                toolResultBlock "call_1" (resultString "42")]);
     assistantMessage (blockContent [textBlock "ok";
                                     toolUseBlock "call_2" "search" Js.null])] in
  flat_map itemPieces (formatFullConversation (fun id => id) (fun _ => "{}") messages)
  = flat_map (sourcePieces (fun id => id) (fun _ => "{}")) messages.
Proof.
  intros messages.
  destruct (formatted_order (fun id => id) (fun _ => "{}")) as (_ & _ & _ & Hordered).
  apply Hordered. repeat constructor.
Defined.

(** C5, as stated, fails: a tool result that precedes a text block in a
    user message comes after it in the output. *)
Lemma formatted_order_counterexample :
  let messages :=
    [userMessage (blockContent [toolResultBlock "call_1" (resultString "42");
                                textBlock "thanks"])] in
  formatFullConversation (fun id => id) (fun _ => "{}") messages
  = [role_item user [input_text "thanks"]; function_call_output "call_1" "42"]
  /\ flat_map (sourcePieces (fun id => id) (fun _ => "{}")) messages
     = [itemPiece (function_call_output "call_1" "42");
        contentPiece user (input_text "thanks")]
  /\ flat_map itemPieces (formatFullConversation (fun id => id) (fun _ => "{}") messages)
     <> flat_map (sourcePieces (fun id => id) (fun _ => "{}")) messages.
Proof.
  intros messages. split; [reflexivity | split; [reflexivity | discriminate]].
Qed.

Lemma tool_choice_resolution_witness :
  let w := scripted someToken chatModel [] [] noCompletion noResponse in
  let withTools := fun choice => Some (mkMetadata (Some [Js.null]) choice None None) in
  chat_tool_choice (chatRequest w "" [] (withTools None)) = Some choiceRequired
  /\ chat_tool_choice (chatRequest w "" [] (withTools (Some choiceAuto)))
     = Some choiceRequired
  /\ chat_tool_choice (chatRequest w "" [] (withTools (Some (choiceFunction "search"))))
     = Some (choiceFunction "search")
  /\ chat_tool_choice (chatRequest w "" [] (withTools (Some choiceRequired)))
     = Some choiceRequired
  /\ chat_tool_choice (chatRequest w "" [] (withTools (Some choiceNone)))
     = Some choiceNone.
Proof.
  intros w withTools.
  split; [| split; [| split; [| split]]].
  - apply (proj1 (tool_choice_resolution w "" [] (withTools None)));
      [reflexivity | left; reflexivity].
  - apply (proj1 (tool_choice_resolution w "" [] (withTools (Some choiceAuto))));
      [reflexivity | right; reflexivity].
  - apply (proj2 (tool_choice_resolution w "" [] (withTools (Some (choiceFunction "search")))));
      [reflexivity | discriminate].
  - apply (proj2 (tool_choice_resolution w "" [] (withTools (Some choiceRequired))));
      [reflexivity | discriminate].
  - apply (proj2 (tool_choice_resolution w "" [] (withTools (Some choiceNone))));
      [reflexivity | discriminate].
Defined.

(* ------------------------------------------------------------------ *)
(** ** [completePrompt] *)

Lemma firstOutputText_head (contents : list OutputContent) :
  firstOutputText contents = hd_error (flat_map contentTexts contents).
Proof.
  induction contents as [| content rest IH]; simpl; [reflexivity |].
  unfold contentTexts at 1.
  destruct ((oc_type content =? "output_text") && truthyS (oc_text content)) eqn:E.
  - apply andb_true_iff in E. destruct E as [_ E].
    destruct (oc_text content); [reflexivity | discriminate].
  - exact IH.
Qed.

Lemma scanOutput_head (output : list OutputItem) :
  scanOutput output = hd_error (flat_map itemTexts output).
Proof.
  induction output as [| outputItem rest IH]; simpl; [reflexivity |].
  unfold itemTexts at 1.
  destruct (oi_content outputItem) as [contents |]; [| exact IH].
  destruct (oi_type outputItem =? "message"); [| exact IH].
  rewrite firstOutputText_head.
  destruct (flat_map contentTexts contents); [exact IH | reflexivity].
Qed.

Lemma extractResponseText_first (response : Response) :
  extractResponseText response
  = match allOutputTexts response with
    | t :: _ => t
    | [] => responseFallback response
    end.
Proof.
  unfold extractResponseText, allOutputTexts.
  destruct (response_output response) as [output |]; [| reflexivity].
  rewrite scanOutput_head. now destruct (flat_map itemTexts output).
Qed.

(** C6, as it holds.  [completePrompt] sends the chat request exactly when
    the model's [apiType] is ["CHAT_COMPLETIONS"] and the Responses request
    otherwise, a test of its own; from a Responses answer it returns the
    first accepted text (or [response.text], or the empty string), from a
    chat answer the content of the first choice; and its requests name no
    tools. *)
Theorem completePrompt_protocol_and_text :
  (forall info,
     completesWithChat info = true <-> apiType info = Some "CHAT_COMPLETIONS")
  /\ (forall w prompt client,
        getClientWithBase (getValid w) = inl client ->
        completion_calls (completePrompt w prompt)
        = [if completesWithChat (modelInfo w)
           then chatCompletionsCreate client (completionChatRequest w prompt)
           else responsesCreate client (completionResponsesBody w prompt)])
  /\ (forall w prompt response,
        signedIn (getValid w) = true ->
        completesWithChat (modelInfo w) = false ->
        responsesResponse w (completionResponsesBody w prompt) = Some response ->
        completion_result (completePrompt w prompt)
        = inl match allOutputTexts response with
              | t :: _ => t
              | [] => responseFallback response
              end)
  /\ (forall w prompt resp,
        signedIn (getValid w) = true ->
        completesWithChat (modelInfo w) = true ->
        chatCompletion w (completionChatRequest w prompt) = Some resp ->
        completion_result (completePrompt w prompt)
        = inl match completion_choices resp with
              | choice :: _ =>
                  match message_content choice with
                  | Some t => t
                  | None => ""
                  end
              | [] => ""
              end)
  /\ (forall w prompt,
        chat_tools (completionChatRequest w prompt) = None
        /\ chat_tool_choice (completionChatRequest w prompt) = None
        /\ body_tool_choice (completionResponsesBody w prompt) = None).
Proof.
  assert (Hclient : forall token, signedIn token = true ->
                                  exists client, getClientWithBase token = inl client).
  { intros [[[key |]] |]; simpl; try discriminate.
    unfold truthyS. simpl. destruct (key =? ""); [discriminate | eauto]. }
  split; [| split; [| split; [| split]]].
  - intros info. unfold completesWithChat. destruct (apiType info) as [t |].
    + rewrite String.eqb_eq. split; congruence.
    + split; discriminate.
  - intros w prompt client Hc. unfold completePrompt. rewrite Hc.
    now destruct (completesWithChat (modelInfo w)).
  - intros w prompt response Hin Hchat Hanswer.
    destruct (Hclient _ Hin) as [client Hc].
    unfold completePrompt. rewrite Hc, Hchat. simpl.
    now rewrite Hanswer, extractResponseText_first.
  - intros w prompt resp Hin Hchat Hanswer.
    destruct (Hclient _ Hin) as [client Hc].
    unfold completePrompt. rewrite Hc, Hchat. simpl. rewrite Hanswer.
    unfold extractChatText. now destruct (completion_choices resp).
  - intros w prompt. repeat split.
Qed.

Lemma completePrompt_protocol_and_text_witness :
  let response :=
    mkResponse (Some [mkOutputItem "reasoning" None;
                      mkOutputItem "message"
                        (Some [mkOutputContent "refusal" None;
                               mkOutputContent "output_text" (Some "Hello")])])
               None in
  let answer := mkChatCompletion [mkCompletionChoice (Some "Hi")] in
  let w := scripted someToken responsesModel [] [] answer response in
  let w' := scripted someToken (mkModelInfo (Some "CHAT_COMPLETIONS") None None None)
                     [] [] answer response in
  completion_calls (completePrompt w' "hi")
  = [chatCompletionsCreate (mkClient "secret") (completionChatRequest w' "hi")]
  /\ completion_result (completePrompt w "hi") = inl "Hello"
  /\ completion_result (completePrompt w' "hi") = inl "Hi".
Proof.
  intros response answer w w'.
  destruct completePrompt_protocol_and_text as (_ & Hcalls & Hresponses & Hchat & _).
  split; [| split].
  - apply (Hcalls w' "hi" (mkClient "secret")). reflexivity.
  - apply (Hresponses w "hi" response); reflexivity.
  - apply (Hchat w' "hi" answer); reflexivity.
Defined.

(** C6, as stated, fails twice over: a model with no [apiType] is served
    by the chat protocol in [createMessage] and by the Responses protocol
    in [completePrompt]; and of two texts in the answer only the first is
    returned. *)
Lemma completePrompt_counterexample :
  let response :=
    mkResponse (Some [mkOutputItem "message"
                        (Some [mkOutputContent "output_text" (Some "Hello, ");
                               mkOutputContent "output_text" (Some "world")])])
               None in
  let w := scripted someToken chatModel [] [] noCompletion response in
  usesChat (calls (createMessage w newHandler "" [] None)) = true
  /\ usesChat (completion_calls (completePrompt w "hi")) = false
  /\ allOutputTexts response = ["Hello, "; "world"]
  /\ completion_result (completePrompt w "hi") = inl "Hello, "
  /\ completion_result (completePrompt w "hi")
     <> inl (String.concat "" (allOutputTexts response)).
Proof.
  intros response w.
  repeat (split; [reflexivity |]). discriminate.
Qed.

(* ------------------------------------------------------------------ *)
(** ** The handler state across calls *)

Lemma createMessage_reset (w : World) (h h' : Handler) (systemPrompt : string)
    (messages : list Message) (metadata : option Metadata) :
  events (createMessage w h systemPrompt messages metadata)
  = events (createMessage w h' systemPrompt messages metadata)
  /\ calls (createMessage w h systemPrompt messages metadata)
     = calls (createMessage w h' systemPrompt messages metadata)
  /\ outcome (createMessage w h systemPrompt messages metadata)
     = outcome (createMessage w h' systemPrompt messages metadata).
Proof.
  unfold createMessage.
  destruct (getClientWithBase (getValid w)); [| now repeat split].
  destruct (prefersResponses (modelInfo w)).
  - destruct (responsesStream w _); [| now repeat split].
    unfold resetHandler. destruct (responsesLoop _ _). now repeat split.
  - destruct (chatStream w _); [| now repeat split].
    destruct (chatLoop _ _ _). now repeat split.
Qed.

(** C8, as it holds.  The pending identity and the captured output are
    fields of the handler that the Responses branch of [createMessage]
    clears on entry: what a call yields, sends and throws does not depend
    on the state it finds, so nothing recorded by a call that has ended
    reaches a later one. *)
Theorem handler_state_reset_on_entry :
  (forall w h h' systemPrompt messages metadata,
     events (createMessage w h systemPrompt messages metadata)
     = events (createMessage w h' systemPrompt messages metadata)
     /\ calls (createMessage w h systemPrompt messages metadata)
        = calls (createMessage w h' systemPrompt messages metadata)
     /\ outcome (createMessage w h systemPrompt messages metadata)
        = outcome (createMessage w h' systemPrompt messages metadata))
  /\ (forall w w' h systemPrompt messages metadata systemPrompt' messages' metadata',
        events (createMessage w'
                  (handlerAfter (createMessage w h systemPrompt messages metadata))
                  systemPrompt' messages' metadata')
        = events (createMessage w' newHandler systemPrompt' messages' metadata')).
Proof.
  split.
  - intros. apply createMessage_reset.
  - intros. apply createMessage_reset.
Qed.

(** C8, as stated, fails: the state outlives the call, and of two calls
    in flight on one handler the second resolves a delta that names no
    call to the identity the first has recorded. *)
Lemma handler_state_counterexample :
  let recorded := outputItemAdded "t1" "search" in
  let unnamed := argumentsDelta [("delta", Js.str "{}")] in
  let w := scripted someToken responsesModel [] [recorded] noCompletion noResponse in
  fst (responsesLoop (resetHandler newHandler) [unnamed]) = []
  /\ fst (interleave newHandler
            [(first, enter); (second, enter);
             (first, deliver recorded); (second, deliver unnamed)])
     = ([], [tool_call_partial (Js.number 0) (Js.str "t1") (Js.str "search") (Js.str "{}")])
  /\ pendingToolCallId (handlerAfter (createMessage w newHandler "" [] None))
     = Js.str "t1".
Proof.
  intros recorded unnamed w. repeat split.
Qed.

(* ------------------------------------------------------------------ *)
(** ** Usage chunks *)

Section AfterUsage.

Variable allowed : ApiStreamChunk -> bool.
Hypothesis allowed_not_usage : forall c, allowed c = true -> isUsage c = false.

Lemma allowed_noUsage (out : list ApiStreamChunk) :
  forallb allowed out = true -> noUsage out = true.
Proof.
  unfold noUsage. rewrite !forallb_forall. intros H c Hc.
  now rewrite (allowed_not_usage c (H c Hc)).
Qed.

Lemma noUsage_count (out : list ApiStreamChunk) :
  noUsage out = true -> count isUsage out = 0.
Proof.
  unfold noUsage, count. induction out as [| c rest IH]; simpl; [reflexivity |].
  intros H. apply andb_true_iff in H. destruct H as [Hc Hrest].
  apply negb_true_iff in Hc. rewrite Hc. auto.
Qed.

Lemma onlyAfterUsage_count (out : list ApiStreamChunk) :
  onlyAfterUsage allowed out = true -> count isUsage out <= 1.
Proof.
  induction out as [| c rest IH]; simpl; [unfold count; simpl; lia |].
  unfold count in *. simpl. destruct (isUsage c); simpl; intros H.
  - apply allowed_noUsage, noUsage_count in H. unfold count in H. lia.
  - auto.
Qed.

Lemma onlyAfterUsage_split (out before after : list ApiStreamChunk) (u : ApiStreamChunk) :
  onlyAfterUsage allowed out = true ->
  out = before ++ u :: after ->
  isUsage u = true ->
  forallb allowed after = true.
Proof.
  intros Hout -> Hu. induction before as [| b rest IH]; simpl in Hout.
  - now rewrite Hu in Hout.
  - destruct (isUsage b); [| auto].
    rewrite forallb_app in Hout. apply andb_true_iff in Hout.
    destruct Hout as [_ Hout]. simpl in Hout.
    apply andb_true_iff in Hout. destruct Hout as [Hout _].
    apply allowed_not_usage in Hout. congruence.
Qed.

Lemma onlyAfterUsage_app (quiet out : list ApiStreamChunk) :
  noUsage quiet = true ->
  onlyAfterUsage allowed (quiet ++ out) = onlyAfterUsage allowed out.
Proof.
  unfold noUsage. induction quiet as [| c rest IH]; simpl; [reflexivity |].
  intros H. apply andb_true_iff in H. destruct H as [Hc Hrest].
  apply negb_true_iff in Hc. rewrite Hc. auto.
Qed.

Lemma onlyAfterUsage_noUsage (out : list ApiStreamChunk) :
  noUsage out = true -> onlyAfterUsage allowed out = true.
Proof.
  intros H. rewrite <- (app_nil_r out). now rewrite onlyAfterUsage_app.
Qed.

End AfterUsage.

Lemma noUsage_endAll (active : list string) : noUsage (endAll active) = true.
Proof. unfold noUsage. induction active; simpl; auto. Qed.

Lemma noUsage_partials (toolCalls : list ToolCallDelta) :
  noUsage (map toolCallPartial toolCalls) = true.
Proof. unfold noUsage. induction toolCalls; simpl; auto. Qed.

Lemma forallb_endAll (active : list string) :
  forallb isToolCallEnd (endAll active) = true.
Proof. induction active; simpl; auto. Qed.

(** The yields of a chat chunk: its usage, if it has any, comes last. *)
Lemma chatChunk_usage (active : list string) (chunk : ChatChunk) :
  exists others,
    fst (chatChunk active chunk) = others ++ usageOf chunk
    /\ noUsage others = true.
Proof.
  destruct (chatChunk_out active chunk) as (ends & Hends & ->).
  eexists. rewrite !app_assoc. split; [reflexivity |].
  unfold noUsage. rewrite !forallb_app. repeat (apply andb_true_iff; split).
  - destruct (chunkContent chunk) as [s |]; [| reflexivity].
    now destruct (negb (s =? "")).
  - destruct (chunkDelta chunk) as [d |]; [| reflexivity].
    destruct (delta_tool_calls d); [apply noUsage_partials | reflexivity].
  - now destruct (Js.truthy (reasoningText (chunkDelta chunk))).
  - destruct Hends as [-> | ->]; [reflexivity | apply noUsage_endAll].
Qed.

Lemma chatLoop_usage_last (verify : option Choice -> bool) (stream : list ChatChunk) :
  forall active,
    usageOnLastOnly stream = true ->
    onlyAfterUsage isToolCallEnd (fst (chatLoop verify active stream)) = true.
Proof.
  assert (Hend : forall c, isToolCallEnd c = true -> isUsage c = false)
    by (intros []; simpl; congruence).
  induction stream as [| chunk rest IH]; intros active Hlast.
  - simpl. apply onlyAfterUsage_noUsage.
    destruct (nonEmpty active); [apply noUsage_endAll | reflexivity].
  - cbn [chatLoop]. destruct (verify (hd_error (choices chunk))); [| reflexivity].
    destruct (chatChunk_usage active chunk) as (others & Hout & Hquiet).
    destruct (chatChunk active chunk) as [out active1]. simpl in Hout. subst out.
    destruct rest as [| next rest'].
    + simpl. rewrite <- app_assoc, onlyAfterUsage_app by assumption.
      assert (Hfinal : forallb isToolCallEnd (if nonEmpty active1 then endAll active1 else [])
                       = true)
        by (destruct (nonEmpty active1); [apply forallb_endAll | reflexivity]).
      unfold usageOf. destruct (chunk_usage chunk); simpl.
      * exact Hfinal.
      * apply onlyAfterUsage_noUsage. eapply allowed_noUsage; eauto.
    + unfold usageOnLastOnly in Hlast. cbn [removelast forallb] in Hlast.
      apply andb_true_iff in Hlast. destruct Hlast as [Hnone Hlast].
      specialize (IH active1 Hlast).
      destruct (chatLoop verify active1 (next :: rest')) as [outs result].
      simpl in *. unfold usageOf.
      destruct (chunk_usage chunk); [discriminate |].
      now rewrite app_nil_r, onlyAfterUsage_app.
Qed.

Lemma responseDone_classes (event : Js.value) :
  isResponseDone event = true ->
  isTextDelta event = false /\ isReasoningDelta event = false
  /\ isRefusalDelta event = false /\ isToolCallArgumentsDelta event = false
  /\ isToolCallArgumentsDone event = false /\ isOutputItem event = false.
Proof.
  unfold isResponseDone, isOutputItem, isToolCallArgumentsDelta, isToolCallArgumentsDone,
    isTextDelta, isReasoningDelta, isRefusalDelta.
  intros H. repeat split; other_class H.
Qed.

(** One event that carries usage yields the [usage] chunk of the usage it
    reports and nothing else; one that carries none yields no [usage]
    chunk. *)
Lemma processResponsesEvent_usage (h : Handler) (event : Js.value) :
  (carriesUsage event = true ->
   fst (processResponsesEvent h event) = [usageChunk (reportedUsage event)])
  /\ (carriesUsage event = false -> noUsage (fst (processResponsesEvent h event)) = true).
Proof.
  assert (Hparts : forall parts, noUsage (messageTexts parts) = true).
  { unfold noUsage. induction parts as [| content rest IH]; simpl; [reflexivity |].
    rewrite forallb_app, IH.
    now destruct ((Js.eqStr "text" (Js.get "type" content)
                   || Js.eqStr "output_text" (Js.get "type" content))
                  && Js.truthy (Js.get "text" content)). }
  assert (Hitem : forall item, noUsage (outputItemChunks event item) = true).
  { intros item. unfold outputItemChunks.
    destruct (_ && _); [reflexivity |].
    destruct (_ && _); [reflexivity |].
    destruct (_ && _); [destruct (Js.get "content" item); auto |].
    destruct (_ && _); [| reflexivity].
    now destruct (Js.truthy (itemCallId item)). }
  destruct (isResponseDone event) eqn:Hdone.
  { destruct (responseDone_classes event Hdone) as (Ht & Hr & Hf & Hd & Hn & Hi).
    unfold carriesUsage, reportedUsage, processResponsesEvent.
    rewrite Hdone, Ht, Hr, Hf, Hd, Hn, Hi. cbn [fst].
    split; intros ->; reflexivity. }
  unfold carriesUsage, reportedUsage, isKnownEvent, processResponsesEvent. rewrite Hdone.
  destruct (isTextDelta event);
    [cbn; split; [discriminate | intros _];
     destruct (Js.truthy (Js.get "delta" event)); reflexivity |].
  destruct (isReasoningDelta event);
    [cbn; split; [discriminate | intros _];
     destruct (Js.truthy (Js.get "delta" event)); reflexivity |].
  destruct (isRefusalDelta event);
    [cbn; split; [discriminate | intros _];
     destruct (Js.truthy (Js.get "delta" event)); reflexivity |].
  destruct (isToolCallArgumentsDelta event).
  { cbn. split; [discriminate | intros _].
    unfold toolCallArgumentsDelta. now destruct (_ && _). }
  destruct (isToolCallArgumentsDone event); [cbn; split; [discriminate | reflexivity] |].
  destruct (isOutputItem event).
  { cbn [orb Js.truthy]. split; [discriminate | intros _].
    destruct (Js.truthy (Js.get "item" event)); cbn [fst]; auto. }
  cbn [orb].
  destruct (Js.truthy (Js.get "content" (Js.get "delta" (Js.at0 (Js.get "choices" event)))));
    [cbn; split; [discriminate | reflexivity] |].
  split; intros ->; reflexivity.
Qed.

Lemma responsesLoop_usage_last (stream : list Js.value) :
  forall h,
    usageOnLastEventOnly stream = true ->
    onlyAfterUsage (fun _ => false) (fst (responsesLoop h stream)) = true.
Proof.
  induction stream as [| event rest IH]; intros h Hlast; [reflexivity |].
  cbn [responsesLoop].
  destruct (processResponsesEvent_usage h event) as [Hlone Hquiet].
  destruct (processResponsesEvent h event) as [out h1]. simpl in Hlone, Hquiet.
  destruct rest as [| next rest'].
  - simpl. rewrite app_nil_r.
    destruct (carriesUsage event); [now rewrite Hlone |].
    now apply onlyAfterUsage_noUsage, Hquiet.
  - unfold usageOnLastEventOnly in Hlast. cbn [removelast forallb] in Hlast.
    apply andb_true_iff in Hlast. destruct Hlast as [Hnone Hlast].
    apply negb_true_iff in Hnone.
    specialize (IH h1 Hlast).
    destruct (responsesLoop h1 (next :: rest')) as [outs h2]. simpl in *.
    now rewrite onlyAfterUsage_app by auto.
Qed.

Lemma responsesLoop_usage_count (stream : list Js.value) :
  forall h,
    count isUsage (fst (responsesLoop h stream))
    = List.length (filter carriesUsage stream).
Proof.
  induction stream as [| event rest IH]; intros h; [reflexivity |].
  cbn [responsesLoop filter].
  destruct (processResponsesEvent_usage h event) as [Hlone Hquiet].
  destruct (processResponsesEvent h event) as [out h1]. simpl in Hlone, Hquiet.
  specialize (IH h1). destruct (responsesLoop h1 rest) as [outs h2]. simpl in *.
  unfold count in *. rewrite filter_app, length_app, IH.
  destruct (carriesUsage event).
  - now rewrite Hlone.
  - apply noUsage_count in Hquiet; [| reflexivity]. unfold count in Hquiet.
    now rewrite Hquiet.
Qed.

Lemma chatLoop_usage_count (verify : option Choice -> bool) (stream : list ChatChunk) :
  forall active out,
    chatLoop verify active stream = (out, Completed) ->
    count isUsage out
    = List.length (filter (fun chunk => isSome (chunk_usage chunk)) stream).
Proof.
  induction stream as [| chunk rest IH]; intros active out Hrun.
  - simpl in Hrun. injection Hrun as <-. apply noUsage_count.
    destruct (nonEmpty active); [apply noUsage_endAll | reflexivity].
  - cbn [chatLoop] in Hrun.
    destruct (verify (hd_error (choices chunk))); [| discriminate].
    destruct (chatChunk_usage active chunk) as (others & Hout & Hquiet).
    destruct (chatChunk active chunk) as [out1 active1]. simpl in Hout. subst out1.
    destruct (chatLoop verify active1 rest) as [outs result] eqn:Hrest.
    injection Hrun as <- ->.
    specialize (IH active1 outs Hrest).
    unfold count in *. rewrite !filter_app, !length_app.
    apply noUsage_count in Hquiet. unfold count in Hquiet. rewrite Hquiet, IH.
    simpl. unfold usageOf. now destruct (chunk_usage chunk).
Qed.

(** C3, as it holds.  A [usage] chunk is yielded for every raw chunk or
    event that carries usage: a chat chunk whose [usage] is set, after
    whatever else the chunk yields; on the Responses path a done event with
    a [response.usage], or an event of no known type with a top-level
    [usage] and no chat-style content, which then yields that chunk alone.
    The [usage] chunks of a run are as many as the raw chunks or events
    that carry usage.  So when no raw chunk but the last carries usage, at
    most one [usage] chunk is yielded, then nothing on the Responses path
    and nothing but the [tool_call_end] chunks of the final flush on the
    chat path. *)
Theorem usage_follows_its_chunk :
  (forall w h systemPrompt messages metadata,
     (forall request stream,
        chatStream w request = Some stream -> usageOnLastOnly stream = true) ->
     (forall body stream,
        responsesStream w body = Some stream -> usageOnLastEventOnly stream = true) ->
     count isUsage (events (createMessage w h systemPrompt messages metadata)) <= 1
     /\ forall before u after,
          events (createMessage w h systemPrompt messages metadata) = before ++ u :: after ->
          isUsage u = true ->
          forallb isToolCallEnd after = true
          /\ (prefersResponses (modelInfo w) = true -> after = []))
  /\ (forall active chunk,
        exists others,
          fst (chatChunk active chunk) = others ++ usageOf chunk
          /\ noUsage others = true)
  /\ (forall h event,
        (carriesUsage event = true ->
         fst (processResponsesEvent h event) = [usageChunk (reportedUsage event)])
        /\ (carriesUsage event = false ->
            noUsage (fst (processResponsesEvent h event)) = true))
  /\ (forall verify active stream out,
        chatLoop verify active stream = (out, Completed) ->
        count isUsage out
        = List.length (filter (fun chunk => isSome (chunk_usage chunk)) stream))
  /\ (forall h stream,
        count isUsage (fst (responsesLoop h stream))
        = List.length (filter carriesUsage stream)).
Proof.
  assert (Hend : forall c, isToolCallEnd c = true -> isUsage c = false)
    by (intros []; simpl; congruence).
  assert (Hnone : forall c : ApiStreamChunk, false = true -> isUsage c = false)
    by discriminate.
  split; [| split; [| split; [| split]]].
  - intros w h systemPrompt messages metadata Hchat Hresponses.
    destruct (createMessage_events w h systemPrompt messages metadata)
      as [-> | [(Hp & _ & body & stream & Hs & ->) | (Hp & _ & stream & Hs & Hrun)]].
    + split; [unfold count; simpl; lia |].
      intros [] ? ? ?; discriminate.
    + pose proof (responsesLoop_usage_last stream (resetHandler h) (Hresponses _ _ Hs))
        as Hlast.
      split; [exact (onlyAfterUsage_count _ Hnone _ Hlast) |].
      intros before u after Hsplit Hu.
      pose proof (onlyAfterUsage_split _ Hnone _ _ _ _ Hlast Hsplit Hu) as Hafter.
      destruct after; [split; reflexivity | discriminate].
    + replace (events _) with (fst (chatLoop (verifyFinishReason w) [] stream))
        by now rewrite <- Hrun.
      pose proof (chatLoop_usage_last (verifyFinishReason w) stream [] (Hchat _ _ Hs))
        as Hlast.
      split; [exact (onlyAfterUsage_count _ Hend _ Hlast) |].
      intros before u after Hsplit Hu.
      split; [exact (onlyAfterUsage_split _ Hend _ _ _ _ Hlast Hsplit Hu) |].
      congruence.
  - apply chatChunk_usage.
  - intros h event. apply processResponsesEvent_usage.
  - intros verify active stream. apply chatLoop_usage_count.
  - intros h stream. apply responsesLoop_usage_count.
Qed.

Lemma usage_follows_its_chunk_witness :
  let open :=
    mkChatChunk
      [mkChoice (Some (mkDelta None
                         (Some [mkToolCallDelta 0 (Some "c1")
                                  (Some (mkToolCallFunction (Some "lookup") (Some "{}")))])
                         None None))
                None]
      None in
  let last := mkChatChunk [] (Some (mkCompletionUsage 10 5)) in
  let w := scripted someToken chatModel [open; last] [] noCompletion noResponse in
  let completed :=
    Js.object [("type", Js.str "response.completed");
               ("response",
                Js.object [("usage", Js.object [("input_tokens", Js.number 10);
                                                ("output_tokens", Js.number 5)])])] in
  let untyped :=
    Js.object [("choices",
                Js.array [Js.object [("delta", Js.object [("content", Js.str "late")])]]);
               ("usage", Js.object [("input_tokens", Js.number 10)])] in
  count isUsage (events (createMessage w newHandler "" [] None)) <= 1
  /\ forallb isToolCallEnd [tool_call_end (Js.str "c1")] = true
  /\ fst (processResponsesEvent newHandler completed)
     = [usage_chunk (Js.number 10) (Js.number 5)]
  /\ noUsage (fst (processResponsesEvent newHandler untyped)) = true.
Proof.
  intros open last w completed untyped.
  destruct usage_follows_its_chunk as (Hlast & _ & Hevent & _).
  destruct (Hlast w newHandler "" [] None) as [Hcount Hafter].
  - intros request stream [= <-]. reflexivity.
  - intros body stream [= <-]. reflexivity.
  - split; [exact Hcount |]. split.
    + apply (Hafter [toolCallPartial (mkToolCallDelta 0 (Some "c1")
                                        (Some (mkToolCallFunction (Some "lookup")
                                                                  (Some "{}"))))]
                    (usage_chunk (Js.number 10) (Js.number 5)));
        reflexivity.
    + split.
      * apply (proj1 (Hevent newHandler completed)). reflexivity.
      * apply (proj2 (Hevent newHandler untyped)). reflexivity.
Defined.

(** C3, as stated, fails: a stream that reports usage on two chunks gets
    two [usage] chunks with the text of the second chunk in between, and a
    stream that ends on its usage chunk while a tool call is open gets the
    call's [tool_call_end] after the [usage] chunk. *)
Lemma usage_counterexample :
  let early := mkChatChunk [] (Some (mkCompletionUsage 10 5)) in
  let late :=
    mkChatChunk [mkChoice (Some (mkDelta (Some "late") None None None)) None]
                (Some (mkCompletionUsage 10 6)) in
  let open :=
    mkChatChunk
      [mkChoice (Some (mkDelta None
                         (Some [mkToolCallDelta 0 (Some "c1")
                                  (Some (mkToolCallFunction (Some "lookup") (Some "{}")))])
                         None None))
                None]
      None in
  let twice := scripted someToken chatModel [early; late] [] noCompletion noResponse in
  let cut := scripted someToken chatModel [open; early] [] noCompletion noResponse in
  events (createMessage twice newHandler "" [] None)
  = [usage_chunk (Js.number 10) (Js.number 5);
     text_chunk (Js.str "late");
     usage_chunk (Js.number 10) (Js.number 6)]
  /\ ~ count isUsage (events (createMessage twice newHandler "" [] None)) <= 1
  /\ events (createMessage cut newHandler "" [] None)
     = [tool_call_partial (Js.number 0) (Js.str "c1") (Js.str "lookup") (Js.str "{}");
        usage_chunk (Js.number 10) (Js.number 5);
        tool_call_end (Js.str "c1")].
Proof.
  intros early late open twice cut.
  split; [reflexivity | split; [| reflexivity]].
  vm_compute. lia.
Qed.

(* ------------------------------------------------------------------ *)
(** ** The end of tool calls *)

Lemma inSet_setAdd (id x : string) (active : list string) :
  inSet id (setAdd x active) = (x =? id) || inSet id active.
Proof.
  unfold setAdd, inSet. destruct (existsb (String.eqb x) active) eqn:E.
  - destruct (String.eqb_spec x id) as [-> | _]; [now rewrite E | reflexivity].
  - rewrite existsb_app. simpl. rewrite orb_false_r, (String.eqb_sym id x).
    apply orb_comm.
Qed.

Lemma NoDup_setAdd (x : string) (active : list string) :
  NoDup active -> NoDup (setAdd x active).
Proof.
  intros H. unfold setAdd. destruct (existsb (String.eqb x) active) eqn:E; [exact H |].
  apply NoDup_app; [exact H | repeat constructor; intros [] |].
  intros y Hy [-> | []].
  assert (existsb (String.eqb y) active = true)
    by (apply existsb_exists; exists y; split; [exact Hy | apply String.eqb_refl]).
  congruence.
Qed.

Section OneCall.

Variable id : string.
Hypothesis id_set : id <> "".

Lemma toolCallsLoop_active (toolCalls : list ToolCallDelta) :
  forall active,
    inSet id (snd (toolCallsLoop active toolCalls))
    = inSet id active || existsb (carries id) toolCalls
    /\ (NoDup active -> NoDup (snd (toolCallsLoop active toolCalls))).
Proof.
  induction toolCalls as [| toolCall rest IH]; intros active; simpl.
  - now rewrite orb_false_r.
  - match goal with
    | |- context [toolCallsLoop ?a rest] =>
        specialize (IH a); destruct (toolCallsLoop a rest) as [out active2] eqn:E;
        assert (Hin : inSet id a = inSet id active || carries id toolCall);
        [| assert (Hnd : NoDup active -> NoDup a)]
    end.
    + unfold carries. destruct (tc_id toolCall) as [i |];
        [| simpl; now rewrite orb_false_r].
      cbn [Js.ofOption Js.truthy].
      destruct (String.eqb_spec i "") as [-> | _]; cbn [negb].
      * replace ("" =? id) with false
          by (symmetry; apply String.eqb_neq; congruence).
        now rewrite orb_false_r.
      * rewrite inSet_setAdd. apply orb_comm.
    + destruct (Js.truthy (Js.ofOption (tc_id toolCall))); [| auto].
      destruct (tc_id toolCall); [apply NoDup_setAdd | auto].
    + simpl in *. destruct IH as [-> IH]. rewrite Hin, orb_assoc. auto.
Qed.

Lemma activeAfter_inSet (active : list string) (chunk : ChatChunk) :
  inSet id (activeAfter active chunk) = inSet id active || mentionsChunk id chunk
  /\ (NoDup active -> NoDup (activeAfter active chunk)).
Proof.
  unfold activeAfter, mentionsChunk.
  destruct (chunkDelta chunk) as [d |]; [| now rewrite orb_false_r].
  destruct (delta_tool_calls d) as [toolCalls |]; [| now rewrite orb_false_r].
  apply toolCallsLoop_active.
Qed.

Lemma endAll_of_id (active : list string) :
  existsb (isEndOf id) (endAll active) = inSet id active
  /\ (NoDup active ->
      count (isEndOf id) (endAll active) = if inSet id active then 1 else 0).
Proof.
  unfold count, inSet. induction active as [| a rest [IHe IHc]]; simpl; [auto |].
  rewrite IHe, (String.eqb_sym id a). split; [reflexivity |].
  intros Hnd. inversion Hnd as [| ? ? Hnotin Hrest]; subst.
  specialize (IHc Hrest).
  destruct (String.eqb_spec a id) as [-> | _]; simpl; [| exact IHc].
  rewrite IHc.
  replace (existsb (String.eqb id) rest) with false; [reflexivity |].
  symmetry. apply not_true_is_false. intros Hin. apply Hnotin.
  apply existsb_exists in Hin. destruct Hin as (y & Hy & Heq).
  apply String.eqb_eq in Heq. now subst.
Qed.

(** What one chat chunk yields, seen from the call: the chunks before
    the flush hold a fragment of the call exactly if the raw chunk
    carries one and hold no end, the flush ends every active call, and
    the usage chunk is neither. *)
Lemma chatChunk_shape (active : list string) (chunk : ChatChunk) :
  exists front,
    chatChunk active chunk
    = (front
         ++ (if flushes active chunk then endAll (activeAfter active chunk) else [])
         ++ usageOf chunk,
       if flushes active chunk then [] else activeAfter active chunk)
    /\ existsb (isPartialOf id) front = mentionsChunk id chunk
    /\ existsb (isEndOf id) front = false.
Proof.
  unfold chatChunk, flushes, activeAfter, mentionsChunk, usageOf.
  destruct (chunkDelta chunk) as [d |].
  - destruct (delta_tool_calls d) as [toolCalls |].
    + pose proof (toolCallsLoop_out toolCalls active) as Hout.
      destruct (toolCallsLoop active toolCalls) as [toolOut active1].
      simpl in Hout. subst toolOut. simpl.
      exists ((if Js.truthy (Js.ofOption (delta_content d))
               then [text_chunk (Js.ofOption (delta_content d))]
               else [])
              ++ map toolCallPartial toolCalls
              ++ (if Js.truthy (reasoningText (Some d))
                  then [reasoning_chunk (reasoningText (Some d))]
                  else [])).
      split; [now rewrite <- !app_assoc |].
      rewrite !existsb_app.
      assert (Hp : existsb (isPartialOf id) (map toolCallPartial toolCalls)
                   = existsb (carries id) toolCalls).
      { clear. induction toolCalls as [| t rest IH]; simpl; [reflexivity |].
        rewrite IH. unfold carries. now destruct (tc_id t). }
      assert (He : existsb (isEndOf id) (map toolCallPartial toolCalls) = false).
      { clear. induction toolCalls; simpl; auto. }
      rewrite Hp, He.
      destruct (Js.truthy (Js.ofOption (delta_content d)));
        destruct (Js.truthy (reasoningText (Some d))); simpl;
        now rewrite ?orb_false_r.
    + simpl.
      exists ((if Js.truthy (Js.ofOption (delta_content d))
               then [text_chunk (Js.ofOption (delta_content d))]
               else [])
              ++ (if Js.truthy (reasoningText (Some d))
                  then [reasoning_chunk (reasoningText (Some d))]
                  else [])).
      split; [now rewrite <- !app_assoc |].
      rewrite !existsb_app.
      destruct (Js.truthy (Js.ofOption (delta_content d)));
        destruct (Js.truthy (reasoningText (Some d))); auto.
  - simpl. exists []. auto.
Qed.

Lemma usageOf_quiet (chunk : ChatChunk) :
  existsb (isPartialOf id) (usageOf chunk) = false
  /\ existsb (isEndOf id) (usageOf chunk) = false
  /\ count (isEndOf id) (usageOf chunk) = 0.
Proof. unfold usageOf. now destruct (chunk_usage chunk). Qed.

Lemma endAll_no_partial (active : list string) :
  existsb (isPartialOf id) (endAll active) = false.
Proof. induction active; simpl; auto. Qed.

Lemma count_none (p : ApiStreamChunk -> bool) (out : list ApiStreamChunk) :
  existsb p out = false -> count p out = 0.
Proof.
  unfold count. induction out as [| c rest IH]; simpl; [reflexivity |].
  intros H. apply orb_false_iff in H. destruct H as [-> H]. auto.
Qed.

Lemma count_app (p : ApiStreamChunk -> bool) (a b : list ApiStreamChunk) :
  count p (a ++ b) = count p a + count p b.
Proof. unfold count. now rewrite filter_app, length_app. Qed.

Lemma endedAfter_quiet (out : list ApiStreamChunk) :
  existsb (isPartialOf id) out = false -> endedAfter id out = true.
Proof.
  induction out as [| c rest IH]; simpl; [reflexivity |].
  intros H. apply orb_false_iff in H. destruct H as [-> H]. auto.
Qed.

Lemma endedAfter_app (a b : list ApiStreamChunk) :
  endedAfter id b = true ->
  existsb (isEndOf id) b = true \/ endedAfter id a = true ->
  endedAfter id (a ++ b) = true.
Proof.
  intros Hb Hor. induction a as [| c rest IH]; simpl; [exact Hb |].
  rewrite existsb_app.
  destruct Hor as [He | Ha].
  - rewrite He, orb_true_r, IH by auto. now destruct (isPartialOf id c).
  - simpl in Ha. apply andb_true_iff in Ha. destruct Ha as [Hc Ha].
    rewrite IH by auto. destruct (isPartialOf id c); [| reflexivity].
    now rewrite Hc.
Qed.

Lemma endedAfter_split (out before after : list ApiStreamChunk) (p : ApiStreamChunk) :
  endedAfter id out = true ->
  out = before ++ p :: after ->
  isPartialOf id p = true ->
  existsb (isEndOf id) after = true.
Proof.
  intros Hout -> Hp. induction before as [| b rest IH]; simpl in Hout;
    apply andb_true_iff in Hout; destruct Hout as [Hhere Hrest].
  - now rewrite Hp in Hhere.
  - auto.
Qed.

Variable verify : option Choice -> bool.

(** The number of ends of the call, when no chunk carries it again once
    a chunk has finished with ["tool_calls"]. *)
Lemma chatLoop_end_count (stream : list ChatChunk) :
  forall active out,
    NoDup active ->
    chatLoop verify active stream = (out, Completed) ->
    reusedAfterFinish id stream = false ->
    count (isEndOf id) out = if inSet id active || mentions id stream then 1 else 0.
Proof.
  induction stream as [| chunk rest IH]; intros active out Hnd Hrun Hreuse.
  - simpl in Hrun. injection Hrun as <-. simpl. rewrite orb_false_r.
    destruct active; [reflexivity |]. now apply endAll_of_id.
  - cbn [chatLoop] in Hrun.
    destruct (verify (hd_error (choices chunk))); [| discriminate].
    destruct (chatChunk_shape active chunk) as (front & Hshape & _ & Hfront).
    rewrite Hshape in Hrun. clear Hshape.
    destruct (activeAfter_inSet active chunk) as [Hin Hnd1].
    specialize (Hnd1 Hnd).
    simpl in Hreuse. apply orb_false_iff in Hreuse. destruct Hreuse as [Hfinish Hreuse].
    destruct (flushes active chunk) eqn:Hflush.
    + destruct (chatLoop verify [] rest) as [outs result] eqn:Hrest.
      injection Hrun as <- ->.
      specialize (IH [] outs (NoDup_nil _) Hrest Hreuse). simpl in IH.
      unfold flushes in Hflush. apply andb_true_iff in Hflush.
      destruct Hflush as [Hfin _]. rewrite Hfin in Hfinish. simpl in Hfinish.
      rewrite Hfinish in IH.
      rewrite !count_app, IH, (count_none _ _ Hfront),
        (proj2 (proj2 (usageOf_quiet chunk))),
        (proj2 (endAll_of_id _) Hnd1), Hin.
      simpl mentions. rewrite Hfinish, orb_false_r.
      destruct (inSet id active || mentionsChunk id chunk); reflexivity.
    + destruct (chatLoop verify (activeAfter active chunk) rest) as [outs result] eqn:Hrest.
      injection Hrun as <- ->.
      specialize (IH _ outs Hnd1 Hrest Hreuse).
      rewrite !count_app, IH, (count_none _ _ Hfront),
        (proj2 (proj2 (usageOf_quiet chunk))), Hin.
      simpl. now rewrite orb_assoc.
Qed.

(** Every fragment of the call is followed by an end of it, and a call
    that is active when the loop starts gets an end. *)
Lemma chatLoop_ended (stream : list ChatChunk) :
  forall active out,
    chatLoop verify active stream = (out, Completed) ->
    endedAfter id out = true
    /\ (inSet id active = true -> existsb (isEndOf id) out = true).
Proof.
  induction stream as [| chunk rest IH]; intros active out Hrun.
  - simpl in Hrun. injection Hrun as <-.
    destruct active as [| a active']; [split; [reflexivity | discriminate] |].
    cbn [nonEmpty]. split.
    + apply endedAfter_quiet, endAll_no_partial.
    + now rewrite (proj1 (endAll_of_id _)).
  - cbn [chatLoop] in Hrun.
    destruct (verify (hd_error (choices chunk))); [| discriminate].
    destruct (chatChunk_shape active chunk) as (front & Hshape & Hpartial & Hfront).
    rewrite Hshape in Hrun. clear Hshape.
    destruct (activeAfter_inSet active chunk) as [Hin _].
    destruct (usageOf_quiet chunk) as (Hup & Hue & _).
    destruct (flushes active chunk) eqn:Hflush.
    + destruct (chatLoop verify [] rest) as [outs result] eqn:Hrest.
      injection Hrun as <- ->.
      destruct (IH [] outs Hrest) as [IHended _].
      assert (Hends : existsb (isEndOf id)
                        (endAll (activeAfter active chunk) ++ usageOf chunk)
                      = inSet id active || mentionsChunk id chunk)
        by now rewrite existsb_app, (proj1 (endAll_of_id _)), Hue, orb_false_r.
      split.
      * apply endedAfter_app; [exact IHended | right].
        apply endedAfter_app.
        -- apply endedAfter_quiet.
           now rewrite existsb_app, endAll_no_partial, Hup.
        -- destruct (mentionsChunk id chunk) eqn:Hm.
           ++ left. rewrite Hends. apply orb_true_r.
           ++ right. now apply endedAfter_quiet.
      * intros Hactive. rewrite 2 existsb_app, Hends, Hactive, Hfront. reflexivity.
    + destruct (chatLoop verify (activeAfter active chunk) rest) as [outs result] eqn:Hrest.
      injection Hrun as <- ->.
      destruct (IH _ outs Hrest) as [IHended IHactive].
      rewrite Hin in IHactive.
      split.
      * apply endedAfter_app; [exact IHended |].
        destruct (mentionsChunk id chunk) eqn:Hm.
        -- left. apply IHactive, orb_true_r.
        -- right. apply endedAfter_quiet.
           now rewrite !existsb_app, Hpartial, Hup.
      * intros Hactive. rewrite existsb_app, IHactive; [apply orb_true_r |].
        now rewrite Hactive.
Qed.

(** The call has a fragment in the output exactly if a raw chunk
    carries it. *)
Lemma chatLoop_partials (stream : list ChatChunk) :
  forall active out,
    chatLoop verify active stream = (out, Completed) ->
    existsb (isPartialOf id) out = mentions id stream.
Proof.
  induction stream as [| chunk rest IH]; intros active out Hrun.
  - simpl in Hrun. injection Hrun as <-.
    destruct (nonEmpty active); [apply endAll_no_partial | reflexivity].
  - cbn [chatLoop] in Hrun.
    destruct (verify (hd_error (choices chunk))); [| discriminate].
    destruct (chatChunk_shape active chunk) as (front & Hshape & Hpartial & _).
    rewrite Hshape in Hrun. clear Hshape.
    destruct (usageOf_quiet chunk) as (Hup & _ & _).
    match type of Hrun with
    | context [chatLoop verify ?a rest] =>
        destruct (chatLoop verify a rest) as [outs result] eqn:Hrest;
        specialize (IH a outs)
    end.
    injection Hrun as <- ->. rewrite !existsb_app, IH, Hpartial, Hup by assumption.
    simpl. destruct (flushes active chunk);
      now rewrite ?endAll_no_partial, ?orb_false_r.
Qed.

End OneCall.

Lemma processResponsesEvent_no_end (h : Handler) (event : Js.value) :
  existsb isToolCallEnd (fst (processResponsesEvent h event)) = false.
Proof.
  assert (Hparts : forall parts, existsb isToolCallEnd (messageTexts parts) = false).
  { induction parts as [| content rest IH]; simpl; [reflexivity |].
    rewrite existsb_app, IH.
    now destruct ((Js.eqStr "text" (Js.get "type" content)
                   || Js.eqStr "output_text" (Js.get "type" content))
                  && Js.truthy (Js.get "text" content)). }
  assert (Hitem : forall item, existsb isToolCallEnd (outputItemChunks event item) = false).
  { intros item. unfold outputItemChunks.
    destruct (_ && _); [reflexivity |].
    destruct (_ && _); [reflexivity |].
    destruct (_ && _); [destruct (Js.get "content" item); auto |].
    destruct (_ && _); [| reflexivity].
    now destruct (Js.truthy (itemCallId item)). }
  unfold processResponsesEvent.
  destruct (isTextDelta event);
    [simpl; now destruct (Js.truthy (Js.get "delta" event)) |].
  destruct (isReasoningDelta event);
    [simpl; now destruct (Js.truthy (Js.get "delta" event)) |].
  destruct (isRefusalDelta event);
    [simpl; now destruct (Js.truthy (Js.get "delta" event)) |].
  destruct (isToolCallArgumentsDelta event).
  { simpl. unfold toolCallArgumentsDelta. now destruct (_ && _). }
  destruct (isToolCallArgumentsDone event); [reflexivity |].
  destruct (isOutputItem event).
  { destruct (Js.truthy (Js.get "item" event)); simpl; auto. }
  destruct (isResponseDone event).
  { simpl. now destruct (Js.truthy (Js.get "usage" (Js.get "response" event))). }
  destruct (Js.truthy (Js.get "content" (Js.get "delta" (Js.at0 (Js.get "choices" event)))));
    [reflexivity |].
  now destruct (Js.truthy (Js.get "usage" event)).
Qed.

Lemma responsesLoop_no_end (stream : list Js.value) :
  forall h, count isToolCallEnd (fst (responsesLoop h stream)) = 0.
Proof.
  induction stream as [| event rest IH]; intros h; [reflexivity |].
  cbn [responsesLoop].
  pose proof (processResponsesEvent_no_end h event) as Hevent.
  destruct (processResponsesEvent h event) as [out h1].
  specialize (IH h1). destruct (responsesLoop h1 rest) as [outs h2]. simpl in *.
  unfold count in *. rewrite filter_app, length_app, IH.
  clear - Hevent. induction out as [| c out' IHout]; simpl in *; [reflexivity |].
  apply orb_false_iff in Hevent. destruct Hevent as [-> Hevent]. auto.
Qed.

(** C1, as it holds.  On the Responses path [createMessage] yields no
    [tool_call_end] at all.  On the chat path, when the stream runs to its
    end, every [tool_call_partial] that carries a call id is followed by a
    [tool_call_end] of that id, from the flush of a chunk that finishes
    with ["tool_calls"] or else from the flush after the loop; and the id
    gets exactly one [tool_call_end] if no chunk carries it again once a
    chunk has finished with ["tool_calls"]. *)
Theorem tool_calls_are_ended :
  (forall w h systemPrompt messages metadata,
     prefersResponses (modelInfo w) = true ->
     count isToolCallEnd (events (createMessage w h systemPrompt messages metadata)) = 0)
  /\ (forall w h systemPrompt messages metadata id,
        prefersResponses (modelInfo w) = false ->
        outcome (createMessage w h systemPrompt messages metadata) = Completed ->
        id <> "" ->
        (forall before p after,
           events (createMessage w h systemPrompt messages metadata) = before ++ p :: after ->
           isPartialOf id p = true ->
           existsb (isEndOf id) after = true)
        /\ (forall stream,
              chatStream w (chatRequest w systemPrompt messages metadata) = Some stream ->
              existsb (isPartialOf id)
                      (events (createMessage w h systemPrompt messages metadata)) = true ->
              reusedAfterFinish id stream = false ->
              count (isEndOf id) (events (createMessage w h systemPrompt messages metadata))
              = 1)).
Proof.
  split.
  - intros w h systemPrompt messages metadata Hp.
    destruct (createMessage_events w h systemPrompt messages metadata)
      as [-> | [(_ & _ & body & stream & _ & ->) | (Hchat & _)]].
    + reflexivity.
    + apply responsesLoop_no_end.
    + congruence.
  - intros w h systemPrompt messages metadata id Hp Hdone Hid.
    destruct (createMessage_events w h systemPrompt messages metadata)
      as [Hnone | [(Hresp & _) | (_ & _ & stream & Hs & Hrun)]].
    + rewrite Hnone. split.
      * intros [] ? ? ?; discriminate.
      * discriminate.
    + congruence.
    + rewrite Hdone in Hrun. symmetry in Hrun.
      split.
      * intros before p after.
        apply (endedAfter_split id).
        apply (chatLoop_ended id Hid (verifyFinishReason w) stream [] _ Hrun).
      * intros stream' Hs' Hpartial Hreuse.
        assert (stream' = stream) by congruence. subst stream'.
        rewrite (chatLoop_partials id (verifyFinishReason w) stream [] _ Hrun) in Hpartial.
        rewrite (chatLoop_end_count id Hid (verifyFinishReason w) stream [] _
                   (NoDup_nil _) Hrun Hreuse).
        now rewrite Hpartial.
Qed.

Lemma tool_calls_are_ended_witness :
  let fragment :=
    mkToolCallDelta 0 (Some "z9") (Some (mkToolCallFunction (Some "lookup") (Some "{}"))) in
  let cut := [mkChatChunk [mkChoice (Some (mkDelta None (Some [fragment]) None None)) None] None] in
  let chat := scripted someToken chatModel cut [] noCompletion noResponse in
  let responses :=
    scripted someToken responsesModel []
             [Js.object [("type", Js.str "response.function_call_arguments.done");
                         ("call_id", Js.str "t1")]]
             noCompletion noResponse in
  count isToolCallEnd (events (createMessage responses newHandler "" [] None)) = 0
  /\ existsb (isEndOf "z9") [tool_call_end (Js.str "z9")] = true
  /\ count (isEndOf "z9") (events (createMessage chat newHandler "" [] None)) = 1.
Proof.
  intros fragment cut chat responses.
  destruct tool_calls_are_ended as [Hresponses Hchat].
  split; [apply Hresponses; reflexivity |].
  destruct (Hchat chat newHandler "" [] None "z9") as [Hafter Hone];
    [reflexivity | reflexivity | discriminate |].
  split.
  - apply (Hafter [] (toolCallPartial fragment)); reflexivity.
  - apply (Hone cut); reflexivity.
Defined.

(** C1, as stated, fails: on the Responses path a call whose fragments
    were yielded gets no [tool_call_end], whether its stream is cut or
    signals the end of the arguments; and on the chat path a call that is
    carried again after a chunk finished with ["tool_calls"] gets two. *)
Lemma tool_calls_are_ended_counterexample :
  let delta := argumentsDelta [("call_id", Js.str "t1"); ("delta", Js.str "{}")] in
  let done :=
    Js.object [("type", Js.str "response.function_call_arguments.done");
               ("call_id", Js.str "t1")] in
  let responses :=
    scripted someToken responsesModel [] [outputItemAdded "t1" "search"; delta; done]
             noCompletion noResponse in
  let fragment :=
    mkToolCallDelta 0 (Some "c1") (Some (mkToolCallFunction (Some "lookup") (Some "{}"))) in
  let finished :=
    mkChatChunk [mkChoice (Some (mkDelta None (Some [fragment]) None None))
                          (Some "tool_calls")] None in
  let again :=
    mkChatChunk [mkChoice (Some (mkDelta None (Some [fragment]) None None)) None] None in
  let chat := scripted someToken chatModel [finished; again] [] noCompletion noResponse in
  events (createMessage responses newHandler "" [] None)
  = [tool_call_partial (Js.number 0) (Js.str "t1") (Js.str "search") (Js.str "{}")]
  /\ outcome (createMessage responses newHandler "" [] None) = Completed
  /\ count (isEndOf "t1") (events (createMessage responses newHandler "" [] None)) = 0
  /\ outcome (createMessage chat newHandler "" [] None) = Completed
  /\ count (isEndOf "c1") (events (createMessage chat newHandler "" [] None)) = 2.
Proof.
  intros delta done responses fragment finished again chat.
  repeat split.
Qed.

(* ------------------------------------------------------------------ *)
(** ** The previous revision *)

(** The scenario of C4 resolves the same way through the table. *)
Lemma previous_identity_from_table :
  fst (Previous.responsesLoop []
         [outputItemAdded "t1" "search";
          argumentsDelta [("call_id", Js.str "t1"); ("delta", Js.str "{}")]])
  = [tool_call_partial (Js.number 0) (Js.str "t1") (Js.str "search") (Js.str "{}")].
Proof. reflexivity. Qed.

(** A delta that resolves no identity is dropped and leaves the table. *)
Lemma previous_unresolved_delta_is_dropped (table : Previous.Table) (event : Js.value) :
  isToolCallArgumentsDelta event = true ->
  Js.truthy (Js.get "call_id" event) = false ->
  Previous.processResponsesEvent table event = ([], table).
Proof.
  intros Hdelta Hid. unfold Previous.processResponsesEvent.
  replace (Previous.isText event) with false.
  2: { symmetry. unfold Previous.isText, isToolCallArgumentsDelta in *.
       other_class Hdelta. }
  destruct (delta_classes event Hdelta) as (_ & -> & _).
  replace (isOutputItem event) with false.
  2: { symmetry. unfold isOutputItem, isToolCallArgumentsDelta in *.
       other_class Hdelta. }
  rewrite Hdelta, Hid. unfold Js.oror. now rewrite Hid.
Qed.

(** There the table outlives the call that filled it, and a call is ended
    only by the event that says so. *)
Lemma previous_table_outlives_call :
  let earlier := snd (Previous.responsesLoop [] [outputItemAdded "t1" "search"]) in
  let later := [argumentsDelta [("call_id", Js.str "t1"); ("delta", Js.str "{}")]] in
  fst (Previous.responsesLoop [] later) = []
  /\ fst (Previous.responsesLoop earlier later)
     = [tool_call_partial (Js.number 0) (Js.str "t1") (Js.str "search") (Js.str "{}")]
  /\ count isToolCallEnd (fst (Previous.responsesLoop earlier later)) = 0.
Proof. repeat split. Qed.

(* ================================================================== *)
(** * Further properties of the handler *)

(** ** The chat stream, chunk by chunk *)

Lemma chatLoop_passes (verify : option Choice -> bool) (stream : list ChatChunk) :
  forall active out,
    chatLoop verify active stream = (out, Completed) ->
    forallb (passes verify) stream = true.
Proof.
  induction stream as [| chunk rest IH]; intros active out Hrun; [reflexivity |].
  cbn [chatLoop] in Hrun. cbn [forallb]. unfold passes at 1.
  destruct (verify (hd_error (choices chunk))); [| discriminate].
  destruct (chatChunk active chunk) as [out1 active1].
  destruct (chatLoop verify active1 rest) as [outs result] eqn:Hrest.
  injection Hrun as _ ->. simpl. eauto.
Qed.

Lemma chatLoop_fold (verify : option Choice -> bool) (stream : list ChatChunk) :
  forall active,
    forallb (passes verify) stream = true ->
    chatLoop verify active stream
    = (fst (chatFold active stream) ++ finalFlush (snd (chatFold active stream)),
       Completed).
Proof.
  induction stream as [| chunk rest IH]; intros active Hpass; [reflexivity |].
  cbn [forallb] in Hpass. apply andb_true_iff in Hpass. destruct Hpass as [Hchunk Hrest].
  unfold passes in Hchunk. cbn [chatLoop chatFold]. rewrite Hchunk.
  destruct (chatChunk active chunk) as [out1 active1].
  rewrite (IH active1 Hrest).
  destruct (chatFold active1 rest) as [outs active2]. simpl.
  now rewrite app_assoc.
Qed.

Lemma chatLoop_rejected (verify : option Choice -> bool) (before : list ChatChunk) :
  forall active chunk after,
    forallb (passes verify) before = true ->
    passes verify chunk = false ->
    chatLoop verify active (before ++ chunk :: after)
    = (fst (chatFold active before), Threw finishReasonFailure).
Proof.
  induction before as [| b rest IH]; intros active chunk after Hpass Hfail.
  - unfold passes in Hfail. simpl. now rewrite Hfail.
  - cbn [forallb] in Hpass. apply andb_true_iff in Hpass. destruct Hpass as [Hb Hrest].
    unfold passes in Hb. cbn [app chatLoop chatFold]. rewrite Hb.
    destruct (chatChunk active b) as [out1 active1].
    rewrite (IH active1 chunk after Hrest Hfail).
    now destruct (chatFold active1 rest).
Qed.

(** X1.  The chat loop yields what its body yields chunk by chunk and then
    ends the calls left active; the first chunk that [verifyFinishReason]
    rejects stops it: nothing of that chunk or of a later one is yielded,
    and the calls that are active then get no [tool_call_end]. *)
Theorem chat_stream_outcomes (verify : option Choice -> bool) (active : list string) :
  (forall stream,
     forallb (passes verify) stream = true ->
     chatLoop verify active stream
     = (fst (chatFold active stream) ++ finalFlush (snd (chatFold active stream)),
        Completed))
  /\ (forall before chunk after,
        forallb (passes verify) before = true ->
        passes verify chunk = false ->
        chatLoop verify active (before ++ chunk :: after)
        = (fst (chatFold active before), Threw finishReasonFailure))
  /\ (forall stream out,
        chatLoop verify active stream = (out, Completed) ->
        forallb (passes verify) stream = true).
Proof.
  split; [| split].
  - intros stream. apply chatLoop_fold.
  - intros before chunk after. apply chatLoop_rejected.
  - intros stream out. apply chatLoop_passes.
Qed.

Lemma chat_stream_outcomes_witness :
  let fragment :=
    mkToolCallDelta 0 (Some "c1") (Some (mkToolCallFunction (Some "lookup") (Some "{}"))) in
  let open := mkChatChunk [mkChoice (Some (mkDelta None (Some [fragment]) None None)) None] None in
  let cut := mkChatChunk [mkChoice None (Some "length")] (Some (mkCompletionUsage 1 2)) in
  let verify := fun choice : option Choice =>
                  match choice with
                  | Some c => negb (isSome (finish_reason c))
                  | None => true
                  end in
  chatLoop verify [] [open; cut; open]
  = ([toolCallPartial fragment], Threw finishReasonFailure)
  /\ chatLoop verify [] [open]
     = ([toolCallPartial fragment; tool_call_end (Js.str "c1")], Completed).
Proof.
  intros fragment open cut verify.
  destruct (chat_stream_outcomes verify []) as (Hdone & Hcut & _).
  split.
  - apply (Hcut [open] cut [open]); reflexivity.
  - apply (Hdone [open]). reflexivity.
Defined.

Lemma notEnd_endAll (active : list string) :
  filter (fun c => negb (isToolCallEnd c)) (endAll active) = [].
Proof. induction active; simpl; auto. Qed.

Lemma notEnd_partials (toolCalls : list ToolCallDelta) :
  filter (fun c => negb (isToolCallEnd c)) (map toolCallPartial toolCalls)
  = map toolCallPartial toolCalls.
Proof. induction toolCalls; simpl; [reflexivity | now f_equal]. Qed.

Lemma chatChunk_yields (active : list string) (chunk : ChatChunk) :
  filter (fun c => negb (isToolCallEnd c)) (fst (chatChunk active chunk))
  = chunkYields chunk.
Proof.
  destruct (chatChunk_out active chunk) as (ends & Hends & ->).
  unfold chunkYields, usageOf. rewrite !filter_app.
  replace (filter (fun c => negb (isToolCallEnd c)) ends) with (@nil ApiStreamChunk)
    by (destruct Hends as [-> | ->]; [reflexivity | now rewrite notEnd_endAll]).
  f_equal; [| f_equal; [| f_equal]].
  - destruct (chunkContent chunk) as [s |]; [| reflexivity].
    now destruct (negb (s =? "")).
  - destruct (chunkDelta chunk) as [d |]; [| reflexivity].
    destruct (delta_tool_calls d); [apply notEnd_partials | reflexivity].
  - now destruct (Js.truthy (reasoningText (chunkDelta chunk))).
  - now destruct (chunk_usage chunk).
Qed.

Lemma chatFold_yields (stream : list ChatChunk) :
  forall active,
    filter (fun c => negb (isToolCallEnd c)) (fst (chatFold active stream))
    = flat_map chunkYields stream.
Proof.
  induction stream as [| chunk rest IH]; intros active; [reflexivity |].
  cbn [chatFold flat_map].
  pose proof (chatChunk_yields active chunk) as Hchunk.
  destruct (chatChunk active chunk) as [out1 active1].
  specialize (IH active1). destruct (chatFold active1 rest) as [outs active2].
  simpl in *. now rewrite filter_app, Hchunk, IH.
Qed.

Lemma createMessage_chat_run (w : World) (h : Handler) (systemPrompt : string)
    (messages : list Message) (metadata : option Metadata) :
  prefersResponses (modelInfo w) = false ->
  outcome (createMessage w h systemPrompt messages metadata) = Completed ->
  exists stream,
    chatStream w (chatRequest w systemPrompt messages metadata) = Some stream
    /\ chatLoop (verifyFinishReason w) [] stream
       = (events (createMessage w h systemPrompt messages metadata), Completed).
Proof.
  unfold createMessage. intros Hp.
  destruct (getClientWithBase (getValid w)); [| discriminate].
  rewrite Hp.
  destruct (chatStream w _) as [stream |]; [| discriminate].
  destruct (chatLoop (verifyFinishReason w) [] stream) as [out result] eqn:Hrun. simpl.
  intros ->. exists stream. now rewrite Hrun.
Qed.

(** X2.  When a chat stream runs to its end, what [createMessage] yields,
    its [tool_call_end] chunks left aside, is the text, the tool-call
    fragments, the reasoning and the usage of each raw chunk, chunk after
    chunk: no fragment is dropped, repeated, reordered or rewritten. *)
Theorem chat_yields_in_order (w : World) (h : Handler) (systemPrompt : string)
    (messages : list Message) (metadata : option Metadata) (stream : list ChatChunk) :
  prefersResponses (modelInfo w) = false ->
  chatStream w (chatRequest w systemPrompt messages metadata) = Some stream ->
  outcome (createMessage w h systemPrompt messages metadata) = Completed ->
  filter (fun c => negb (isToolCallEnd c))
         (events (createMessage w h systemPrompt messages metadata))
  = flat_map chunkYields stream.
Proof.
  intros Hp Hs Hdone.
  destruct (createMessage_chat_run w h systemPrompt messages metadata Hp Hdone)
    as (stream' & Hs' & Hrun).
  assert (stream' = stream) by congruence. subst stream'.
  rewrite (chatLoop_fold _ _ _ (chatLoop_passes _ _ _ _ Hrun)) in Hrun.
  injection Hrun as <-.
  rewrite filter_app, chatFold_yields.
  unfold finalFlush. destruct (nonEmpty _); [rewrite notEnd_endAll |]; apply app_nil_r.
Qed.

Lemma chat_yields_in_order_witness :
  let first :=
    mkToolCallDelta 0 (Some "c1") (Some (mkToolCallFunction (Some "lookup") (Some "{q:"))) in
  let next := mkToolCallDelta 0 None (Some (mkToolCallFunction None (Some "1}"))) in
  let stream :=
    [mkChatChunk [mkChoice (Some (mkDelta (Some "Hi") None None None)) None] None;
     mkChatChunk [mkChoice (Some (mkDelta None (Some [first]) None None)) None] None;
     mkChatChunk [mkChoice (Some (mkDelta None (Some [next]) None None)) (Some "tool_calls")]
                 (Some (mkCompletionUsage 10 5))] in
  let w := scripted someToken chatModel stream [] noCompletion noResponse in
  filter (fun c => negb (isToolCallEnd c)) (events (createMessage w newHandler "" [] None))
  = [text_chunk (Js.str "Hi");
     tool_call_partial (Js.number 0) (Js.str "c1") (Js.str "lookup") (Js.str "{q:");
     tool_call_partial (Js.number 0) Js.undefined Js.undefined (Js.str "1}");
     usage_chunk (Js.number 10) (Js.number 5)].
Proof.
  intros first next stream w.
  apply (chat_yields_in_order w newHandler "" [] None stream); reflexivity.
Defined.

(** ** Every end has a start *)

Lemma chatChunk_parts (active : list string) (chunk : ChatChunk) :
  chatChunk active chunk
  = ((match chunkContent chunk with
      | Some s => if negb (s =? "") then [text_chunk (Js.str s)] else []
      | None => []
      end)
       ++ (match chunkDelta chunk with
           | Some d =>
               match delta_tool_calls d with
               | Some toolCalls => map toolCallPartial toolCalls
               | None => []
               end
           | None => []
           end)
       ++ (if Js.truthy (reasoningText (chunkDelta chunk))
           then [reasoning_chunk (reasoningText (chunkDelta chunk))]
           else [])
       ++ (if flushes active chunk then endAll (activeAfter active chunk) else [])
       ++ usageOf chunk,
     if flushes active chunk then [] else activeAfter active chunk).
Proof.
  unfold chatChunk, flushes, activeAfter, chunkContent, usageOf.
  destruct (chunkDelta chunk) as [d |]; simpl.
  - destruct (delta_tool_calls d) as [toolCalls |].
    + pose proof (toolCallsLoop_out toolCalls active) as Hout.
      destruct (toolCallsLoop active toolCalls) as [toolOut active1].
      simpl in *. subst toolOut. now destruct (delta_content d).
    + now destruct (delta_content d).
  - reflexivity.
Qed.

Lemma In_inSet (id : string) (active : list string) :
  In id active <-> inSet id active = true.
Proof.
  unfold inSet. rewrite existsb_exists. split.
  - intros H. exists id. split; [exact H | apply String.eqb_refl].
  - intros (x & Hx & Heq). apply String.eqb_eq in Heq. now subst.
Qed.

Lemma toolCallsLoop_set (toolCalls : list ToolCallDelta) :
  forall active,
    Forall (fun id => id <> "") active ->
    Forall (fun id => id <> "") (snd (toolCallsLoop active toolCalls)).
Proof.
  induction toolCalls as [| toolCall rest IH]; intros active Hset; simpl; [exact Hset |].
  match goal with
  | |- context [toolCallsLoop ?a rest] =>
      assert (Ha : Forall (fun id => id <> "") a);
      [| specialize (IH a Ha); destruct (toolCallsLoop a rest); exact IH]
  end.
  destruct (tc_id toolCall) as [i |]; simpl; [| exact Hset].
  destruct (String.eqb_spec i "") as [-> | Hi]; simpl; [exact Hset |].
  unfold setAdd. destruct (existsb (String.eqb i) active); [exact Hset |].
  apply Forall_app. split; [exact Hset | repeat constructor; exact Hi].
Qed.

Lemma activeAfter_members (active : list string) (chunk : ChatChunk) :
  Forall (fun id => id <> "") active ->
  Forall (fun id => id <> ""
                    /\ (inSet id active = true \/ mentionsChunk id chunk = true))
         (activeAfter active chunk).
Proof.
  intros Hset.
  assert (Hafter : Forall (fun id => id <> "") (activeAfter active chunk)).
  { unfold activeAfter. destruct (chunkDelta chunk) as [d |]; [| exact Hset].
    destruct (delta_tool_calls d); [now apply toolCallsLoop_set | exact Hset]. }
  rewrite Forall_forall in *. intros id Hin. split; [now apply Hafter |].
  apply orb_true_iff.
  rewrite <- (proj1 (activeAfter_inSet id (Hafter id Hin) active chunk)).
  now apply In_inSet.
Qed.

Lemma endsStarted_mono (out : list ApiStreamChunk) :
  forall started started',
    (forall id, inSet id started = true -> inSet id started' = true) ->
    endsStarted started out = true ->
    endsStarted started' out = true.
Proof.
  induction out as [| c rest IH]; intros started started' Hsub; [reflexivity |].
  assert (Hcons : forall i id, inSet id (i :: started) = true ->
                               inSet id (i :: started') = true).
  { intros i id. unfold inSet in *. simpl. intros H.
    apply orb_true_iff in H. destruct H as [-> | H]; [reflexivity |].
    rewrite (Hsub id H). apply orb_true_r. }
  destruct c as [| | index id name arguments | | id |]; simpl; eauto.
  - destruct id; eauto.
  - destruct id; eauto. intros H.
    apply andb_true_iff in H. destruct H as [H Hrest].
    apply andb_true_iff in H. destruct H as [-> H].
    rewrite (Hsub _ H). simpl. eauto.
Qed.

Lemma endsStarted_endAll (active started : list string) (out : list ApiStreamChunk) :
  Forall (fun id => id <> "" /\ inSet id started = true) active ->
  endsStarted started (endAll active ++ out) = endsStarted started out.
Proof.
  induction 1 as [| id rest [Hid Hin] _ IH]; simpl; [reflexivity |].
  rewrite Hin, IH. now apply String.eqb_neq in Hid as ->.
Qed.

(** The ids that the fragments push onto the started ones. *)
Lemma endsStarted_partials (toolCalls : list ToolCallDelta) (out : list ApiStreamChunk) :
  forall started,
    exists started',
      endsStarted started (map toolCallPartial toolCalls ++ out) = endsStarted started' out
      /\ forall id, inSet id started' = inSet id started || existsb (carries id) toolCalls.
Proof.
  induction toolCalls as [| toolCall rest IH]; intros started.
  - exists started. split; [reflexivity |]. intros id. now rewrite orb_false_r.
  - cbn [map app]. unfold toolCallPartial at 1.
    destruct (tc_id toolCall) as [i |] eqn:E; cbn [Js.ofOption endsStarted].
    + destruct (IH (i :: started)) as (started' & Heq & Hin).
      exists started'. split; [exact Heq |].
      intros id. rewrite Hin. cbn [existsb]. unfold carries at 2. rewrite E.
      unfold inSet. simpl.
      rewrite (String.eqb_sym id i), orb_assoc.
      f_equal. apply orb_comm.
    + destruct (IH started) as (started' & Heq & Hin).
      exists started'. split; [exact Heq |].
      intros id. rewrite Hin. cbn [existsb]. unfold carries at 2. now rewrite E.
Qed.

Lemma chatLoop_endsStarted (verify : option Choice -> bool) (stream : list ChatChunk) :
  forall active started,
    Forall (fun id => id <> "") active ->
    (forall id, inSet id active = true -> inSet id started = true) ->
    endsStarted started (fst (chatLoop verify active stream)) = true.
Proof.
  induction stream as [| chunk rest IH]; intros active started Hset Hsub.
  - simpl. destruct active as [| a active']; [reflexivity |]. cbn [nonEmpty].
    rewrite <- (app_nil_r (endAll _)), endsStarted_endAll; [reflexivity |].
    rewrite Forall_forall in *. intros id Hin. split; [now apply Hset |].
    now apply Hsub, In_inSet.
  - cbn [chatLoop]. destruct (verify (hd_error (choices chunk))); [| reflexivity].
    rewrite chatChunk_parts.
    pose proof (activeAfter_members active chunk Hset) as Hmembers.
    match goal with
    | |- context [chatLoop verify ?a rest] =>
        specialize (IH a); destruct (chatLoop verify a rest) as [outs result]
    end.
    cbn [fst] in *. rewrite <- !app_assoc.
    (* the text *)
    assert (Htext : forall l started0,
              endsStarted started0
                ((match chunkContent chunk with
                  | Some s => if negb (s =? "") then [text_chunk (Js.str s)] else []
                  | None => []
                  end) ++ l)
              = endsStarted started0 l).
    { intros l started0. destruct (chunkContent chunk) as [s |]; [| reflexivity].
      now destruct (negb (s =? "")). }
    rewrite Htext.
    (* the fragments *)
    assert (Hfragments : exists started',
              endsStarted started
                ((match chunkDelta chunk with
                  | Some d =>
                      match delta_tool_calls d with
                      | Some toolCalls => map toolCallPartial toolCalls
                      | None => []
                      end
                  | None => []
                  end)
                   ++ (if Js.truthy (reasoningText (chunkDelta chunk))
                       then [reasoning_chunk (reasoningText (chunkDelta chunk))]
                       else [])
                   ++ (if flushes active chunk
                       then endAll (activeAfter active chunk) else [])
                   ++ usageOf chunk ++ outs)
              = endsStarted started'
                  ((if flushes active chunk
                    then endAll (activeAfter active chunk) else [])
                     ++ outs)
              /\ forall id, inSet id started'
                            = inSet id started || mentionsChunk id chunk).
    { assert (Hquiet : forall l started0,
                endsStarted started0
                  ((if Js.truthy (reasoningText (chunkDelta chunk))
                    then [reasoning_chunk (reasoningText (chunkDelta chunk))]
                    else [])
                     ++ (if flushes active chunk
                         then endAll (activeAfter active chunk) else [])
                     ++ usageOf chunk ++ l)
                = endsStarted started0
                    ((if flushes active chunk
                      then endAll (activeAfter active chunk) else [])
                       ++ l)).
      { intros l started0.
        assert (Husage : forall started1,
                  endsStarted started1 (usageOf chunk ++ l) = endsStarted started1 l)
          by (intros; unfold usageOf; now destruct (chunk_usage chunk)).
        assert (Hends : forall started1,
                  endsStarted started1
                    ((if flushes active chunk
                      then endAll (activeAfter active chunk) else [])
                       ++ usageOf chunk ++ l)
                  = endsStarted started1
                      ((if flushes active chunk
                        then endAll (activeAfter active chunk) else [])
                         ++ l)).
        { intros started1. destruct (flushes active chunk); [| apply Husage].
          generalize (activeAfter active chunk) as ids.
          induction ids as [| i ids IHids]; [apply Husage |].
          simpl. now rewrite IHids. }
        destruct (Js.truthy (reasoningText (chunkDelta chunk))); simpl; apply Hends. }
      unfold mentionsChunk.
      destruct (chunkDelta chunk) as [d |];
        [destruct (delta_tool_calls d) as [toolCalls |] |].
      - destruct (endsStarted_partials toolCalls
                    ((if Js.truthy (reasoningText (Some d))
                      then [reasoning_chunk (reasoningText (Some d))]
                      else [])
                       ++ (if flushes active chunk
                           then endAll (activeAfter active chunk) else [])
                       ++ usageOf chunk ++ outs) started)
          as (started' & Heq & Hin).
        exists started'. rewrite Heq, Hquiet. auto.
      - exists started. cbn [app]. rewrite Hquiet. split; [reflexivity |].
        intros id. now rewrite orb_false_r.
      - exists started. cbn [app]. rewrite Hquiet. split; [reflexivity |].
        intros id. now rewrite orb_false_r. }
    destruct Hfragments as (started' & -> & Hin).
    assert (Hknown : Forall (fun id => id <> "" /\ inSet id started' = true)
                            (activeAfter active chunk)).
    { eapply Forall_impl; [| exact Hmembers].
      cbn beta. intros id [Hid Hor]. split; [exact Hid |].
      rewrite Hin. destruct Hor as [Ha | ->]; [| apply orb_true_r].
      now rewrite (Hsub id Ha). }
    destruct (flushes active chunk).
    + rewrite endsStarted_endAll by exact Hknown.
      apply IH; [constructor | discriminate].
    + apply IH.
      * eapply Forall_impl; [| exact Hknown]. now intros id [Hid _].
      * intros id Hid. apply In_inSet in Hid.
        rewrite Forall_forall in Hknown. now apply Hknown.
Qed.

Lemma endsStarted_split (out : list ApiStreamChunk) :
  forall started before id after,
    endsStarted started out = true ->
    out = before ++ tool_call_end id :: after ->
    exists s,
      id = Js.str s /\ s <> ""
      /\ (inSet s started = true \/ existsb (isPartialOf s) before = true).
Proof.
  intros started before. revert started out.
  induction before as [| b rest IH]; intros started out id after Hout ->.
  - simpl in Hout. destruct id; try discriminate.
    apply andb_true_iff in Hout. destruct Hout as [Hout _].
    apply andb_true_iff in Hout. destruct Hout as [Hs Hin].
    exists s. repeat split; [| now left].
    now apply String.eqb_neq, negb_true_iff.
  - cbn [app] in Hout.
    assert (Hkeep : forall s,
              inSet s started = true \/ existsb (isPartialOf s) rest = true ->
              inSet s started = true \/ existsb (isPartialOf s) (b :: rest) = true).
    { intros s [H | H]; [now left | right]. simpl. rewrite H. apply orb_true_r. }
    destruct b as [| | index pid name arguments | | eid |]; cbn [endsStarted] in Hout.
    1, 2, 4, 6:
      destruct (IH started _ id after Hout eq_refl) as (s & -> & Hs & Hor);
      exists s; auto.
    + destruct pid;
        try (destruct (IH started _ id after Hout eq_refl) as (s' & -> & Hs & Hor);
             exists s'; auto).
      destruct (IH (s :: started) _ id after Hout eq_refl) as (s' & -> & Hs & Hor).
      exists s'. repeat split; [exact Hs |].
      destruct Hor as [Hin | Hin].
      * unfold inSet in Hin. simpl in Hin. apply orb_true_iff in Hin.
        destruct Hin as [Heq | Hin]; [right | now left].
        simpl. rewrite (String.eqb_sym s s'), Heq. reflexivity.
      * right. simpl. rewrite Hin. apply orb_true_r.
    + destruct eid; try discriminate.
      apply andb_true_iff in Hout. destruct Hout as [_ Hout].
      destruct (IH started _ id after Hout eq_refl) as (s' & -> & Hs & Hor).
      exists s'. auto.
Qed.

(** X3.  On either path, a [tool_call_end] that [createMessage] yields is
    for a non-empty string id, and a [tool_call_partial] of that id comes
    before it: the handler never ends a call it has not started. *)
Theorem end_has_a_start (w : World) (h : Handler) (systemPrompt : string)
    (messages : list Message) (metadata : option Metadata)
    (before after : list ApiStreamChunk) (id : Js.value) :
  events (createMessage w h systemPrompt messages metadata)
  = before ++ tool_call_end id :: after ->
  exists s,
    id = Js.str s /\ s <> "" /\ existsb (isPartialOf s) before = true.
Proof.
  intros Hsplit.
  destruct (createMessage_events w h systemPrompt messages metadata)
    as [Hnone | [(_ & _ & body & stream & _ & Hout) | (_ & _ & stream & _ & Hrun)]].
  - rewrite Hnone in Hsplit. destruct before; discriminate.
  - pose proof (responsesLoop_no_end stream (resetHandler h)) as Hcount.
    rewrite <- Hout, Hsplit in Hcount. unfold count in Hcount.
    rewrite filter_app, length_app in Hcount. simpl in Hcount. lia.
  - assert (Hout : events (createMessage w h systemPrompt messages metadata)
                   = fst (chatLoop (verifyFinishReason w) [] stream))
      by now rewrite <- Hrun.
    pose proof (chatLoop_endsStarted (verifyFinishReason w) stream [] []
                  (Forall_nil _) (fun id H => H)) as Hstarted.
    rewrite <- Hout in Hstarted.
    destruct (endsStarted_split _ [] before id after Hstarted Hsplit)
      as (s & Hid & Hs & [Hin | Hin]); [discriminate |].
    exists s. auto.
Qed.

Lemma end_has_a_start_witness :
  let fragment :=
    mkToolCallDelta 0 (Some "z9") (Some (mkToolCallFunction (Some "lookup") (Some "{}"))) in
  let cut := [mkChatChunk [mkChoice (Some (mkDelta None (Some [fragment]) None None)) None] None] in
  let w := scripted someToken chatModel cut [] noCompletion noResponse in
  exists s,
    Js.str "z9" = Js.str s /\ s <> ""
    /\ existsb (isPartialOf s) [toolCallPartial fragment] = true.
Proof.
  intros fragment cut w.
  apply (end_has_a_start w newHandler "" [] None [toolCallPartial fragment] []).
  reflexivity.
Defined.

(* ------------------------------------------------------------------ *)
(** ** The Responses stream, event by event *)

Lemma messageTexts_toolChunks (parts : list Js.value) :
  forallb toolChunkComplete (messageTexts parts) = true.
Proof.
  induction parts as [| content rest IH]; simpl; [reflexivity |].
  rewrite forallb_app, IH.
  now destruct ((Js.eqStr "text" (Js.get "type" content)
                 || Js.eqStr "output_text" (Js.get "type" content))
                && Js.truthy (Js.get "text" content)).
Qed.

Lemma processResponsesEvent_toolChunks (h : Handler) (event : Js.value) :
  forallb toolChunkComplete (fst (processResponsesEvent h event)) = true.
Proof.
  unfold processResponsesEvent.
  destruct (isTextDelta event);
    [simpl; now destruct (Js.truthy (Js.get "delta" event)) |].
  destruct (isReasoningDelta event);
    [simpl; now destruct (Js.truthy (Js.get "delta" event)) |].
  destruct (isRefusalDelta event);
    [simpl; now destruct (Js.truthy (Js.get "delta" event)) |].
  destruct (isToolCallArgumentsDelta event).
  { simpl. unfold toolCallArgumentsDelta.
    destruct (Js.isNonEmptyString (resolveName _ event)
              && Js.isNonEmptyString (resolveCallId _ event)) eqn:E; [| reflexivity].
    simpl. apply andb_true_iff in E. destruct E as [-> ->]. reflexivity. }
  destruct (isToolCallArgumentsDone event); [reflexivity |].
  destruct (isOutputItem event).
  { destruct (Js.truthy (Js.get "item" event)); [| reflexivity]. simpl.
    unfold outputItemChunks. set (item := Js.get "item" event).
    destruct (_ && _); [reflexivity |].
    destruct (_ && _); [reflexivity |].
    destruct (_ && _).
    { destruct (Js.get "content" item); try reflexivity. apply messageTexts_toolChunks. }
    destruct (_ && _); [| reflexivity].
    destruct (Js.truthy (itemCallId item)) eqn:E; [| reflexivity].
    cbn [forallb toolChunkComplete]. rewrite E.
    match goal with
    | |- context [if Js.isString ?a then _ else _] =>
        destruct (Js.isString a) eqn:Ha; [now rewrite Ha | reflexivity]
    end. }
  destruct (isResponseDone event).
  { simpl. now destruct (Js.truthy (Js.get "usage" (Js.get "response" event))). }
  destruct (Js.truthy (Js.get "content" (Js.get "delta" (Js.at0 (Js.get "choices" event)))));
    [reflexivity |].
  now destruct (Js.truthy (Js.get "usage" event)).
Qed.

(** X4.  On the Responses path every [tool_call_partial] that
    [createMessage] yields names its call with a non-empty string id and a
    non-empty string name, and every [tool_call] has an id that is set and
    its arguments as a string. *)
Theorem responses_tool_chunks_complete (w : World) (h : Handler) (systemPrompt : string)
    (messages : list Message) (metadata : option Metadata) :
  prefersResponses (modelInfo w) = true ->
  forallb toolChunkComplete (events (createMessage w h systemPrompt messages metadata))
  = true.
Proof.
  intros Hp.
  destruct (createMessage_events w h systemPrompt messages metadata)
    as [-> | [(_ & _ & body & stream & _ & ->) | (Hchat & _)]];
    [reflexivity | | congruence].
  apply forallb_forall, Forall_forall.
  apply responsesLoop_Forall with (Q := fun _ => True).
  - intros h' event _. apply Forall_forall, forallb_forall.
    apply processResponsesEvent_toolChunks.
  - apply Forall_forall. trivial.
Qed.

Lemma responses_tool_chunks_complete_witness :
  let done :=
    Js.object [("type", Js.str "response.output_item.done");
               ("item", Js.object [("type", Js.str "function_call");
                                   ("call_id", Js.str "t1");
                                   ("name", Js.str "search")])] in
  let w := scripted someToken responsesModel []
             [argumentsDelta [("call_id", Js.str "t1"); ("delta", Js.str "{}")]; done]
             noCompletion noResponse in
  forallb toolChunkComplete [tool_call (Js.str "t1") (Js.str "search") (Js.str "{}")] = true.
Proof.
  intros done w.
  apply (responses_tool_chunks_complete w newHandler "" [] None). reflexivity.
Defined.

Lemma toolCallArgumentsDelta_pending (h1 h2 : Handler) (event : Js.value) :
  pendingToolCallId h1 = pendingToolCallId h2 ->
  pendingToolCallName h1 = pendingToolCallName h2 ->
  toolCallArgumentsDelta h1 event = toolCallArgumentsDelta h2 event.
Proof.
  intros Hid Hname. unfold toolCallArgumentsDelta, resolveCallId, resolveName.
  now rewrite Hid, Hname.
Qed.

Lemma captureIdentity_pending (h1 h2 : Handler) (item : Js.value) :
  pendingToolCallId h1 = pendingToolCallId h2 ->
  pendingToolCallName h1 = pendingToolCallName h2 ->
  pendingToolCallId (captureIdentity h1 item) = pendingToolCallId (captureIdentity h2 item)
  /\ pendingToolCallName (captureIdentity h1 item)
     = pendingToolCallName (captureIdentity h2 item).
Proof.
  intros Hid Hname. unfold captureIdentity.
  destruct (isCallItem item); [| auto].
  destruct (Js.isNonEmptyString (itemCallId item)); simpl; auto.
Qed.

Lemma processResponsesEvent_pending (h1 h2 : Handler) (event : Js.value) :
  pendingToolCallId h1 = pendingToolCallId h2 ->
  pendingToolCallName h1 = pendingToolCallName h2 ->
  fst (processResponsesEvent h1 event) = fst (processResponsesEvent h2 event)
  /\ pendingToolCallId (snd (processResponsesEvent h1 event))
     = pendingToolCallId (snd (processResponsesEvent h2 event))
  /\ pendingToolCallName (snd (processResponsesEvent h1 event))
     = pendingToolCallName (snd (processResponsesEvent h2 event)).
Proof.
  intros Hid Hname.
  destruct (captureResponse_pending h1 event) as [Hid1 Hname1].
  destruct (captureResponse_pending h2 event) as [Hid2 Hname2].
  assert (Hcid : pendingToolCallId (captureResponse h1 event)
                 = pendingToolCallId (captureResponse h2 event)) by congruence.
  assert (Hcname : pendingToolCallName (captureResponse h1 event)
                   = pendingToolCallName (captureResponse h2 event)) by congruence.
  unfold processResponsesEvent.
  destruct (isTextDelta event); [cbn [fst snd]; auto |].
  destruct (isReasoningDelta event); [cbn [fst snd]; auto |].
  destruct (isRefusalDelta event); [cbn [fst snd]; auto |].
  destruct (isToolCallArgumentsDelta event).
  { cbn [fst snd]. split; [now apply toolCallArgumentsDelta_pending | auto]. }
  destruct (isToolCallArgumentsDone event); [cbn [fst snd]; auto |].
  destruct (isOutputItem event).
  { destruct (Js.truthy (Js.get "item" event)); cbn [fst snd]; [| auto].
    split; [reflexivity | now apply captureIdentity_pending]. }
  destruct (isResponseDone event); [cbn [fst snd]; auto |].
  destruct (Js.truthy (Js.get "content" (Js.get "delta" (Js.at0 (Js.get "choices" event)))));
    [cbn [fst snd]; auto |].
  destruct (Js.truthy (Js.get "usage" event)); cbn [fst snd]; auto.
Qed.

(** X5.  What the Responses interpreter yields depends on the handler
    only through the pending call identity: from two handler states with
    the same pending id and name a stream yields the same chunks and leaves
    the same pending identity, whatever response id and response output
    the two states hold.  An event that is no tool-call-arguments delta
    yields the same chunks from any two handler states. *)
Theorem responses_output_reads_pending_only :
  (forall stream h1 h2,
     pendingToolCallId h1 = pendingToolCallId h2 ->
     pendingToolCallName h1 = pendingToolCallName h2 ->
     fst (responsesLoop h1 stream) = fst (responsesLoop h2 stream)
     /\ pendingToolCallId (snd (responsesLoop h1 stream))
        = pendingToolCallId (snd (responsesLoop h2 stream))
     /\ pendingToolCallName (snd (responsesLoop h1 stream))
        = pendingToolCallName (snd (responsesLoop h2 stream)))
  /\ (forall h1 h2 event,
        isToolCallArgumentsDelta event = false ->
        fst (processResponsesEvent h1 event) = fst (processResponsesEvent h2 event)).
Proof.
  split.
  - induction stream as [| event rest IH]; intros h1 h2 Hid Hname; [cbn; auto |].
    cbn [responsesLoop].
    destruct (processResponsesEvent_pending h1 h2 event Hid Hname) as (Hout & Hid' & Hname').
    destruct (processResponsesEvent h1 event) as [out1 h1'].
    destruct (processResponsesEvent h2 event) as [out2 h2'].
    cbn [fst snd] in Hout, Hid', Hname'. subst out2.
    destruct (IH h1' h2' Hid' Hname') as (Houts & Hid'' & Hname'').
    destruct (responsesLoop h1' rest) as [outs1 h1''].
    destruct (responsesLoop h2' rest) as [outs2 h2''].
    cbn [fst snd] in *. subst outs2. auto.
  - intros h1 h2 event Hdelta. unfold processResponsesEvent. rewrite Hdelta.
    repeat match goal with
           | |- context [if ?b then (_, _) else _] => destruct b
           end; reflexivity.
Qed.

Lemma responses_output_reads_pending_only_witness :
  let stale := mkHandler (Js.str "resp_0") (Js.array [Js.str "old"])
                         (Js.str "t1") (Js.str "search") in
  let fresh := mkHandler Js.undefined Js.undefined (Js.str "t1") (Js.str "search") in
  let stream := [argumentsDelta [("delta", Js.str "{}")]; textDelta (Js.str "Hi")] in
  fst (responsesLoop stale stream) = fst (responsesLoop fresh stream)
  /\ fst (processResponsesEvent stale (textDelta (Js.str "Hi")))
     = fst (processResponsesEvent newHandler (textDelta (Js.str "Hi"))).
Proof.
  intros stale fresh stream.
  destruct responses_output_reads_pending_only as [Hloop Hevent].
  split.
  - apply (Hloop stream stale fresh); reflexivity.
  - apply Hevent. reflexivity.
Defined.

Lemma captureIdentity_response (h : Handler) (item : Js.value) :
  lastResponseId (captureIdentity h item) = lastResponseId h
  /\ lastResponseOutput (captureIdentity h item) = lastResponseOutput h.
Proof.
  unfold captureIdentity.
  destruct (isCallItem item); [| auto].
  destruct (Js.isNonEmptyString (itemCallId item)); auto.
Qed.

Lemma captureResponse_response (h : Handler) (event : Js.value) :
  lastResponseId (captureResponse h event)
  = match responseIdOf event with Some v => v | None => lastResponseId h end
  /\ lastResponseOutput (captureResponse h event)
     = match responseOutputOf event with Some v => v | None => lastResponseOutput h end.
Proof.
  unfold captureResponse, responseIdOf, responseOutputOf.
  destruct (Js.truthy (Js.get "output" (Js.get "response" event))
            && Js.isArray (Js.get "output" (Js.get "response" event)));
    destruct (Js.truthy (Js.get "id" (Js.get "response" event))); auto.
Qed.

Lemma processResponsesEvent_state (h : Handler) (event : Js.value) :
  snd (processResponsesEvent h event) = captureResponse h event
  \/ (isOutputItem event = true /\ Js.truthy (Js.get "item" event) = true
      /\ snd (processResponsesEvent h event)
         = captureIdentity (captureResponse h event) (Js.get "item" event)).
Proof.
  destruct (isOutputItem event) eqn:Hitem.
  - rewrite (processResponsesEvent_outputItem h event Hitem).
    destruct (Js.truthy (Js.get "item" event)); simpl; auto.
  - left. unfold processResponsesEvent. rewrite Hitem.
    repeat match goal with
           | |- context [if ?b then (_, _) else _] => destruct b
           end; reflexivity.
Qed.

Lemma processResponsesEvent_captures (h : Handler) (event : Js.value) :
  lastResponseId (snd (processResponsesEvent h event))
  = match responseIdOf event with Some v => v | None => lastResponseId h end
  /\ lastResponseOutput (snd (processResponsesEvent h event))
     = match responseOutputOf event with Some v => v | None => lastResponseOutput h end
  /\ pendingToolCallId (snd (processResponsesEvent h event))
     = match recordedId event with Some v => v | None => pendingToolCallId h end.
Proof.
  destruct (captureResponse_response h event) as [Hid Hout].
  destruct (captureResponse_pending h event) as [Hpending _].
  unfold recordedId.
  destruct (isOutputItem event) eqn:Hitem.
  - rewrite (processResponsesEvent_outputItem h event Hitem).
    destruct (Js.truthy (Js.get "item" event)); cbn [snd andb];
      [| repeat split; assumption].
    destruct (captureIdentity_response (captureResponse h event) (Js.get "item" event))
      as [-> ->].
    repeat split; [exact Hid | exact Hout |].
    unfold captureIdentity.
    destruct (isCallItem (Js.get "item" event)); [| exact Hpending].
    destruct (Js.isNonEmptyString (itemCallId (Js.get "item" event)));
      [reflexivity | exact Hpending].
  - destruct (processResponsesEvent_state h event) as [-> | (Habs & _)];
      [| congruence].
    repeat split; assumption.
Qed.

Lemma responsesLoop_captures (stream : list Js.value) :
  forall h,
    lastResponseId (snd (responsesLoop h stream))
    = latest responseIdOf (lastResponseId h) stream
    /\ lastResponseOutput (snd (responsesLoop h stream))
       = latest responseOutputOf (lastResponseOutput h) stream
    /\ pendingToolCallId (snd (responsesLoop h stream))
       = latest recordedId (pendingToolCallId h) stream.
Proof.
  induction stream as [| event rest IH]; intros h; [now repeat split |].
  cbn [responsesLoop latest].
  destruct (processResponsesEvent_captures h event) as (Hid & Hout & Hpending).
  destruct (processResponsesEvent h event) as [out h1].
  specialize (IH h1). destruct (responsesLoop h1 rest) as [outs h2].
  simpl in *. now rewrite <- Hid, <- Hout, <- Hpending.
Qed.

Lemma signedIn_client (token : option Token) :
  signedIn token = true ->
  exists key,
    token = Some (mkToken (Some key)) /\ key <> ""
    /\ getClientWithBase token = inl (mkClient key).
Proof.
  destruct token as [[[key |]] |]; simpl; try discriminate.
  unfold truthyS. simpl. destruct (String.eqb_spec key "") as [-> | Hkey];
    [discriminate |].
  intros _. exists key. auto.
Qed.

Lemma createMessage_responses_run (w : World) (h : Handler) (systemPrompt : string)
    (messages : list Message) (metadata : option Metadata) (stream : list Js.value) :
  signedIn (getValid w) = true ->
  prefersResponses (modelInfo w) = true ->
  toolsReadable metadata = true ->
  responsesStream w
    (buildResponsesRequestBody w
       (formatFullConversation (sanitizeOpenAiCallId w) (JSON_stringify w) messages)
       systemPrompt metadata) = Some stream ->
  events (createMessage w h systemPrompt messages metadata)
  = fst (responsesLoop (resetHandler h) stream)
  /\ handlerAfter (createMessage w h systemPrompt messages metadata)
     = snd (responsesLoop (resetHandler h) stream)
  /\ outcome (createMessage w h systemPrompt messages metadata) = Completed.
Proof.
  intros Hin Hp Hread Hs. destruct (signedIn_client _ Hin) as (key & _ & _ & Hclient).
  unfold createMessage. rewrite Hclient, Hp, Hread, Hs.
  now destruct (responsesLoop (resetHandler h) stream).
Qed.

(** X6.  After a call on the Responses path, for tools the body builder
    can read, the handler holds the id and the output array of the latest
    event of the stream that carried one, and as pending call id the one of
    the latest output item that carried one; events that carry none leave
    them, and what an earlier call left is gone.  A call on the chat path
    leaves the handler as it found it. *)
Theorem handler_keeps_the_latest (w : World) (h : Handler) (systemPrompt : string)
    (messages : list Message) (metadata : option Metadata) :
  (forall stream,
     signedIn (getValid w) = true ->
     prefersResponses (modelInfo w) = true ->
     toolsReadable metadata = true ->
     responsesStream w
       (buildResponsesRequestBody w
          (formatFullConversation (sanitizeOpenAiCallId w) (JSON_stringify w) messages)
          systemPrompt metadata) = Some stream ->
     lastResponseId (handlerAfter (createMessage w h systemPrompt messages metadata))
     = latest responseIdOf Js.undefined stream
     /\ lastResponseOutput (handlerAfter (createMessage w h systemPrompt messages metadata))
        = latest responseOutputOf Js.undefined stream
     /\ pendingToolCallId (handlerAfter (createMessage w h systemPrompt messages metadata))
        = latest recordedId Js.undefined stream)
  /\ (prefersResponses (modelInfo w) = false ->
      handlerAfter (createMessage w h systemPrompt messages metadata) = h).
Proof.
  split.
  - intros stream Hin Hp Hread Hs.
    destruct (createMessage_responses_run w h systemPrompt messages metadata stream
                Hin Hp Hread Hs) as (_ & -> & _).
    apply (responsesLoop_captures stream (resetHandler h)).
  - intros Hp. unfold createMessage. rewrite Hp.
    destruct (getClientWithBase (getValid w)); [| reflexivity].
    destruct (chatStream w _); [| reflexivity].
    now destruct (chatLoop _ _ _).
Qed.

Lemma handler_keeps_the_latest_witness :
  let created :=
    Js.object [("type", Js.str "response.created");
               ("response", Js.object [("id", Js.str "resp_1")])] in
  let completed :=
    Js.object [("type", Js.str "response.completed");
               ("response", Js.object [("id", Js.str "resp_2");
                                       ("output", Js.array [Js.str "item"])])] in
  let stream := [created; outputItemAdded "t1" "search"; textDelta (Js.str "Hi"); completed] in
  let w := scripted someToken responsesModel [] stream noCompletion noResponse in
  let stale := mkHandler (Js.str "resp_0") Js.undefined (Js.str "t0") (Js.str "old") in
  lastResponseId (handlerAfter (createMessage w stale "" [] None)) = Js.str "resp_2"
  /\ lastResponseOutput (handlerAfter (createMessage w stale "" [] None))
     = Js.array [Js.str "item"]
  /\ pendingToolCallId (handlerAfter (createMessage w stale "" [] None)) = Js.str "t1"
  /\ handlerAfter (createMessage
                     (scripted someToken chatModel [] [] noCompletion noResponse)
                     stale "" [] None) = stale.
Proof.
  intros created completed stream w stale.
  destruct (handler_keeps_the_latest w stale "" [] None) as [Hresponses _].
  destruct (Hresponses stream eq_refl eq_refl eq_refl eq_refl) as (Hid & Hout & Hpending).
  split; [exact Hid | split; [exact Hout | split; [exact Hpending |]]].
  apply (handler_keeps_the_latest
           (scripted someToken chatModel [] [] noCompletion noResponse) stale "" [] None).
  reflexivity.
Defined.

(** X7.  One event yields at most one chunk, but for an output item of
    type message, which yields at most one chunk for each part of its
    content. *)
Theorem event_yield_bound (h : Handler) (event : Js.value) :
  List.length (fst (processResponsesEvent h event))
  <= match Js.get "content" (Js.get "item" event) with
     | Js.array parts => Nat.max 1 (List.length parts)
     | _ => 1
     end.
Proof.
  assert (Hparts : forall parts, List.length (messageTexts parts) <= List.length parts).
  { induction parts as [| content rest IH]; simpl; [lia |].
    rewrite length_app.
    destruct ((Js.eqStr "text" (Js.get "type" content)
               || Js.eqStr "output_text" (Js.get "type" content))
              && Js.truthy (Js.get "text" content)); simpl; lia. }
  assert (Hone : 1 <= match Js.get "content" (Js.get "item" event) with
                      | Js.array parts => Nat.max 1 (List.length parts)
                      | _ => 1
                      end)
    by (destruct (Js.get "content" (Js.get "item" event)); lia).
  unfold processResponsesEvent.
  destruct (isTextDelta event);
    [destruct (Js.truthy (Js.get "delta" event)); cbn [fst List.length]; lia |].
  destruct (isReasoningDelta event);
    [destruct (Js.truthy (Js.get "delta" event)); cbn [fst List.length]; lia |].
  destruct (isRefusalDelta event);
    [destruct (Js.truthy (Js.get "delta" event)); cbn [fst List.length]; lia |].
  destruct (isToolCallArgumentsDelta event).
  { unfold toolCallArgumentsDelta. destruct (_ && _); cbn [fst List.length]; lia. }
  destruct (isToolCallArgumentsDone event); [cbn [fst List.length]; lia |].
  destruct (isOutputItem event).
  { destruct (Js.truthy (Js.get "item" event)); cbn [fst List.length]; [| lia].
    unfold outputItemChunks.
    destruct (_ && _); [cbn [List.length]; lia |].
    destruct (_ && _); [cbn [List.length]; lia |].
    destruct (_ && _).
    { destruct (Js.get "content" (Js.get "item" event)); cbn [List.length]; try lia.
      specialize (Hparts items). lia. }
    destruct (_ && _); [| cbn [List.length]; lia].
    destruct (Js.truthy (itemCallId (Js.get "item" event))); cbn [List.length]; lia. }
  destruct (isResponseDone event).
  { destruct (Js.truthy (Js.get "usage" (Js.get "response" event)));
      cbn [fst List.length]; lia. }
  destruct (Js.truthy (Js.get "content" (Js.get "delta" (Js.at0 (Js.get "choices" event)))));
    [cbn [fst List.length]; lia |].
  destruct (Js.truthy (Js.get "usage" event)); cbn [fst List.length]; lia.
Qed.

(* ------------------------------------------------------------------ *)
(** ** The requests *)

(** X8.  A call of [createMessage] that has a token, and on the Responses
    path tools the body builder can read, sends one request and no more,
    whatever the provider answers: to the Responses endpoint when the model
    prefers it, to the chat endpoint otherwise, with the token as its key.
    When the provider rejects the request nothing is yielded and the call
    throws the provider's failure, named after the path. *)
Theorem one_request_per_call (w : World) (h : Handler) (systemPrompt : string)
    (messages : list Message) (metadata : option Metadata) (key : string) :
  getValid w = Some (mkToken (Some key)) ->
  key <> "" ->
  (prefersResponses (modelInfo w) = true -> toolsReadable metadata = true) ->
  calls (createMessage w h systemPrompt messages metadata)
  = [if prefersResponses (modelInfo w)
     then responsesCreate (mkClient key)
            (buildResponsesRequestBody w
               (formatFullConversation (sanitizeOpenAiCallId w) (JSON_stringify w) messages)
               systemPrompt metadata)
     else chatCompletionsCreate (mkClient key)
            (chatRequest w systemPrompt messages metadata)]
  /\ (prefersResponses (modelInfo w) = true ->
      responsesStream w
        (buildResponsesRequestBody w
           (formatFullConversation (sanitizeOpenAiCallId w) (JSON_stringify w) messages)
           systemPrompt metadata) = None ->
      events (createMessage w h systemPrompt messages metadata) = []
      /\ outcome (createMessage w h systemPrompt messages metadata)
         = Threw (providerFailure "Oracle Code Assist (Responses API)"))
  /\ (prefersResponses (modelInfo w) = false ->
      chatStream w (chatRequest w systemPrompt messages metadata) = None ->
      events (createMessage w h systemPrompt messages metadata) = []
      /\ outcome (createMessage w h systemPrompt messages metadata)
         = Threw (providerFailure "Oracle Code Assist")).
Proof.
  intros Htoken Hkey Hread.
  assert (Hclient : getClientWithBase (getValid w) = inl (mkClient key)).
  { rewrite Htoken. simpl. now apply String.eqb_neq in Hkey as ->. }
  unfold createMessage. rewrite Hclient.
  destruct (prefersResponses (modelInfo w)).
  - rewrite (Hread eq_refl).
    destruct (responsesStream w _) as [stream |];
      [destruct (responsesLoop (resetHandler h) stream) |];
      repeat split; try discriminate; auto.
  - destruct (chatStream w _) as [stream |];
      [destruct (chatLoop (verifyFinishReason w) [] stream) |];
      repeat split; try discriminate; auto.
Qed.

Lemma one_request_per_call_witness :
  let w := mkWorld someToken (mkOptions None) responsesModel (fun _ => true)
                   (fun ts => ts) (fun id => id) (fun _ => "{}")
                   (fun _ => None) (fun _ => None) (fun _ => None) (fun _ => None) in
  List.length (calls (createMessage w newHandler "system" [] None)) = 1
  /\ events (createMessage w newHandler "system" [] None) = []
  /\ outcome (createMessage w newHandler "system" [] None)
     = Threw (providerFailure "Oracle Code Assist (Responses API)").
Proof.
  intros w.
  destruct (one_request_per_call w newHandler "system" [] None "secret")
    as (Hcalls & Hrejected & _); [reflexivity | discriminate | reflexivity |].
  split; [now rewrite Hcalls | apply Hrejected; reflexivity].
Defined.

(** X9.  The chat request carries tools exactly when native tools are in
    use, and [parallel_tool_calls] exactly then; its tool choice is then
    ["required"] or a named function, never ["auto"], ["none"] or unset.
    Native tools are not in use when the caller chose ["none"], asked for
    the xml protocol or gave no tool, and the tool choice is then the
    caller's, unchanged. *)
Theorem chat_tools_gate (w : World) (systemPrompt : string) (messages : list Message)
    (metadata : option Metadata) :
  isSome (chat_tools (chatRequest w systemPrompt messages metadata))
  = useNativeTools (modelInfo w) metadata
  /\ isSome (chat_parallel_tool_calls (chatRequest w systemPrompt messages metadata))
     = useNativeTools (modelInfo w) metadata
  /\ (useNativeTools (modelInfo w) metadata = true ->
      chat_tool_choice (chatRequest w systemPrompt messages metadata) = Some choiceRequired
      \/ exists name,
           chat_tool_choice (chatRequest w systemPrompt messages metadata)
           = Some (choiceFunction name))
  /\ (useNativeTools (modelInfo w) metadata = false ->
      chat_tool_choice (chatRequest w systemPrompt messages metadata)
      = requestedToolChoice metadata)
  /\ (forall m,
        metadata = Some m ->
        tool_choice m = Some choiceNone \/ toolProtocol m = Some "xml"
        \/ tools m = None \/ tools m = Some [] ->
        useNativeTools (modelInfo w) metadata = false).
Proof.
  unfold chatRequest, finalToolChoice. cbn [chat_tools chat_parallel_tool_calls chat_tool_choice].
  split; [| split; [| split; [| split]]].
  - destruct (useNativeTools (modelInfo w) metadata) eqn:Hnative; [| reflexivity].
    unfold useNativeTools in Hnative.
    destruct metadata as [m |]; [| now rewrite andb_false_r in Hnative].
    destruct (tools m); [reflexivity |].
    now rewrite !andb_false_r in Hnative.
  - now destruct (useNativeTools (modelInfo w) metadata).
  - intros Hnative. rewrite Hnative. cbn [andb].
    unfold useNativeTools in Hnative.
    apply andb_true_iff in Hnative. destruct Hnative as [_ Hnone].
    destruct (requestedToolChoice metadata) as [[| | | name] |]; simpl in *;
      try discriminate; eauto.
  - now intros ->.
  - intros m -> Hor. unfold useNativeTools. simpl.
    destruct Hor as [-> | [-> | [-> | ->]]]; simpl;
      rewrite ?andb_false_r; reflexivity.
Qed.

Lemma chat_tools_gate_witness :
  let w := scripted someToken chatModel [] [] noCompletion noResponse in
  let named := Some (mkMetadata (Some [Js.null]) (Some (choiceFunction "search")) None None) in
  let xml := Some (mkMetadata (Some [Js.null]) (Some choiceAuto) (Some "xml") None) in
  (chat_tool_choice (chatRequest w "" [] named) = Some choiceRequired
   \/ exists name, chat_tool_choice (chatRequest w "" [] named) = Some (choiceFunction name))
  /\ chat_tool_choice (chatRequest w "" [] xml) = Some choiceAuto
  /\ useNativeTools (modelInfo w) xml = false.
Proof.
  intros w named xml.
  destruct (chat_tools_gate w "" [] named) as (_ & _ & Hnative & _).
  destruct (chat_tools_gate w "" [] xml) as (_ & _ & _ & Hplain & Hoff).
  split; [apply Hnative; reflexivity |].
  split; [apply Hplain; reflexivity |].
  apply (Hoff (mkMetadata (Some [Js.null]) (Some choiceAuto) (Some "xml") None));
    [reflexivity | right; left; reflexivity].
Defined.

(* ------------------------------------------------------------------ *)
(** ** The call ids of the formatted conversation *)

Section CallIds.

Variable sanitize : string -> string.
Variable stringify : Js.value -> string.

Lemma callIds_app (a b : list InputItem) : callIds (a ++ b) = callIds a ++ callIds b.
Proof. unfold callIds. apply flat_map_app. Qed.

Lemma userBlocks_callIds (blocks : list Block) :
  forall content toolResults,
    callIds (snd (userBlocks sanitize blocks content toolResults))
    = callIds toolResults
        ++ map sanitize (rawCallIds (userMessage (blockContent blocks))).
Proof.
  induction blocks as [| block rest IH]; intros content toolResults; simpl.
  - now rewrite app_nil_r.
  - destruct block; simpl; rewrite IH; try reflexivity.
    rewrite callIds_app, <- app_assoc. reflexivity.
Qed.

Lemma assistantBlocks_callIds (blocks : list Block) :
  forall content toolCalls,
    callIds (snd (assistantBlocks sanitize stringify blocks content toolCalls))
    = callIds toolCalls
        ++ map sanitize (rawCallIds (assistantMessage (blockContent blocks))).
Proof.
  induction blocks as [| block rest IH]; intros content toolCalls; simpl.
  - now rewrite app_nil_r.
  - destruct block; simpl; rewrite IH; try reflexivity.
    rewrite callIds_app, <- app_assoc. reflexivity.
Qed.

Lemma pushMessage_callIds (role : Role) (content : list ContentPart)
    (items : list InputItem) :
  callIds (pushMessage role content items) = callIds items.
Proof.
  unfold pushMessage. rewrite callIds_app.
  replace (if nonEmpty items then items else []) with items by now destruct items.
  now destruct content.
Qed.

Lemma formatMessage_callIds (m : Message) :
  callIds (formatMessage sanitize stringify m) = map sanitize (rawCallIds m).
Proof.
  destruct m as [r | c | c |]; simpl; try reflexivity.
  - destruct c as [s | blocks |]; try reflexivity.
    pose proof (userBlocks_callIds blocks [] []) as H.
    destruct (userBlocks sanitize blocks [] []) as [content toolResults].
    now rewrite pushMessage_callIds.
  - destruct c as [s | blocks |]; try reflexivity.
    pose proof (assistantBlocks_callIds blocks [] []) as H.
    destruct (assistantBlocks sanitize stringify blocks [] []) as [content toolCalls].
    now rewrite pushMessage_callIds.
Qed.

End CallIds.

(** X10.  The call ids of the formatted conversation are the sanitized ids
    of the tool results of the user messages and of the tool uses of the
    assistant messages, in the order of the source: no such block is
    dropped or repeated, and no id goes out unsanitized. *)
Theorem call_ids_are_sanitized (sanitize : string -> string)
    (stringify : Js.value -> string) (messages : list Message) :
  callIds (formatFullConversation sanitize stringify messages)
  = map sanitize (flat_map rawCallIds messages).
Proof.
  induction messages as [| m rest IH]; [reflexivity |].
  cbn [formatFullConversation flat_map].
  now rewrite callIds_app, map_app, IH, formatMessage_callIds.
Qed.

(** X11.  The output of a tool result given as blocks is the texts of its
    text blocks put end to end: the other blocks add nothing, and the
    output of two lists of blocks joined is the two outputs joined. *)
Theorem tool_result_is_flattened :
  (forall before after,
     resultOutput (resultBlocks (before ++ after))
     = (resultOutput (resultBlocks before) ++ resultOutput (resultBlocks after))%string)
  /\ (forall texts,
        resultOutput (resultBlocks (map resultText texts)) = String.concat "" texts)
  /\ (forall blocks,
        resultOutput (resultBlocks (resultOther :: blocks))
        = resultOutput (resultBlocks blocks)).
Proof.
  assert (Hjoin : forall blocks, resultOutput (resultBlocks blocks) = joinResult blocks).
  { intros blocks. simpl. destruct (String.eqb_spec (joinResult blocks) "") as [-> | _];
      reflexivity. }
  assert (Happ : forall a b c, ((a ++ b) ++ c = a ++ (b ++ c))%string).
  { induction a; simpl; intros; [reflexivity | now f_equal]. }
  split; [| split].
  - intros before after. rewrite !Hjoin.
    induction before as [| [t |] rest IH]; simpl; [reflexivity | | exact IH].
    now rewrite IH, Happ.
  - intros texts. rewrite Hjoin.
    induction texts as [| t rest IH]; simpl; [reflexivity |].
    rewrite IH. destruct rest as [| t' rest']; simpl; [| reflexivity].
    clear. induction t; simpl; [reflexivity | now f_equal].
  - intros blocks. now rewrite !Hjoin.
Qed.

(* ------------------------------------------------------------------ *)
(** ** The model and the reasoning settings *)

(** X12.  The reasoning effort is the user's setting when there is one and
    the model's default otherwise; it is never empty and never
    ["disable"], and a user's ["disable"] turns it off whatever the model's
    default. *)
Theorem reasoning_effort_selection (settings : Settings) (info : CachedInfo) :
  (forall e,
     getReasoningEffort settings info = Some e ->
     e <> "" /\ e <> "disable"
     /\ (option_reasoningEffort settings = Some e
         \/ (option_reasoningEffort settings = None /\ info_reasoningEffort info = Some e)))
  /\ (forall e,
        option_reasoningEffort settings = Some e ->
        getReasoningEffort settings info
        = if (e =? "") || (e =? "disable") then None else Some e)
  /\ (option_reasoningEffort settings = None ->
      getReasoningEffort settings info
      = match info_reasoningEffort info with
        | Some e => if (e =? "") || (e =? "disable") then None else Some e
        | None => None
        end).
Proof.
  unfold getReasoningEffort. split; [| split].
  - intros e.
    destruct (option_reasoningEffort settings) as [u |]; simpl.
    + destruct (String.eqb_spec u ""); [discriminate |].
      destruct (String.eqb_spec u "disable"); [discriminate |].
      intros [= <-]. auto.
    + destruct (info_reasoningEffort info) as [d |]; [| discriminate].
      destruct (String.eqb_spec d ""); [discriminate |].
      destruct (String.eqb_spec d "disable"); [discriminate |].
      intros [= <-]. auto.
  - intros e ->. simpl. now destruct (e =? ""), (e =? "disable").
  - intros ->. simpl. destruct (info_reasoningEffort info) as [e |]; [| reflexivity].
    now destruct (e =? ""), (e =? "disable").
Qed.

Lemma reasoning_effort_selection_witness :
  let info :=
    mkCachedInfo None None None None None None None None Js.undefined
                 (Some "medium") None None None in
  getReasoningEffort (mkSettings None (Some "disable") None None) info = None
  /\ getReasoningEffort (mkSettings None (Some "high") None None) info = Some "high"
  /\ getReasoningEffort (mkSettings None None None None) info = Some "medium".
Proof.
  intros info.
  split; [| split].
  - apply (proj1 (proj2 (reasoning_effort_selection
                           (mkSettings None (Some "disable") None None) info))
                 "disable" eq_refl).
  - apply (proj1 (proj2 (reasoning_effort_selection
                           (mkSettings None (Some "high") None None) info))
                 "high" eq_refl).
  - apply (proj2 (proj2 (reasoning_effort_selection (mkSettings None None None None) info))
                 eq_refl).
Defined.

Lemma getModel_unknown (options : Options) (settings : Settings)
    (cached : option (list (string * CachedInfo))) (defaults : CachedInfo) :
  modelIdOf options = "auto"
  \/ (forall models, cached = Some models -> cacheLookup (modelIdOf options) models = None) ->
  getModel options settings cached defaults
  = (modelIdOf options,
     mkCachedInfo (orElse (modelMaxTokens settings) (Some 4096%Z)) (Some 128000%Z)
                  (Some true) (Some false) None None None None Js.undefined None
                  (info_supportsNativeTools defaults)
                  (info_supportsTemperature defaults)
                  (info_promptCacheRetention defaults)).
Proof.
  intros Hnone. unfold getModel.
  set (selected := if negb (modelIdOf options =? "auto")
                   then match cached with
                        | Some models => cacheLookup (modelIdOf options) models
                        | None => None
                        end
                   else None).
  assert (Hselected : selected = None).
  { subst selected. destruct Hnone as [-> | Hunknown]; [reflexivity |].
    destruct (negb (modelIdOf options =? "auto")); [| reflexivity].
    destruct cached as [models |]; [now apply Hunknown | reflexivity]. }
  rewrite Hselected. cbn. now destruct (modelMaxTokens settings).
Qed.

(** X13.  [getModel] always fills in the token limit, the context window
    and the two support flags.  For a model the cache knows, the token
    limit is the user's, else the entry's, else 4096; the context window,
    image support and prompt-cache support are the entry's, else 128000,
    yes and no; the description, the banner, the API types and the
    reasoning settings are the entry's as they are.  The cache is not read
    for the model ["auto"], and an id the cache does not know gives the
    same result: the defaults alone.  Native-tool support, temperature
    support and the prompt-cache retention are those of
    [NATIVE_TOOL_DEFAULTS], whatever the cache entry says. *)
Theorem getModel_fills_defaults (options : Options) (settings : Settings)
    (cached : option (list (string * CachedInfo))) (defaults : CachedInfo) :
  fst (getModel options settings cached defaults) = modelIdOf options
  /\ (exists limit window images cache,
        info_maxTokens (snd (getModel options settings cached defaults)) = Some limit
        /\ info_contextWindow (snd (getModel options settings cached defaults)) = Some window
        /\ info_supportsImages (snd (getModel options settings cached defaults)) = Some images
        /\ info_supportsPromptCache (snd (getModel options settings cached defaults))
           = Some cache)
  /\ (forall limit,
        modelMaxTokens settings = Some limit ->
        info_maxTokens (snd (getModel options settings cached defaults)) = Some limit)
  /\ (modelIdOf options = "auto"
      \/ (forall models, cached = Some models -> cacheLookup (modelIdOf options) models = None) ->
      getModel options settings cached defaults
      = (modelIdOf options,
         mkCachedInfo (orElse (modelMaxTokens settings) (Some 4096%Z)) (Some 128000%Z)
                      (Some true) (Some false) None None None None Js.undefined None
                      (info_supportsNativeTools defaults)
                      (info_supportsTemperature defaults)
                      (info_promptCacheRetention defaults)))
  /\ (forall models info,
        modelIdOf options <> "auto" ->
        cached = Some models ->
        cacheLookup (modelIdOf options) models = Some info ->
        info_apiType (snd (getModel options settings cached defaults)) = info_apiType info
        /\ info_supportedApiTypes (snd (getModel options settings cached defaults))
           = info_supportedApiTypes info
        /\ info_reasoningEffort (snd (getModel options settings cached defaults))
           = info_reasoningEffort info
        /\ info_maxTokens (snd (getModel options settings cached defaults))
           = orElse (modelMaxTokens settings) (orElse (info_maxTokens info) (Some 4096%Z))
        /\ info_contextWindow (snd (getModel options settings cached defaults))
           = orElse (info_contextWindow info) (Some 128000%Z)
        /\ info_supportsImages (snd (getModel options settings cached defaults))
           = orElse (info_supportsImages info) (Some true)
        /\ info_supportsPromptCache (snd (getModel options settings cached defaults))
           = orElse (info_supportsPromptCache info) (Some false)
        /\ info_description (snd (getModel options settings cached defaults))
           = info_description info
        /\ info_banner (snd (getModel options settings cached defaults)) = info_banner info
        /\ info_supportsReasoningEffort (snd (getModel options settings cached defaults))
           = info_supportsReasoningEffort info)
  /\ (info_supportsNativeTools (snd (getModel options settings cached defaults))
      = info_supportsNativeTools defaults
      /\ info_supportsTemperature (snd (getModel options settings cached defaults))
         = info_supportsTemperature defaults
      /\ info_promptCacheRetention (snd (getModel options settings cached defaults))
         = info_promptCacheRetention defaults).
Proof.
  pose proof (getModel_unknown options settings cached defaults) as Hunknown.
  unfold getModel in *. cbn [fst snd].
  set (selected := if negb (modelIdOf options =? "auto")
                   then match cached with
                        | Some models => cacheLookup (modelIdOf options) models
                        | None => None
                        end
                   else None) in *.
  split; [reflexivity |].
  split.
  { cbn. destruct (modelMaxTokens settings), selected as [info |]; cbn;
      try destruct (info_maxTokens info); try destruct (info_contextWindow info);
      try destruct (info_supportsImages info);
      try destruct (info_supportsPromptCache info); cbn; eauto 10. }
  split; [intros limit ->; reflexivity |].
  split; [exact Hunknown |].
  split; [| now repeat split].
  intros models info Hid -> Hfound.
  assert (Hselected : selected = Some info).
  { subst selected. apply String.eqb_neq in Hid. now rewrite Hid. }
  rewrite Hselected. now repeat split.
Qed.

Lemma getModel_fills_defaults_witness :
  let defaults :=
    mkCachedInfo None None None None None None None None Js.undefined None
                 (Some true) None None in
  let entry :=
    mkCachedInfo (Some 8192%Z) None None (Some true) None None (Some ["RESPONSES"])
                 None Js.undefined (Some "medium") (Some false) (Some false) (Some "24h") in
  let cached := Some [("oca/gpt", entry)] in
  info_maxTokens
    (snd (getModel (mkOptions (Some "oca/gpt")) (mkSettings (Some 100%Z) None None None)
                   cached defaults)) = Some 100%Z
  /\ getModel (mkOptions None) (mkSettings None None None None) cached defaults
     = ("auto",
        mkCachedInfo (Some 4096%Z) (Some 128000%Z) (Some true) (Some false) None None
                     None None Js.undefined None (Some true) None None)
  /\ info_supportedApiTypes
       (snd (getModel (mkOptions (Some "oca/gpt")) (mkSettings None None None None)
                      cached defaults)) = Some ["RESPONSES"]
  /\ info_supportsPromptCache
       (snd (getModel (mkOptions (Some "oca/gpt")) (mkSettings None None None None)
                      cached defaults)) = Some true.
Proof.
  intros defaults entry cached.
  split; [| split; [| split]].
  - destruct (getModel_fills_defaults (mkOptions (Some "oca/gpt"))
                (mkSettings (Some 100%Z) None None None) cached defaults)
      as (_ & _ & Hlimit & _).
    apply Hlimit. reflexivity.
  - destruct (getModel_fills_defaults (mkOptions None) (mkSettings None None None None)
                cached defaults) as (_ & _ & _ & Hauto & _).
    apply Hauto. left. reflexivity.
  - destruct (getModel_fills_defaults (mkOptions (Some "oca/gpt"))
                (mkSettings None None None None) cached defaults)
      as (_ & _ & _ & _ & Hknown & _).
    apply (Hknown [("oca/gpt", entry)] entry); [discriminate | reflexivity | reflexivity].
  - destruct (getModel_fills_defaults (mkOptions (Some "oca/gpt"))
                (mkSettings None None None None) cached defaults)
      as (_ & _ & _ & _ & Hknown & _).
    destruct (Hknown [("oca/gpt", entry)] entry) as (_ & _ & _ & _ & _ & _ & Hcache & _);
      [discriminate | reflexivity | reflexivity |].
    exact Hcache.
Defined.

(** X14.  With no model chosen, so that [getModel] answers for ["auto"],
    the two entry points part ways: [createMessage] sends a chat request,
    [completePrompt] a Responses request, both for the model ["auto"]; and
    the chat request carries as [max_tokens] the user's token limit when
    that is set and not 0, 4096 when it is not set, and no [max_tokens] at
    all when the user's limit is 0. *)
Theorem default_model_protocols (w : World) (settings : Settings)
    (cached : option (list (string * CachedInfo))) (defaults : CachedInfo)
    (h : Handler) (systemPrompt prompt : string) (messages : list Message)
    (metadata : option Metadata) :
  modelIdOf (options w) = "auto" ->
  modelInfo w = branchInfo (snd (getModel (options w) settings cached defaults)) ->
  signedIn (getValid w) = true ->
  usesChat (calls (createMessage w h systemPrompt messages metadata)) = true
  /\ usesChat (completion_calls (completePrompt w prompt)) = false
  /\ chat_model (chatRequest w systemPrompt messages metadata) = "auto"
  /\ body_model (completionResponsesBody w prompt) = "auto"
  /\ (modelMaxTokens settings <> Some 0%Z ->
      chat_max_tokens (chatRequest w systemPrompt messages metadata)
      = orElse (modelMaxTokens settings) (Some 4096%Z))
  /\ (modelMaxTokens settings = Some 0%Z ->
      chat_max_tokens (chatRequest w systemPrompt messages metadata) = None).
Proof.
  intros Hauto Hinfo Hin.
  rewrite (getModel_unknown (options w) settings cached defaults (or_introl Hauto)) in Hinfo.
  cbn in Hinfo.
  destruct (signedIn_client _ Hin) as (key & _ & _ & Hclient).
  split; [| split; [| split; [| split; [| split]]]].
  - unfold createMessage. rewrite Hclient, Hinfo. cbn.
    destruct (chatStream w _); [now destruct (chatLoop _ _ _) | reflexivity].
  - unfold completePrompt. rewrite Hclient, Hinfo. reflexivity.
  - unfold chatRequest. cbn. exact Hauto.
  - unfold completionResponsesBody. cbn. exact Hauto.
  - intros Hzero. unfold chatRequest. cbn. rewrite Hinfo. cbn.
    destruct (modelMaxTokens settings) as [limit |]; cbn; [| reflexivity].
    destruct (Z.eqb_spec limit 0) as [-> | _]; [now contradiction Hzero | reflexivity].
  - intros Hzero. unfold chatRequest. cbn. rewrite Hinfo, Hzero. reflexivity.
Qed.

Lemma default_model_protocols_witness :
  let defaults :=
    mkCachedInfo None None None None None None None None Js.undefined None
                 (Some true) None None in
  let settings := mkSettings None None None None in
  let w := scripted someToken
                    (branchInfo (snd (getModel (mkOptions None) settings None defaults)))
                    [] [] noCompletion noResponse in
  let zero := mkSettings (Some 0%Z) None None None in
  let w0 := scripted someToken
                     (branchInfo (snd (getModel (mkOptions None) zero None defaults)))
                     [] [] noCompletion noResponse in
  usesChat (calls (createMessage w newHandler "" [] None)) = true
  /\ usesChat (completion_calls (completePrompt w "hi")) = false
  /\ chat_max_tokens (chatRequest w "" [] None) = Some 4096%Z
  /\ chat_max_tokens (chatRequest w0 "" [] None) = None.
Proof.
  intros defaults settings w zero w0.
  destruct (default_model_protocols w settings None defaults newHandler "" "hi" [] None)
    as (Hcreate & Hcomplete & _ & _ & Hlimit & _); try reflexivity.
  destruct (default_model_protocols w0 zero None defaults newHandler "" "hi" [] None)
    as (_ & _ & _ & _ & _ & Hzero); try reflexivity.
  split; [exact Hcreate | split; [exact Hcomplete | split]].
  - apply Hlimit. discriminate.
  - apply Hzero. reflexivity.
Defined.

(* ------------------------------------------------------------------ *)
(** ** The full Responses body *)

Section ResponsesBody.

Variable isMcpTool : Js.value -> bool.
Variable normalize : Js.value -> Js.value.
Variable convert : Js.value -> Js.value.

Lemma responsesTools_readable (tools : list Js.value) :
  existsb unreadable tools = false ->
  responsesTools isMcpTool normalize convert tools
  = Some (map (responsesTool isMcpTool normalize convert) (filter isFunctionTool tools)).
Proof.
  induction tools as [| tool rest IH]; [reflexivity |].
  cbn [existsb responsesTools filter]. unfold unreadable at 1, isFunctionTool.
  intros H. apply orb_false_iff in H. destruct H as [H Hrest].
  apply orb_false_iff in H. destruct H as [-> Hfunction].
  rewrite (IH Hrest).
  destruct (Js.eqStr "function" (Js.get "type" tool)); [| reflexivity].
  simpl in Hfunction. now rewrite Hfunction.
Qed.

Lemma responsesTools_unreadable (tools : list Js.value) :
  existsb unreadable tools = true ->
  responsesTools isMcpTool normalize convert tools = None.
Proof.
  induction tools as [| tool rest IH]; [discriminate |].
  cbn [existsb responsesTools]. unfold unreadable at 1, isFunctionTool.
  destruct (isNullish tool); [reflexivity |]. cbn [orb].
  destruct (existsb unreadable rest).
  - now rewrite IH.
  - rewrite orb_false_r. intros H. apply andb_true_iff in H. destruct H as [-> ->].
    now destruct (responsesTools _ _ _ rest).
Qed.

(** The body is built exactly when every tool can be read. *)
Lemma buildResponsesRequestRest_built (settings : Settings) (info : CachedInfo)
    (reasoningEffort : option string) (metadata : option Metadata) :
  isSome (buildResponsesRequestRest isMcpTool normalize convert settings info
                                    reasoningEffort metadata)
  = toolsReadable metadata.
Proof.
  unfold buildResponsesRequestRest, toolsReadable.
  destruct metadata as [m |]; [| reflexivity].
  destruct (tools m) as [ts |]; [| reflexivity].
  destruct (existsb unreadable ts) eqn:Hread.
  - now rewrite (responsesTools_unreadable ts Hread).
  - now rewrite (responsesTools_readable ts Hread).
Qed.

End ResponsesBody.

(** A call on the Responses path with a tool the builder cannot read
    resets the handler, sends nothing, yields nothing and throws. *)
Lemma createMessage_unreadable (w : World) (h : Handler) (systemPrompt : string)
    (messages : list Message) (metadata : option Metadata) :
  signedIn (getValid w) = true ->
  prefersResponses (modelInfo w) = true ->
  toolsReadable metadata = false ->
  createMessage w h systemPrompt messages metadata
  = mkRun [] [] (Threw typeError) (resetHandler h).
Proof.
  intros Hin Hp Hread. destruct (signedIn_client _ Hin) as (key & _ & _ & Hclient).
  unfold createMessage. now rewrite Hclient, Hp, Hread.
Qed.

Section ResponsesBodyEntries.

Variable isMcpTool : Js.value -> bool.
Variable normalize : Js.value -> Js.value.
Variable convert : Js.value -> Js.value.

(** X15.  The tools of a Responses request come from [metadata.tools]
    alone: when every tool can be read, the body holds one entry for each
    function tool, in order, whatever the tool choice, the tool protocol
    and the model's [supportsNativeTools] are, and each entry is strict
    exactly when its name is not an MCP tool's; when a tool cannot be read,
    no body is built.  The chat request of the same call sends no tools
    unless the model supports native tools and the protocol is not
    [xml]. *)
Theorem responses_tools_are_not_gated
    (w : World) (settings : Settings) (info : CachedInfo) (reasoningEffort : option string)
    (systemPrompt : string) (messages : list Message)
    (ts : list Js.value) (choice : option ToolChoice) (protocol : option string)
    (parallel : option bool) :
  let metadata := Some (mkMetadata (Some ts) choice protocol parallel) in
  let built :=
    buildResponsesRequestRest isMcpTool normalize convert settings info reasoningEffort
                              metadata in
  (existsb unreadable ts = false ->
   exists rest,
     built = Some rest
     /\ body_tools rest
        = Some (map (responsesTool isMcpTool normalize convert) (filter isFunctionTool ts))
     /\ Forall (fun entry => tool_strict entry = negb (isMcpTool (tool_name entry)))
               (map (responsesTool isMcpTool normalize convert) (filter isFunctionTool ts)))
  /\ (existsb unreadable ts = true -> built = None)
  /\ ((supportsNativeTools (modelInfo w) <> Some true \/ protocol = Some "xml") ->
      chat_tools (chatRequest w systemPrompt messages metadata) = None).
Proof.
  intros metadata built. split; [| split].
  - intros Hread. subst built metadata. unfold buildResponsesRequestRest.
    cbn [tools]. rewrite (responsesTools_readable _ _ _ _ Hread).
    eexists. split; [reflexivity |]. split; [reflexivity |].
    apply Forall_forall. intros entry Hin. apply in_map_iff in Hin.
    destruct Hin as (tool & <- & _). reflexivity.
  - intros Hbad. subst built metadata. unfold buildResponsesRequestRest.
    cbn [tools]. now rewrite (responsesTools_unreadable _ _ _ _ Hbad).
  - intros Hgate. subst metadata. unfold chatRequest, useNativeTools.
    cbn [chat_tools tools toolProtocol].
    destruct Hgate as [Hmodel | ->].
    + destruct (supportsNativeTools (modelInfo w)) as [[|] |]; try reflexivity.
      now contradiction Hmodel.
    + cbn. now rewrite !andb_false_r.
Qed.

(** X16.  The reasoning entries of the two Responses bodies.  With the
    effort [getReasoningEffort] selects and the settings as the constructor
    leaves them, the body of [createMessage] and the body of
    [completePrompt] carry the same [include] and [reasoning] entries: both
    are present exactly when an effort is selected, the effort sent is the
    selected one, and the summary is [auto] unless it was switched off.
    They differ in the rest: [completePrompt] sends the token limit whenever
    the model has one and never sends tools, [createMessage] sends the limit
    only when [includeMaxTokens] is set and never asks for a cache
    retention. *)
Theorem reasoning_entries_agree
    (settings : Settings) (info : CachedInfo) (metadata : option Metadata)
    (rest : ResponsesRequestRest) :
  let s := constructed settings in
  let selected := getReasoningEffort s info in
  let completion := completionRequestRest s info in
  buildResponsesRequestBodyRest_is isMcpTool normalize convert s info selected metadata rest ->
  body_include rest = body_include completion
  /\ body_reasoning rest = body_reasoning completion
  /\ isSome (body_include rest) = isSome selected
  /\ isSome (body_reasoning rest) = isSome selected
  /\ (forall r, body_reasoning rest = Some r ->
        effort r = selected
        /\ summary r = if isSwitchedOff (enableResponsesReasoningSummary settings)
                       then None else Some "auto")
  /\ body_max_output_tokens completion
     = (if truthyZ (info_maxTokens info) then info_maxTokens info else None)
  /\ (includeMaxTokens settings <> Some true -> body_max_output_tokens rest = None)
  /\ body_tools completion = None
  /\ body_prompt_cache_retention rest = None.
Proof.
  intros s selected completion Hbuilt.
  unfold buildResponsesRequestBodyRest_is, buildResponsesRequestRest in Hbuilt.
  assert (Htruthy : truthyS selected = isSome selected).
  { subst selected. unfold getReasoningEffort.
    destruct (orElse _ _) as [e |]; [| reflexivity].
    destruct (e =? "") eqn:He; [reflexivity |].
    destruct (e =? "disable"); [reflexivity |].
    cbn. unfold truthyS. cbn. now rewrite He. }
  assert (Hsummary : orFalse (enableResponsesReasoningSummary s)
                     = negb (isSwitchedOff (enableResponsesReasoningSummary settings))).
  { subst s. cbn. now destruct (enableResponsesReasoningSummary settings) as [[|] |]. }
  destruct (match metadata with Some _ => _ | None => _ end) as [bodyTools |];
    [| discriminate].
  injection Hbuilt as <-. subst completion. unfold completionRequestRest.
  fold selected. cbn [body_include body_reasoning body_max_output_tokens body_tools
                      body_prompt_cache_retention].
  rewrite !Htruthy. clear Htruthy Hsummary. subst s. cbn [constructed enableResponsesReasoningSummary
    includeMaxTokens info_maxTokens].
  split; [reflexivity |]. split; [reflexivity |].
  split; [now destruct (isSome selected) |].
  split; [now destruct (isSome selected) |].
  split.
  { intros r. destruct (isSome selected); [| discriminate].
    intros [= <-]. split; [reflexivity |]. cbn.
    now destruct (enableResponsesReasoningSummary settings) as [[|] |]. }
  split; [reflexivity |].
  split; [| split; reflexivity].
  intros Hoff.
  destruct (includeMaxTokens settings) as [[|] |]; cbn; try now rewrite andb_false_r.
  now contradiction Hoff.
Qed.

End ResponsesBodyEntries.

Lemma responses_tools_are_not_gated_witness :
  let w := scripted someToken (mkModelInfo (Some "responses") None None (Some 4096%Z))
                    [] [] noCompletion noResponse in
  let search :=
    Js.object [("type", Js.str "function");
               ("function", Js.object [("name", Js.str "search")])] in
  let other := Js.object [("type", Js.str "custom")] in
  let metadata := Some (mkMetadata (Some [search; other]) (Some choiceNone) (Some "xml") None) in
  let identity := fun v : Js.value => v in
  (exists rest,
     buildResponsesRequestRest (fun _ => false) identity identity
                               (mkSettings None None None None)
                               (mkCachedInfo None None None None None None None None
                                             Js.undefined None None None None)
                               None metadata
     = Some rest
     /\ body_tools rest
        = Some [mkResponsesTool (Js.str "search") Js.undefined Js.undefined true])
  /\ chat_tools (chatRequest w "" [] metadata) = None.
Proof.
  intros w search other metadata identity.
  destruct (responses_tools_are_not_gated
              (fun _ => false) identity identity w
              (mkSettings None None None None)
              (mkCachedInfo None None None None None None None None
                            Js.undefined None None None None)
              None "" [] [search; other] (Some choiceNone) (Some "xml") None)
    as (Hbuilt & _ & Hchat).
  split.
  - destruct (Hbuilt eq_refl) as (rest & Hrest & Htools & _).
    exists rest. split; [exact Hrest | exact Htools].
  - apply Hchat. right. reflexivity.
Defined.

Lemma reasoning_entries_agree_witness :
  let settings := mkSettings None (Some "high") None None in
  let info :=
    mkCachedInfo (Some 4096%Z) None None None None None None None Js.undefined
                 None None None None in
  let rest :=
    mkResponsesRequestRest (Some ["reasoning.encrypted_content"])
                           (Some (mkReasoning (Some "high") (Some "auto"))) None None None in
  body_reasoning (completionRequestRest (constructed settings) info) = body_reasoning rest
  /\ body_max_output_tokens (completionRequestRest (constructed settings) info)
     = Some 4096%Z
  /\ body_max_output_tokens rest = None.
Proof.
  intros settings info rest.
  destruct (reasoning_entries_agree (fun _ => false) (fun v => v) (fun v => v)
                                    settings info None rest eq_refl)
    as (_ & Hreasoning & _ & _ & _ & Hlimit & Hnone & _).
  split; [symmetry; exact Hreasoning |].
  split; [exact Hlimit |].
  apply Hnone. discriminate.
Defined.

(* ------------------------------------------------------------------ *)
(** ** The request id on a provider's error *)

Lemma lookup_assign_same (k : string) (v : Js.value) (fields : list (string * Js.value)) :
  Js.lookup k (assign k v fields) = v.
Proof.
  induction fields as [| [k' v'] rest IH]; cbn.
  - now rewrite String.eqb_refl.
  - destruct (k' =? k) eqn:Hk; cbn.
    + now rewrite String.eqb_refl.
    + now rewrite Hk.
Qed.

Lemma lookup_assign_other (k k' : string) (v : Js.value) (fields : list (string * Js.value)) :
  k' <> k ->
  Js.lookup k' (assign k v fields) = Js.lookup k' fields.
Proof.
  intros Hne. induction fields as [| [k0 v0] rest IH]; cbn.
  - destruct (k =? k') eqn:Hk; [| reflexivity].
    apply String.eqb_eq in Hk. now contradiction Hne.
  - destruct (k0 =? k) eqn:Hk; cbn.
    + apply String.eqb_eq in Hk. subst k0.
      destruct (k =? k') eqn:Hk'; [| reflexivity].
      apply String.eqb_eq in Hk'. now contradiction Hne.
    + now rewrite IH.
Qed.

Lemma hasKey_assign (k k' : string) (v : Js.value) (fields : list (string * Js.value)) :
  hasKey k fields = true ->
  hasKey k' (assign k v fields) = hasKey k' fields.
Proof.
  induction fields as [| [k0 v0] rest IH]; cbn; [discriminate |].
  destruct (k0 =? k) eqn:Hk; cbn.
  - apply String.eqb_eq in Hk. now subst k0.
  - intros Hrest. now rewrite (IH Hrest).
Qed.

Lemma lookup_hasKey (k : string) (fields : list (string * Js.value)) :
  Js.lookup k fields <> Js.undefined -> hasKey k fields = true.
Proof.
  induction fields as [| [k' v'] rest IH]; cbn; [congruence |].
  destruct (k' =? k); [reflexivity | exact IH].
Qed.

(** X17.  [decorateErrorWithOpcRequestId] changes the message of the
    processed error and nothing else.  When the caught error carries a
    non-empty request id and the message of the processed error is a
    string, the new message is the old one followed by [ opc-request-id: ]
    and the id.  In every case the processed error keeps its keys, none
    added and none removed, and every key but [message] reads as before;
    when the caught error has no [headers.get], or the id is missing or
    empty, or the processed error is no object or has no [message], the
    processed error is returned as it is. *)
Theorem request_id_is_appended (error : CaughtError) (processedError : Js.value) :
  let decorated := decorateErrorWithOpcRequestId error processedError in
  (forall message id,
     Js.get "message" processedError = Js.str message ->
     opcRequestIdOf error = Js.str id ->
     id <> "" ->
     Js.get "message" decorated = Js.str (message ++ " opc-request-id: " ++ id)%string)
  /\ (forall fields,
        processedError = Js.object fields ->
        exists fields',
          decorated = Js.object fields'
          /\ forall k, hasKey k fields' = hasKey k fields)
  /\ (forall k, k <> "message" -> Js.get k decorated = Js.get k processedError)
  /\ (headers_get error = None -> decorated = processedError)
  /\ (Js.truthy (opcRequestIdOf error) = false -> decorated = processedError)
  /\ ((forall fields, processedError = Js.object fields -> hasKey "message" fields = false) ->
      decorated = processedError).
Proof.
  intros decorated. subst decorated. unfold decorateErrorWithOpcRequestId.
  split; [| split; [| split; [| split; [| split]]]].
  - intros message id Hmessage Hid Hset.
    destruct processedError as [| | | | | | fields]; try discriminate.
    cbn [Js.get] in Hmessage.
    assert (Hkey : hasKey "message" fields = true)
      by (apply lookup_hasKey; rewrite Hmessage; discriminate).
    assert (Htruthy : Js.truthy (Js.str id) = true).
    { cbn. destruct (id =? "") eqn:E; [| reflexivity].
      apply String.eqb_eq in E. now contradiction Hset. }
    rewrite Hid, Htruthy, Hkey, Hmessage. cbn [andb Js.get Js.toString].
    now rewrite lookup_assign_same.
  - intros fields ->.
    destruct (Js.truthy (opcRequestIdOf error)); cbn [andb]; [| now exists fields].
    destruct (hasKey "message" fields) eqn:Hkey; [| now exists fields].
    eexists. split; [reflexivity |]. intros k. now apply hasKey_assign.
  - intros k Hne. destruct processedError as [| | | | | | fields]; try reflexivity.
    destruct (Js.truthy (opcRequestIdOf error) && hasKey "message" fields); [| reflexivity].
    cbn [Js.get]. now apply lookup_assign_other.
  - intros Hnone. unfold opcRequestIdOf. rewrite Hnone.
    now destruct processedError.
  - intros ->. now destruct processedError.
  - intros Hno. destruct processedError as [| | | | | | fields]; try reflexivity.
    rewrite (Hno fields eq_refl). now rewrite andb_false_r.
Qed.

Lemma request_id_is_appended_witness :
  let error := mkCaughtError (Some (fun _ => Js.str "abc")) in
  let processedError :=
    Js.object [("name", Js.str "Error"); ("message", Js.str "Rate limited")] in
  Js.get "message" (decorateErrorWithOpcRequestId error processedError)
  = Js.str "Rate limited opc-request-id: abc"
  /\ Js.get "name" (decorateErrorWithOpcRequestId error processedError) = Js.str "Error"
  /\ decorateErrorWithOpcRequestId (mkCaughtError None) processedError = processedError.
Proof.
  intros error processedError.
  destruct (request_id_is_appended error processedError) as (Hmessage & _ & Hother & _).
  destruct (request_id_is_appended (mkCaughtError None) processedError)
    as (_ & _ & _ & Hnone & _).
  split; [| split].
  - apply (Hmessage "Rate limited" "abc"); [reflexivity | reflexivity | discriminate].
  - apply Hother. discriminate.
  - apply Hnone. reflexivity.
Defined.

(* ------------------------------------------------------------------ *)
(** ** The table of the previous revision *)

Lemma previous_isText_outputItem (event : Js.value) :
  isOutputItem event = true ->
  Previous.isText event = false /\ isReasoningDelta event = false.
Proof.
  unfold isOutputItem, Previous.isText, isReasoningDelta.
  intros H. split; other_class H.
Qed.

Lemma previous_isText_delta (event : Js.value) :
  isToolCallArgumentsDelta event = true ->
  Previous.isText event = false /\ isReasoningDelta event = false
  /\ isOutputItem event = false.
Proof.
  unfold isOutputItem, Previous.isText, isReasoningDelta, isToolCallArgumentsDelta.
  intros H. repeat split; other_class H.
Qed.

(** One event either leaves the table or files one recorded entry. *)
Lemma previous_step_table (table : Previous.Table) (event : Js.value) :
  snd (Previous.processResponsesEvent table event) = table
  \/ exists entry,
       snd (Previous.processResponsesEvent table event) = entry :: table
       /\ recordedEntry entry
       /\ isOutputItem event = true.
Proof.
  unfold Previous.processResponsesEvent.
  destruct (Previous.isText event); [now left |].
  destruct (isReasoningDelta event); [now left |].
  destruct (isOutputItem event).
  - destruct (Js.eqStr "function_call" (Js.get "type" (Js.get "item" event)));
      [| now left].
    destruct (Js.truthy (Js.get "call_id" (Js.get "item" event))) eqn:Hid;
      [| cbn [andb];
         destruct (Js.eqStr "response.output_item.done" (Js.get "type" event)); now left].
    destruct (Js.truthy (Js.get "name" (Js.get "item" event))) eqn:Hname;
      [| cbn [andb];
         destruct (Js.eqStr "response.output_item.done" (Js.get "type" event)); now left].
    right. eexists. cbn [andb].
    split; [| split; [| reflexivity]].
    + destruct (Js.eqStr "response.output_item.done" (Js.get "type" event)); reflexivity.
    + unfold recordedEntry. cbn. auto.
  - destruct (isToolCallArgumentsDelta event); [now left |].
    destruct (isToolCallArgumentsDone event); [now left |].
    destruct (isResponseDone event); now left.
Qed.

Lemma previous_loop_quiet (events : list Js.value) :
  forall table,
    forallb (fun event => negb (isOutputItem event)) events = true ->
    snd (Previous.responsesLoop table events) = table.
Proof.
  induction events as [| event rest IH]; intros table Hquiet; [reflexivity |].
  cbn [forallb] in Hquiet. apply andb_true_iff in Hquiet. destruct Hquiet as [Hevent Hrest].
  cbn [Previous.responsesLoop].
  destruct (previous_step_table table event) as [Hsame | (entry & _ & _ & Hitem)].
  - destruct (Previous.processResponsesEvent table event) as [out table1].
    cbn [snd] in Hsame. subst table1.
    specialize (IH table Hrest).
    now destruct (Previous.responsesLoop table rest).
  - now rewrite Hitem in Hevent.
Qed.

Lemma previous_loop_app (before after : list Js.value) :
  forall table,
    Previous.responsesLoop table (before ++ after)
    = (fst (Previous.responsesLoop table before)
         ++ fst (Previous.responsesLoop (snd (Previous.responsesLoop table before)) after),
       snd (Previous.responsesLoop (snd (Previous.responsesLoop table before)) after)).
Proof.
  induction before as [| event rest IH]; intros table.
  - cbn. now destruct (Previous.responsesLoop table after).
  - cbn [app Previous.responsesLoop].
    destruct (Previous.processResponsesEvent table event) as [out table1].
    rewrite IH.
    destruct (Previous.responsesLoop table1 rest) as [outs table2]. cbn [fst snd].
    now rewrite app_assoc.
Qed.

(** X18.  In the previous revision the table of identities only grows: a
    run of the Responses loop leaves the table it found under the entries
    it filed, each filed under a truthy call id with that id and a truthy
    name, so an id that resolved before the run resolves after it; events
    other than output-item events file nothing. *)
Theorem previous_table_only_grows (table : Previous.Table) (events : list Js.value) :
  (exists added,
     snd (Previous.responsesLoop table events) = added ++ table
     /\ Forall recordedEntry added)
  /\ (forall key,
        isSome (Previous.tableGet key table) = true ->
        isSome (Previous.tableGet key (snd (Previous.responsesLoop table events))) = true)
  /\ (forallb (fun event => negb (isOutputItem event)) events = true ->
      snd (Previous.responsesLoop table events) = table).
Proof.
  assert (Hgrows : forall evs t,
             exists added,
               snd (Previous.responsesLoop t evs) = added ++ t
               /\ Forall recordedEntry added).
  { induction evs as [| event rest IH]; intros t.
    - exists []. split; [reflexivity | constructor].
    - cbn [Previous.responsesLoop].
      destruct (previous_step_table t event) as [Hsame | (entry & Hset & Hentry & _)];
        destruct (Previous.processResponsesEvent t event) as [out t1]; cbn [snd] in *;
        subst t1.
      + destruct (IH t) as (added & Hadded & Hall).
        destruct (Previous.responsesLoop t rest) as [outs t2]. cbn [snd] in *.
        now exists added.
      + destruct (IH (entry :: t)) as (added & Hadded & Hall).
        destruct (Previous.responsesLoop (entry :: t) rest) as [outs t2]. cbn [snd] in *.
        exists (added ++ [entry]). split.
        * now rewrite <- app_assoc.
        * apply Forall_app. split; [assumption | now constructor]. }
  split; [apply Hgrows |]. split; [| apply previous_loop_quiet].
  intros key Hfound. destruct (Hgrows events table) as (added & -> & _).
  clear Hgrows. induction added as [| [k identity] rest IH]; [assumption |].
  cbn. now destruct (Previous.sameKey k key).
Qed.

Lemma previous_table_only_grows_witness :
  let table := [(Js.str "t0", Previous.mkIdentity (Js.str "t0") (Js.str "read"))] in
  let events := [outputItemAdded "t1" "search"; textDelta (Js.str "hi")] in
  isSome (Previous.tableGet (Js.str "t0") (snd (Previous.responsesLoop table events))) = true
  /\ snd (Previous.responsesLoop table [textDelta (Js.str "hi")]) = table.
Proof.
  intros table events.
  destruct (previous_table_only_grows table events) as (_ & Hkept & _).
  destruct (previous_table_only_grows table [textDelta (Js.str "hi")]) as (_ & _ & Hquiet).
  split; [apply Hkept; reflexivity | apply Hquiet; reflexivity].
Defined.

(** X19.  In the previous revision an identity recorded once is read back
    by a later delta.  When an output-item event records a name under the
    call id [c], and no output-item event follows it before a
    tool-call-arguments delta with the call id [c] and no name of its own,
    then the delta is the last thing the loop yields: a fragment with index
    0, the id [c], the recorded name and the delta's text; this holds
    whatever table the loop started from, and also when the delta arrives
    in a later run on the table the first run left. *)
Theorem previous_identity_round_trip
    (table : Previous.Table) (c : string) (between : list Js.value)
    (record delta : Js.value) :
  c <> "" ->
  recordsCall c record = true ->
  forallb (fun event => negb (isOutputItem event)) between = true ->
  isToolCallArgumentsDelta delta = true ->
  Js.get "call_id" delta = Js.str c ->
  Js.truthy (Js.get "name" delta) = false ->
  let fragment :=
    tool_call_partial (Js.number 0) (Js.str c)
                      (Js.get "name" (Js.get "item" record)) (Js.get "delta" delta) in
  (exists before,
     fst (Previous.responsesLoop table (record :: between ++ [delta]))
     = before ++ [fragment])
  /\ fst (Previous.responsesLoop
            (snd (Previous.responsesLoop table (record :: between))) [delta])
     = [fragment].
Proof.
  intros Hc Hrecord Hquiet Hdelta Hid Hname fragment.
  unfold recordsCall in Hrecord.
  apply andb_true_iff in Hrecord. destruct Hrecord as [Hrecord Hnamed].
  apply andb_true_iff in Hrecord. destruct Hrecord as [Hrecord Hcall].
  apply andb_true_iff in Hrecord. destruct Hrecord as [Hitem Hfunction].
  assert (Hkey : Js.get "call_id" (Js.get "item" record) = Js.str c).
  { destruct (Js.get "call_id" (Js.get "item" record)); try discriminate.
    cbn in Hcall. apply String.eqb_eq in Hcall. now subst. }
  assert (Htruthy : Js.truthy (Js.str c) = true).
  { cbn. destruct (c =? "") eqn:E; [| reflexivity].
    apply String.eqb_eq in E. now contradiction Hc. }
  assert (Hstep : snd (Previous.processResponsesEvent table record)
                  = (Js.str c,
                     Previous.mkIdentity (Js.str c) (Js.get "name" (Js.get "item" record)))
                      :: table).
  { unfold Previous.processResponsesEvent.
    destruct (previous_isText_outputItem record Hitem) as (-> & ->).
    rewrite Hitem, Hfunction, Hkey, Htruthy, Hnamed. cbn [andb].
    unfold Previous.tableSet.
    now destruct (Js.eqStr "response.output_item.done" (Js.get "type" record)). }
  assert (Htable : snd (Previous.responsesLoop table (record :: between))
                   = (Js.str c,
                      Previous.mkIdentity (Js.str c) (Js.get "name" (Js.get "item" record)))
                       :: table).
  { cbn [Previous.responsesLoop].
    destruct (Previous.processResponsesEvent table record) as [out table1].
    cbn [snd] in Hstep. subst table1.
    pose proof (previous_loop_quiet between
                  ((Js.str c,
                    Previous.mkIdentity (Js.str c) (Js.get "name" (Js.get "item" record)))
                     :: table) Hquiet) as Hsame.
    now destruct (Previous.responsesLoop _ between). }
  assert (Hlast : fst (Previous.responsesLoop
                         (snd (Previous.responsesLoop table (record :: between))) [delta])
                  = [fragment]).
  { rewrite Htable. cbn [Previous.responsesLoop].
    unfold Previous.processResponsesEvent.
    destruct (previous_isText_delta delta Hdelta) as (-> & -> & ->).
    rewrite Hdelta, Hid, Htruthy. cbn [Previous.tableGet Previous.sameKey].
    rewrite String.eqb_refl. unfold Js.oror. rewrite Htruthy, Hname.
    cbn [Previous.identity_id Previous.identity_name]. rewrite Hnamed, Htruthy.
    reflexivity. }
  split; [| exact Hlast].
  change (record :: between ++ [delta]) with ((record :: between) ++ [delta]).
  rewrite previous_loop_app. cbn [fst]. rewrite Hlast. eauto.
Qed.

Lemma previous_identity_round_trip_witness :
  exists before,
    fst (Previous.responsesLoop []
           [outputItemAdded "t1" "search"; textDelta (Js.str "hi");
            argumentsDelta [("call_id", Js.str "t1"); ("delta", Js.str "{}")]])
    = before ++ [tool_call_partial (Js.number 0) (Js.str "t1") (Js.str "search")
                                   (Js.str "{}")].
Proof.
  apply (previous_identity_round_trip
           [] "t1" [textDelta (Js.str "hi")] (outputItemAdded "t1" "search")
           (argumentsDelta [("call_id", Js.str "t1"); ("delta", Js.str "{}")])).
  - discriminate.
  - reflexivity.
  - reflexivity.
  - reflexivity.
  - reflexivity.
  - reflexivity.
Defined.

(* ------------------------------------------------------------------ *)
(** ** The prompt-cache retention *)

(** X20.  [completePrompt] asks for a prompt-cache retention only as
    [24h], and exactly when two sources agree: the cache entry of the
    selected model says the model supports the prompt cache, and
    [NATIVE_TOOL_DEFAULTS] carries the retention [24h].  The retention of
    the cache entry itself is never read, and for the model ["auto"], or a
    model the cache does not know, none is sent. *)
Theorem cache_retention_needs_both (options : Options) (settings : Settings)
    (cached : option (list (string * CachedInfo))) (defaults : CachedInfo) :
  let info := snd (getModel options settings cached defaults) in
  let sent := body_prompt_cache_retention (completionRequestRest (constructed settings) info) in
  (sent = None \/ sent = Some "24h")
  /\ (sent = Some "24h" ->
      info_promptCacheRetention defaults = Some "24h"
      /\ modelIdOf options <> "auto"
      /\ exists models entry,
           cached = Some models
           /\ cacheLookup (modelIdOf options) models = Some entry
           /\ info_supportsPromptCache entry = Some true)
  /\ (forall models entry,
        modelIdOf options <> "auto" ->
        cached = Some models ->
        cacheLookup (modelIdOf options) models = Some entry ->
        info_supportsPromptCache entry = Some true ->
        info_promptCacheRetention defaults = Some "24h" ->
        sent = Some "24h").
Proof.
  intros info sent. subst sent info.
  unfold completionRequestRest, getPromptCacheRetention, getModel.
  cbn [snd body_prompt_cache_retention info_supportsPromptCache info_promptCacheRetention].
  split; [| split].
  - destruct (negb (orFalse _)); [now left |].
    destruct (info_promptCacheRetention defaults) as [r |]; [| now left].
    destruct (r =? "24h"); [now right | now left].
  - destruct (modelIdOf options =? "auto") eqn:Hauto; cbn [negb]; [discriminate |].
    destruct cached as [models |]; [| discriminate].
    destruct (cacheLookup (modelIdOf options) models) as [entry |] eqn:Hfound;
      [| discriminate].
    destruct (info_supportsPromptCache entry) as [[|] |] eqn:Hsupports; try discriminate.
    cbn. destruct (info_promptCacheRetention defaults) as [r |]; [| discriminate].
    destruct (r =? "24h") eqn:Hr; [| discriminate].
    apply String.eqb_eq in Hr. subst r. intros _.
    split; [reflexivity |]. split; [now apply String.eqb_neq |].
    exists models, entry. auto.
  - intros models entry Hid -> Hfound Hsupports Hdefaults.
    apply String.eqb_neq in Hid. rewrite Hid, Hfound. cbn [negb].
    rewrite Hsupports, Hdefaults. reflexivity.
Qed.

Lemma cache_retention_needs_both_witness :
  let entry :=
    mkCachedInfo None None None (Some true) None None None None Js.undefined
                 None None None None in
  let retaining :=
    mkCachedInfo None None None None None None None None Js.undefined
                 None None None (Some "24h") in
  let settings := mkSettings None None None None in
  let options := mkOptions (Some "oca/gpt") in
  body_prompt_cache_retention
    (completionRequestRest (constructed settings)
       (snd (getModel options settings (Some [("oca/gpt", entry)]) retaining)))
  = Some "24h".
Proof.
  intros entry retaining settings options.
  destruct (cache_retention_needs_both options settings (Some [("oca/gpt", entry)]) retaining)
    as (_ & _ & Hsent).
  apply (Hsent [("oca/gpt", entry)] entry); try reflexivity. discriminate.
Defined.
